(** * Signal: protocol codec and bit receiver

    A shallow embedding of [src/domain/protocol.ts] (classes [Protocol] and
    [GridProtocol]) and [src/domain/bit-receiver.ts] (classes [BitReceiver]
    and [ManualBitReceiver]), with the properties of the codec and of the
    receiver life cycle, and of the receiving loop of the grid channel
    ([class GridChannel], with [GridAnalyzer.isCheckerboard] and the grid
    patterns), which is the caller of [GridProtocol].

    Conventions.
    - A JavaScript [number] that holds an integer is a [Z]; the bit operators
      [<<], [>>], [&], [|], [^] go through [ToInt32] as ECMAScript does.
    - A JavaScript [string] is the list of its UTF-16 code units.
    - An array is a list; [Uint8Array] construction reduces modulo 256.
    - A function that may [throw] returns a [completion].
    - A time in milliseconds is a rational and its arithmetic is exact,
      where the source computes in double precision.  Rounding is
      monotone, so a test [elapsed >= threshold] that succeeds here
      succeeds in the source; statements about runs assume such a test
      only where it succeeds. *)

From Stdlib Require Import ZArith List Lia Bool QArith Qminmax String.
Import ListNotations.
Local Open Scope Z_scope.

(** ** Completions: normal return or thrown exception *)

Inductive exn : Type :=
| MessageTooLongError
| TypeError.

Inductive completion (A : Type) : Type :=
| Return (a : A)
| Throw (e : exn).

Arguments Return {A} a.
Arguments Throw {A} e.

(** [try { body } catch { handler }] *)
Definition try_catch {A} (body : completion A) (handler : completion A)
  : completion A :=
  match body with
  | Return a => Return a
  | Throw _ => handler
  end.

(** ** ECMAScript 32-bit integer operators *)

Module JS.

Definition ToInt32 (z : Z) : Z :=
  let m := z mod 2 ^ 32 in
  if 2 ^ 31 <=? m then m - 2 ^ 32 else m.

(** [a << n] *)
Definition shl (a n : Z) : Z := ToInt32 (Z.shiftl (ToInt32 a) (n mod 32)).
(** [a >> n] *)
Definition sar (a n : Z) : Z := Z.shiftr (ToInt32 a) (n mod 32).
(** [a & b] *)
Definition and (a b : Z) : Z := Z.land (ToInt32 a) (ToInt32 b).
(** [a | b] *)
Definition or (a b : Z) : Z := Z.lor (ToInt32 a) (ToInt32 b).
(** [a ^ b] *)
Definition xor (a b : Z) : Z := Z.lxor (ToInt32 a) (ToInt32 b).

(** [new Uint8Array(xs)] for integer elements. *)
Definition Uint8Array (xs : list Z) : list Z := map (fun x => x mod 256) xs.

(** [a % b] on integers: the remainder has the sign of the dividend. *)
Definition rem (a b : Z) : Z := Z.rem a b.

(** [xs.slice(s, e)] for [0 <= s <= e]; every call in the sources has
    this shape. *)
Definition slice {A} (xs : list A) (s e : Z) : list A :=
  firstn (Z.to_nat (e - s)) (skipn (Z.to_nat s) xs).

Definition length {A} (xs : list A) : Z := Z.of_nat (List.length xs).

End JS.

(** ** Strings, [TextEncoder] and [TextDecoder]

    The platform's UTF-8 encoder and decoder follow the WHATWG Encoding
    Standard; the repository calls [new TextEncoder().encode(s)] and
    [new TextDecoder('utf-8', { fatal: true }).decode(bytes)]. *)

Module Text.

(** A string is its sequence of UTF-16 code units. *)
Definition jsstring : Type := list Z.

Definition isCodeUnit (u : Z) : bool := (0 <=? u) && (u <=? 0xFFFF).
Definition isString (s : jsstring) : bool := forallb isCodeUnit s.

Definition isHighSurrogate (u : Z) : bool := (0xD800 <=? u) && (u <=? 0xDBFF).
Definition isLowSurrogate (u : Z) : bool := (0xDC00 <=? u) && (u <=? 0xDFFF).
Definition isSurrogate (u : Z) : bool := (0xD800 <=? u) && (u <=? 0xDFFF).

(** A Unicode scalar value: a code point that is not a surrogate. *)
Definition isScalarValue (c : Z) : bool :=
  (0 <=? c) && (c <=? 0x10FFFF) && negb (isSurrogate c).

(** Conversion of a string to scalar values (WebIDL [USVString]): a
    surrogate pair is one code point, a lone surrogate becomes U+FFFD. *)
Fixpoint toScalarValues (s : jsstring) : list Z :=
  match s with
  | [] => []
  | u :: rest =>
      if isHighSurrogate u then
        match rest with
        | l :: rest' =>
            if isLowSurrogate l
            then (0x10000 + Z.shiftl (u - 0xD800) 10 + (l - 0xDC00))
                   :: toScalarValues rest'
            else 0xFFFD :: toScalarValues rest
        | [] => [0xFFFD]
        end
      else if isLowSurrogate u then 0xFFFD :: toScalarValues rest
      else u :: toScalarValues rest
  end.

(** [String.prototype.isWellFormed]: no lone surrogate. *)
Fixpoint isWellFormed (s : jsstring) : bool :=
  match s with
  | [] => true
  | u :: rest =>
      if isHighSurrogate u then
        match rest with
        | l :: rest' => isLowSurrogate l && isWellFormed rest'
        | [] => false
        end
      else negb (isLowSurrogate u) && isWellFormed rest
  end.

(** UTF-8 encoder, one scalar value. *)
Definition utf8EncodeCodePoint (c : Z) : list Z :=
  if c <=? 0x7F then [c]
  else if c <=? 0x7FF then
    [Z.lor 0xC0 (Z.shiftr c 6); Z.lor 0x80 (Z.land c 0x3F)]
  else if c <=? 0xFFFF then
    [Z.lor 0xE0 (Z.shiftr c 12);
     Z.lor 0x80 (Z.land (Z.shiftr c 6) 0x3F);
     Z.lor 0x80 (Z.land c 0x3F)]
  else
    [Z.lor 0xF0 (Z.shiftr c 18);
     Z.lor 0x80 (Z.land (Z.shiftr c 12) 0x3F);
     Z.lor 0x80 (Z.land (Z.shiftr c 6) 0x3F);
     Z.lor 0x80 (Z.land c 0x3F)].

(** [new TextEncoder().encode(s)] *)
Definition encode (s : jsstring) : list Z :=
  flat_map utf8EncodeCodePoint (toScalarValues s).

(** UTF-8 decoder state (WHATWG Encoding, 8.1.1). *)
Record utf8_state : Type := mkState {
  code_point : Z;
  bytes_seen : Z;
  bytes_needed : Z;
  lower_boundary : Z;
  upper_boundary : Z
}.

Definition utf8_init : utf8_state := mkState 0 0 0 0x80 0xBF.

Definition inRange (lo hi b : Z) : bool := (lo <=? b) && (b <=? hi).

(** The decoder's handler run over a byte sequence.  [None] is the
    decoder's error, which is fatal here.  With [stream] set, an
    incomplete sequence at the end of the input is held back instead of
    being an error ([decode(bytes, { stream: true })]). *)
Fixpoint utf8Decode (stream : bool) (st : utf8_state) (bytes : list Z)
  : option (list Z) :=
  match bytes with
  | [] => if (bytes_needed st =? 0) || stream then Some [] else None
  | b :: rest =>
      if bytes_needed st =? 0 then
        if inRange 0x00 0x7F b then
          option_map (cons b) (utf8Decode stream utf8_init rest)
        else if inRange 0xC2 0xDF b then
          utf8Decode stream (mkState (Z.land b 0x1F) 0 1 0x80 0xBF) rest
        else if inRange 0xE0 0xEF b then
          utf8Decode stream
            (mkState (Z.land b 0xF) 0 2
               (if b =? 0xE0 then 0xA0 else 0x80)
               (if b =? 0xED then 0x9F else 0xBF)) rest
        else if inRange 0xF0 0xF4 b then
          utf8Decode stream
            (mkState (Z.land b 0x7) 0 3
               (if b =? 0xF0 then 0x90 else 0x80)
               (if b =? 0xF4 then 0x8F else 0xBF)) rest
        else None
      else if negb (inRange (lower_boundary st) (upper_boundary st) b) then
        None
      else
        let cp := Z.lor (Z.shiftl (code_point st) 6) (Z.land b 0x3F) in
        let seen := bytes_seen st + 1 in
        if negb (seen =? bytes_needed st) then
          utf8Decode stream (mkState cp seen (bytes_needed st) 0x80 0xBF) rest
        else
          option_map (cons cp) (utf8Decode stream utf8_init rest)
  end.

(** Code point to UTF-16 code units. *)
Definition codePointToUnits (c : Z) : jsstring :=
  if c <=? 0xFFFF then [c]
  else [0xD800 + Z.shiftr (c - 0x10000) 10;
        0xDC00 + Z.land (c - 0x10000) 0x3FF].

(** With [ignoreBOM] left at its default [false], a leading U+FEFF is
    removed from the output. *)
Definition stripBOM (cps : list Z) : list Z :=
  match cps with
  | c :: rest => if c =? 0xFEFF then rest else cps
  | [] => []
  end.

(** [new TextDecoder('utf-8', { fatal: true }).decode(bytes)] *)
Definition decode (bytes : list Z) : completion jsstring :=
  match utf8Decode false utf8_init bytes with
  | Some cps => Return (flat_map codePointToUnits (stripBOM cps))
  | None => Throw TypeError
  end.

End Text.

(** ** [src/constants/index.ts] *)

Definition PREAMBLE : list Z := [1; 0; 1; 0; 1; 0; 1; 0].
Definition START_MARKER : list Z := [1; 1; 1; 1; 1; 1; 1; 1].
Definition MAX_MESSAGE_BYTES : Z := 200.
Definition MAX_BITS_TIMEOUT : Z := 2000.
Definition GAP_MS : Q := 300 # 1.
Definition GAP_THRESHOLD_MULTIPLIER : Q := 6 # 10.

(** ** [class Protocol] *)

Module Protocol.

Import Text.

(** [byteToBits]: [for (i = 7; i >= 0; i--) bits.push((byte >> i) & 1)] *)
Definition byteToBits (byte : Z) : list Z :=
  map (fun i => JS.and (JS.sar byte i) 1) [7; 6; 5; 4; 3; 2; 1; 0].

(** [bitsToNumber]: [bits.reduce((acc, bit) => (acc << 1) | bit, 0)] *)
Definition bitsToNumber (bits : list Z) : Z :=
  fold_left (fun acc bit => JS.or (JS.shl acc 1) bit) bits 0.

(** [calculateChecksum]: [checksum ^= byte] over the bytes. *)
Definition calculateChecksum (bytes : list Z) : Z :=
  fold_left (fun checksum byte => JS.xor checksum byte) bytes 0.

(** The inner loop of [findStartMarker] at position [i], where [rest] is
    the input from index [i] on: are [bits[i] .. bits[i+7]] all [1]?
    [None] when fewer than eight bits are left, which is when the outer
    loop's condition [i <= bits.length - 8] fails. *)
Definition allOnes (rest : list Z) : option bool :=
  match rest with
  | b0 :: b1 :: b2 :: b3 :: b4 :: b5 :: b6 :: b7 :: _ =>
      Some (forallb (fun b => b =? 1) [b0; b1; b2; b3; b4; b5; b6; b7])
  | _ => None
  end.

(** The outer loop of [findStartMarker], from index [i]. *)
Fixpoint findStartMarkerFrom (i : Z) (rest : list Z) : Z :=
  match allOnes rest with
  | None => -1
  | Some true => i
  | Some false =>
      match rest with
      | _ :: rest' => findStartMarkerFrom (i + 1) rest'
      | [] => -1
      end
  end.

Definition findStartMarker (bits : list Z) : Z := findStartMarkerFrom 0 bits.

(** [encode] *)
Definition encode (message : jsstring) : completion (list Z) :=
  let bytes := Text.encode message in
  if JS.length bytes >? MAX_MESSAGE_BYTES then Throw MessageTooLongError
  else
    Return (PREAMBLE ++ START_MARKER
              ++ byteToBits (JS.length bytes)
              ++ flat_map byteToBits bytes
              ++ byteToBits (calculateChecksum bytes)).

(** The loop of [decode] that reads the data bytes: [n] iterations are
    left, [bitIndex] is the read position and [dataBytes] the bytes
    pushed so far.  [None] is the early [return null]. *)
Fixpoint readDataBytes (bits : list Z) (n : nat) (bitIndex : Z)
    (dataBytes : list Z) : option (list Z * Z) :=
  match n with
  | O => Some (dataBytes, bitIndex)
  | S n' =>
      let byteBits := JS.slice bits bitIndex (bitIndex + 8) in
      if JS.length byteBits <? 8 then None
      else readDataBytes bits n' (bitIndex + 8)
             (dataBytes ++ [bitsToNumber byteBits])
  end.

(** [decode]; [None] is [null]. *)
Definition decode (bits : list Z) : completion (option jsstring) :=
  let markerIndex := findStartMarker bits in
  if markerIndex =? -1 then Return None
  else
    let dataStart := markerIndex + 8 in
    let lengthBits := JS.slice bits dataStart (dataStart + 8) in
    if JS.length lengthBits <? 8 then Return None
    else
      let dataLength := bitsToNumber lengthBits in
      if (dataLength >? MAX_MESSAGE_BYTES) || (dataLength =? 0)
      then Return None
      else
        match readDataBytes bits (Z.to_nat dataLength) (dataStart + 8) [] with
        | None => Return None
        | Some (dataBytes, bitIndex) =>
            let checksumBits := JS.slice bits bitIndex (bitIndex + 8) in
            if JS.length checksumBits <? 8 then Return None
            else
              let receivedChecksum := bitsToNumber checksumBits in
              let calculatedChecksum :=
                calculateChecksum (JS.Uint8Array dataBytes) in
              if negb (receivedChecksum =? calculatedChecksum)
              then Return None
              else
                try_catch
                  (match Text.decode (JS.Uint8Array dataBytes) with
                   | Return text => Return (Some text)
                   | Throw e => Throw e
                   end)
                  (Return None)
        end.

(** [calculateBitCount] *)
Definition calculateBitCount (message : jsstring) : Z :=
  8 + 8 + 8 + JS.length (Text.encode message) * 8 + 8.

(** [getByteLength] *)
Definition getByteLength (message : jsstring) : Z :=
  JS.length (Text.encode message).

(** [canEncode] *)
Definition canEncode (message : jsstring) : bool :=
  getByteLength message <=? MAX_MESSAGE_BYTES.

(** Groups of eight bits, each read as a number; a last group of fewer
    than eight bits is dropped. *)
Fixpoint completeBytes (bits : list Z) : list Z :=
  match bits with
  | b0 :: b1 :: b2 :: b3 :: b4 :: b5 :: b6 :: b7 :: rest =>
      bitsToNumber [b0; b1; b2; b3; b4; b5; b6; b7] :: completeBytes rest
  | _ => []
  end.

(** The text of the longest prefix of [data], of at most [n] bytes, that
    the decoder accepts; the empty prefix always is. *)
Fixpoint interpretablePrefix (n : nat) (data : list Z) : jsstring :=
  match Text.decode (firstn n data) with
  | Return text => text
  | Throw _ =>
      match n with
      | O => []
      | S n' => interpretablePrefix n' data
      end
  end.

(** Modelled from the spec: [Protocol.decodePartial], which
    [BitReceiver.handleBitsState] and the colour channel call and whose
    body is not part of the sources at hand.  Section 4.1: "returns
    whatever prefix of the data bytes can be interpreted as UTF-8 even if
    the checksum/tail is not yet present"; "attempt decode of however many
    complete data bytes are currently available (ignoring checksum),
    trimming any trailing incomplete UTF-8 sequence; returns none if fewer
    than 32 bits are available or no valid marker/length can be located
    yet".  The callers read the field [text] of the result, which is what
    is returned here.  The marker and the length are located as [decode]
    locates them, and the bytes are decoded as [decode] decodes them. *)
Definition decodePartial (bits : list Z) : option jsstring :=
  if JS.length bits <? 32 then None
  else
    let markerIndex := findStartMarker bits in
    if markerIndex =? -1 then None
    else
      let dataStart := markerIndex + 8 in
      let lengthBits := JS.slice bits dataStart (dataStart + 8) in
      if JS.length lengthBits <? 8 then None
      else
        let dataLength := bitsToNumber lengthBits in
        if (dataLength >? MAX_MESSAGE_BYTES) || (dataLength =? 0) then None
        else
          let available :=
            Z.min dataLength ((JS.length bits - (dataStart + 8)) / 8) in
          match readDataBytes bits (Z.to_nat available) (dataStart + 8) [] with
          | None => None
          | Some (dataBytes, _) =>
              let data := JS.Uint8Array dataBytes in
              Some (interpretablePrefix (List.length data) data)
          end.

End Protocol.

(** ** [class GridProtocol] *)

Module GridProtocol.

Import Text.

(** A grid frame is a two-element array [[highByte, lowByte]]. *)
Definition frame : Type := (Z * Z)%type.

(** [calculateChecksum] *)
Definition calculateChecksum (bytes : list Z) : Z :=
  fold_left (fun checksum byte => JS.xor checksum byte) bytes 0.

(** "Pad to even length": [if (payload.length % 2 !== 0) payload.push(0)] *)
Definition pad (payload : list Z) : list Z :=
  if negb (JS.rem (JS.length payload) 2 =? 0) then payload ++ [0x00]
  else payload.

(** [for (i = 0; i < payload.length; i += 2)
      frames.push([payload[i], payload[i + 1]])].
    The payload has even length when the loop runs, so the loop ends
    exactly at the end of the list. *)
Fixpoint split (payload : list Z) : list frame :=
  match payload with
  | b0 :: b1 :: rest => (b0, b1) :: split rest
  | _ => []
  end.

(** [encode] *)
Definition encode (message : jsstring) : completion (list frame) :=
  let data := Text.encode message in
  if JS.length data >? MAX_MESSAGE_BYTES then Throw MessageTooLongError
  else
    let payload := [JS.length data] ++ data ++ [calculateChecksum data] in
    Return (split (pad payload)).

(** "Flatten frames to bytes" *)
Definition flatten (frames : list frame) : list Z :=
  flat_map (fun f => [fst f; snd f]) frames.

(** [decode]; [None] is [null]. *)
Definition decode (frames : list frame) : completion (option jsstring) :=
  match frames with
  | [] => Return None
  | first :: _ =>
      let bytes := flatten frames in
      (* bytes[0], the high byte of the first frame *)
      let dataLength := fst first in
      if (dataLength =? 0) || (dataLength >? MAX_MESSAGE_BYTES)
      then Return None
      else
        let minBytes := dataLength + 2 in
        let expectedBytes :=
          if JS.rem minBytes 2 =? 0 then minBytes else minBytes + 1 in
        if JS.length bytes <? expectedBytes then Return None
        else
          let data := JS.slice bytes 1 (1 + dataLength) in
          let receivedChecksum := nth_error bytes (Z.to_nat (1 + dataLength)) in
          let calculatedChecksum := calculateChecksum (JS.Uint8Array data) in
          match receivedChecksum with
          | None => Return None
          | Some received =>
              if negb (received =? calculatedChecksum) then Return None
              else
                try_catch
                  (match Text.decode (JS.Uint8Array data) with
                   | Return text => Return (Some text)
                   | Throw e => Throw e
                   end)
                  (Return None)
          end
  end.

(** [frameToCells] *)
Definition frameToCells (f : frame) : list Z :=
  let '(highByte, lowByte) := f in
  map (fun i => JS.and (JS.sar highByte i) 1) [7; 6; 5; 4; 3; 2; 1; 0]
    ++ map (fun i => JS.and (JS.sar lowByte i) 1) [7; 6; 5; 4; 3; 2; 1; 0].

(** [cells[i] ? 1 : 0]; a missing element is [undefined], which is falsy. *)
Definition cellBit (cells : list Z) (i : nat) : Z :=
  match nth_error cells i with
  | Some v => if v =? 0 then 0 else 1
  | None => 0
  end.

(** [cellsToFrame] *)
Definition cellsToFrame (cells : list Z) : frame :=
  let highByte :=
    fold_left (fun acc i => JS.or (JS.shl acc 1) (cellBit cells i))
      (seq 0 8) 0 in
  let lowByte :=
    fold_left (fun acc i => JS.or (JS.shl acc 1) (cellBit cells i))
      (seq 8 8) 0 in
  (highByte, lowByte).

End GridProtocol.

(** ** [src/types]: receiver states, statuses and callbacks *)

(** ['idle' | 'pilot' | 'gap' | 'bits'] *)
Inductive ReceiverState : Type := Idle | Pilot | Gap | Bits.

Inductive ReceiverStatus : Type :=
| status_idle
| status_pilot
| status_gap
| status_receiving (progress : Q) (partialText : option Text.jsstring)
| status_success
| status_error (message : string).

Inductive ErrorType : Type :=
| checksum
| timeout
| permission
| decode_error.

(** One call of a callback of [ReceiverCallbacks]. *)
Inductive callback : Type :=
| onStatusChange (status : ReceiverStatus)
| onMessage (message : Text.jsstring)
| onError (type : ErrorType) (message : string).

(** ** [class BitReceiver] *)

Module BitReceiver.

(** The private fields, and the calls made to the callbacks so far,
    oldest first. *)
Record t : Type := mk {
  state : ReceiverState;
  bits : list Z;
  gapStartTime : Q;
  lastBitTime : Q;
  running : bool;
  calls : list callback
}.

(** [BitReceiverConfig]; the two detectors are read by the methods
    that call them, as the value the call returns at that tick. *)
Record config : Type := mkConfig {
  bitMs : Q;
  guardMs : Q;
  gapMs : option Q
}.

(** A method: it updates the receiver or throws. *)
Definition method : Type := t -> completion t.

Definition andThen (m1 m2 : method) : method :=
  fun r => match m1 r with
           | Return r' => m2 r'
           | Throw e => Throw e
           end.

Notation "m1 ;; m2" := (andThen m1 m2) (at level 61, right associativity).

Definition skip : method := fun r => Return r.

Definition call (c : callback) : method :=
  fun r => Return (mk (state r) (bits r) (gapStartTime r) (lastBitTime r)
                      (running r) (calls r ++ [c])).

(** The constructor's initial field values. *)
Definition new : t := mk Idle [] 0 0 false [].

Section Methods.

Variable cfg : config.

(** [this.gapMs = config.gapMs ?? GAP_MS] *)
Definition the_gapMs : Q :=
  match gapMs cfg with Some g => g | None => GAP_MS end.

(** [this.bitInterval = config.bitMs + config.guardMs] *)
Definition bitInterval : Q := Qplus (bitMs cfg) (guardMs cfg).

Definition getState (r : t) : ReceiverState := state r.
Definition getBits (r : t) : list Z := bits r.
Definition isRunning (r : t) : bool := running r.

(** [reset] *)
Definition reset : method :=
  fun r => Return (mk Idle [] 0 0 (running r) (calls r)).

(** [notifyStatus] *)
Definition notifyStatus (status : ReceiverStatus) : method :=
  call (onStatusChange status).

(** [stop], without the cancellation of the animation frame. *)
Definition stop : method :=
  (fun r => Return (mk (state r) (bits r) (gapStartTime r) (lastBitTime r)
                       false (calls r)))
  ;; reset.

(** [handleIdleState] *)
Definition handleIdleState (detectPilot : bool) : method :=
  if detectPilot then
    (fun r => Return (mk Pilot (bits r) (gapStartTime r) (lastBitTime r)
                         (running r) (calls r)))
    ;; notifyStatus status_pilot
  else skip.

(** [handlePilotState] *)
Definition handlePilotState (now : Q) (detectPilot : bool) : method :=
  if negb detectPilot then
    (fun r => Return (mk Gap (bits r) now (lastBitTime r)
                         (running r) (calls r)))
    ;; notifyStatus status_gap
  else skip.

(** [handleGapState] *)
Definition handleGapState (now : Q) : method :=
  fun r =>
    let elapsed := Qminus now (gapStartTime r) in
    if Qle_bool (Qmult the_gapMs GAP_THRESHOLD_MULTIPLIER) elapsed then
      ((fun r => Return (mk Bits [] (gapStartTime r) now
                           (running r) (calls r)))
       ;; notifyStatus (status_receiving 0 None)) r
    else Return r.

(** [tryDecode] *)
Definition tryDecode : method :=
  fun r =>
    match Protocol.decode (bits r) with
    | Throw e => Throw e
    | Return (Some message) =>
        (notifyStatus status_success
         ;; call (onMessage message)
         ;; reset
         ;; notifyStatus status_idle) r
    | Return None => Return r
    end.

(** [handleTimeout] *)
Definition handleTimeout : method :=
  notifyStatus (status_error "timeout")
  ;; call (onError timeout
             "Receive timeout: too many bits without valid message")
  ;; reset
  ;; notifyStatus status_idle.

(** The constant [PARTIAL_DECODE_MIN_BITS] of the module. *)
Definition PARTIAL_DECODE_MIN_BITS : Z := 32.

(** [partial && partial.text]: a result with a non-empty text. *)
Definition partialTextOf (bs : list Z) : option Text.jsstring :=
  if PARTIAL_DECODE_MIN_BITS <=? JS.length bs then
    match Protocol.decodePartial bs with
    | Some (_ :: _ as text) => Some text
    | _ => None
    end
  else None.

(** [handleBitsState]; [detectBit] is what [this.config.detectBit()]
    returns if it is called. *)
Definition handleBitsState (now : Q) (detectBit : option Z) : method :=
  fun r =>
    let elapsed := Qminus now (lastBitTime r) in
    if Qle_bool bitInterval elapsed then
      match detectBit with
      | Some bit =>
          ((fun r => Return (mk (state r) (bits r ++ [bit])
                               (gapStartTime r) now (running r) (calls r)))
           ;; (fun r =>
                 let minBits := 24 + 8 in
                 let progress :=
                   Qmin 1 (Qmake (JS.length (bits r)) 1 / Qmake minBits 1) in
                 notifyStatus
                   (status_receiving progress (partialTextOf (bits r))) r)
           ;; (fun r => if 24 <=? JS.length (bits r) then tryDecode r
                        else Return r)
           ;; (fun r => if JS.length (bits r) >? MAX_BITS_TIMEOUT
                        then handleTimeout r else Return r)) r
      | None => Return r
      end
    else Return r.

(** [processFrame] at time [now = performance.now()]. *)
Definition processFrame (now : Q) (detectPilot : bool)
    (detectBit : option Z) : method :=
  fun r =>
    match state r with
    | Idle => handleIdleState detectPilot r
    | Pilot => handlePilotState now detectPilot r
    | Gap => handleGapState now r
    | Bits => handleBitsState now detectBit r
    end.

End Methods.

End BitReceiver.

(** ** [class ManualBitReceiver] *)

Module ManualBitReceiver.

Record t : Type := mk {
  state : ReceiverState;
  bits : list Z;
  calls : list callback
}.

Definition method : Type := t -> completion t.

Definition andThen (m1 m2 : method) : method :=
  fun r => match m1 r with
           | Return r' => m2 r'
           | Throw e => Throw e
           end.

Notation "m1 ;; m2" := (andThen m1 m2) (at level 61, right associativity).

Definition call (c : callback) : method :=
  fun r => Return (mk (state r) (bits r) (calls r ++ [c])).

Definition new : t := mk Idle [] [].

(** [setState] *)
Definition setState (s : ReceiverState) : method :=
  (fun r => Return (mk s (bits r) (calls r)))
  ;; call (onStatusChange
             match s with
             | Idle => status_idle
             | Pilot => status_pilot
             | Gap => status_gap
             | Bits => status_receiving 0 None
             end).

Definition getState (r : t) : ReceiverState := state r.
Definition getBits (r : t) : list Z := bits r.

(** [addBit] *)
Definition addBit (bit : Z) : method :=
  fun r => Return (mk (state r) (bits r ++ [bit]) (calls r)).

(** [clearBits] *)
Definition clearBits : method :=
  fun r => Return (mk (state r) [] (calls r)).

(** [processPilotDetected] *)
Definition processPilotDetected (detected : bool) : method :=
  fun r =>
    match state r, detected with
    | Idle, true =>
        ((fun r => Return (mk Pilot (bits r) (calls r)))
         ;; call (onStatusChange status_pilot)) r
    | Pilot, false =>
        ((fun r => Return (mk Gap (bits r) (calls r)))
         ;; call (onStatusChange status_gap)) r
    | _, _ => Return r
    end.

(** [startBitCollection] *)
Definition startBitCollection : method :=
  fun r =>
    match state r with
    | Gap =>
        ((fun r => Return (mk Bits [] (calls r)))
         ;; call (onStatusChange (status_receiving 0 None))) r
    | _ => Return r
    end.

(** [reset] *)
Definition reset : method :=
  (fun r => Return (mk Idle [] (calls r)))
  ;; call (onStatusChange status_idle).

(** [tryDecode] *)
Definition tryDecode : method :=
  fun r =>
    match Protocol.decode (bits r) with
    | Throw e => Throw e
    | Return (Some message) =>
        (call (onStatusChange status_success)
         ;; call (onMessage message)
         ;; reset) r
    | Return None =>
        (call (onStatusChange (status_error "decode failed"))
         ;; call (onError checksum "Checksum verification failed")) r
    end.

(** Feeding a list of bits with [addBit], one call per bit. *)
Definition addBits (bs : list Z) : method :=
  fold_right (fun b m => addBit b ;; m) (fun r => Return r) bs.

End ManualBitReceiver.

(** ** Vocabulary of the statements *)

(** A bit is 0 or 1, a byte is in 0..255. *)
Definition isBit (b : Z) : bool := (b =? 0) || (b =? 1).
Definition isByte (b : Z) : bool := (0 <=? b) && (b <=? 255).

(** The integers [0 .. n-1]. *)
Definition below (n : nat) : list Z := map Z.of_nat (seq 0 n).

(** [bits[bits.length - 1] ^= 1] *)
Fixpoint flipLast (bits : list Z) : list Z :=
  match bits with
  | [] => []
  | [b] => [JS.xor b 1]
  | b :: rest => b :: flipLast rest
  end.

(** The first code unit of the string is not U+FEFF. *)
Definition noLeadingBOM (m : Text.jsstring) : bool :=
  match m with
  | u :: _ => negb (u =? 0xFEFF)
  | [] => true
  end.

(** The frame layout with length field [n], data bytes [data] and checksum
    field [c]:
    [Preamble(8) | StartMarker(8) | Length(8) | Data(N x 8) | Checksum(8)]. *)
Definition frameBits (n : Z) (data : list Z) (c : Z) : list Z :=
  PREAMBLE ++ START_MARKER ++ Protocol.byteToBits n
    ++ flat_map Protocol.byteToBits data ++ Protocol.byteToBits c.

(** The last step of both decoders:
    [try { return decoder.decode(bytes) } catch { return null }]. *)
Definition textOrNull (bytes : list Z) : completion (option Text.jsstring) :=
  match Text.decode bytes with
  | Return text => Return (Some text)
  | Throw _ => Return None
  end.

(** The strings ["Test"], ["こんにちは"], one emoji (U+1F600) and
    ['a'.repeat(n)]. *)
Definition msg_Test : Text.jsstring := [84; 101; 115; 116].
Definition msg_konnichiwa : Text.jsstring :=
  [0x3053; 0x3093; 0x306B; 0x3061; 0x306F].
Definition msg_emoji : Text.jsstring := [0xD83D; 0xDE00].
Definition msg_a (n : nat) : Text.jsstring := repeat 97 n.

(** The first 49 bits of the frame of ["Aこんに"]: the data bytes at hand
    are [A] and two of the three bytes of [こ]. *)
Definition partial_bits : list Z :=
  firstn 49 (frameBits 10 (Text.encode [65; 0x3053; 0x3093; 0x306B]) 0).

(** The eight cells of one byte, most significant bit first. *)
Definition octetCells (byte : Z) : list Z :=
  map (fun i => JS.and (JS.sar byte i) 1) [7; 6; 5; 4; 3; 2; 1; 0].

(** Eight cells that are off. *)
Definition zeros8 : list Z := [0; 0; 0; 0; 0; 0; 0; 0].

(** [n] rounded up to the next even number. *)
Definition roundUpToEven (n : Z) : Z := 2 * ((n + 1) / 2).

(** [i % 2] for [i = 0 .. n-1]. *)
Definition alternating (n : nat) : list Z := map (fun i => i mod 2) (below n).

(** One bit per tick, each tick [step] after the one before: the
    detector returns the next bit of [bs] at every call. *)
Fixpoint feedBits (cfg : BitReceiver.config) (now step : Q) (bs : list Z)
    (r : BitReceiver.t) : completion BitReceiver.t :=
  match bs with
  | [] => Return r
  | b :: bs' =>
      match BitReceiver.processFrame cfg now false (Some b) r with
      | Return r' => feedBits cfg (Qred (now + step)) step bs' r'
      | Throw e => Throw e
      end
  end.

(** The ultrasonic channel's timing: 100 ms bits, 8 ms guard. *)
Definition ultrasonic : BitReceiver.config :=
  BitReceiver.mkConfig (100 # 1) (8 # 1) None.

(** The calls [handleTimeout] makes. *)
Definition timeout_calls : list callback :=
  [onStatusChange (status_error "timeout");
   onError timeout "Receive timeout: too many bits without valid message";
   onStatusChange status_idle].

(** The calls of [onError] among [cs]. *)
Definition errorsOf (cs : list callback) : list callback :=
  filter (fun c => match c with onError _ _ => true | _ => false end) cs.

(** The manual receiver driven as in the tests: pilot on, pilot off, start
    of the bit collection, the bits, one decode attempt. *)
Definition manualSession (bs : list Z) : ManualBitReceiver.method :=
  ManualBitReceiver.andThen (ManualBitReceiver.processPilotDetected true)
    (ManualBitReceiver.andThen (ManualBitReceiver.processPilotDetected false)
       (ManualBitReceiver.andThen ManualBitReceiver.startBitCollection
          (ManualBitReceiver.andThen (ManualBitReceiver.addBits bs)
             ManualBitReceiver.tryDecode))).

(** A receiver in the bits state that holds 2000 bits, none of them part
    of a marker. *)
Definition nearTimeout : BitReceiver.t :=
  BitReceiver.mk Bits (alternating 2000) 0 0 true [].

(** ** Further vocabulary *)

(** The frame of ["Test"]. *)
Definition frame_Test : list Z := frameBits 4 [84; 101; 115; 116] 0x36.

(** [bits[p] ^= 1] for an index [p] of the array. *)
Fixpoint flipAt (p : nat) (bits : list Z) : list Z :=
  match bits with
  | [] => []
  | b :: rest =>
      match p with
      | O => JS.xor b 1 :: rest
      | S p' => b :: flipAt p' rest
      end
  end.

(** A complete, checked frame starts at the marker at index [i] of [bits]
    and carries [text]: the length field [N] is in 1..200, the [N] data
    bytes and the checksum byte are all there, the checksum byte is the
    XOR of the data bytes, and the data bytes are the UTF-8 form of
    [text]. *)
Definition validFrameAt (bits : list Z) (i : Z) (text : Text.jsstring)
  : Prop :=
  let N := Protocol.bitsToNumber (JS.slice bits (i + 8) (i + 16)) in
  let data :=
    Protocol.completeBytes (JS.slice bits (i + 16) (i + 16 + 8 * N)) in
  let received :=
    Protocol.bitsToNumber
      (JS.slice bits (i + 16 + 8 * N) (i + 24 + 8 * N)) in
  1 <= N <= 200 /\
  i + 24 + 8 * N <= JS.length bits /\
  received = Protocol.calculateChecksum data /\
  Text.decode data = Return text.

(** The buffer holds a frame that has failed: the marker has been found at
    [i] and the length field read, the length is 0 or above
    [MAX_MESSAGE_BYTES] or all the bytes of the frame are there, and
    [Protocol.decode] returns [null]. *)
Definition deadFrame (bits : list Z) : bool :=
  let i := Protocol.findStartMarker bits in
  let N := Protocol.bitsToNumber (JS.slice bits (i + 8) (i + 16)) in
  (0 <=? i) && (i + 16 <=? JS.length bits)
  && ((N =? 0) || (N >? MAX_MESSAGE_BYTES)
      || (i + 24 + 8 * N <=? JS.length bits))
  && match Protocol.decode bits with
     | Return None => true
     | _ => false
     end.

(** A code unit of an ASCII character. *)
Definition isAscii (u : Z) : bool := (0 <=? u) && (u <=? 0x7F).

(** The frames [GridProtocol.encode] builds from a payload with length
    byte [n], data bytes [data] and checksum byte [c]. *)
Definition gridFrames (n : Z) (data : list Z) (c : Z)
  : list GridProtocol.frame :=
  GridProtocol.split (GridProtocol.pad ([n] ++ data ++ [c])).

(** ** The receivers' loops

    Times.  The receivers compare differences of [performance.now()]
    values with a threshold in double precision; here the times are
    rationals and the arithmetic is exact.  Rounding to a double is
    monotone, so a frame that is due here ([elapsed >= threshold]) is due
    in the source as well; for the gap, whose threshold is a product with
    [0.6], this holds when the gap time is not negative, the double [0.6]
    being below 6/10.  The converse fails: a frame that is
    early here by less than a rounding error is due in the source.  The
    statements about runs therefore assume only that frames are due,
    never that a frame comes too early.

    A run of the bit receiver is given as groups of frames: in each
    group the frames at which the detector has no bit, then the frame
    that is sampled. *)
Definition polls {A : Type} (groups : list (list A * A)) : list A :=
  flat_map (fun g => fst g ++ [snd g]) groups.

(** An [onStatusChange] call that reports the receiving state. *)
Definition isProgress (c : callback) : bool :=
  match c with
  | onStatusChange (status_receiving _ _) => true
  | _ => false
  end.

(** ** [BitReceiver]: the polling loop *)

Module BitReceiverRun.

Import BitReceiver.

(** What one animation frame brings: the time [performance.now()] and
    what the two detectors return if they are called. *)
Record tick : Type := mkTick {
  tick_now : Q;
  tick_pilot : bool;
  tick_bit : option Z
}.

(** [poll], up to the request for the next animation frame. *)
Definition poll (cfg : config) (k : tick) : method :=
  fun r =>
    if running r
    then processFrame cfg (tick_now k) (tick_pilot k) (tick_bit k) r
    else Return r.

(** [start]; its call of [poll] runs the first frame at once. *)
Definition start (cfg : config) (k : tick) : method :=
  fun r =>
    if running r then Return r
    else
      andThen
        (fun r => Return (mk (state r) (bits r) (gapStartTime r)
                            (lastBitTime r) true (calls r)))
        (andThen reset
           (andThen (notifyStatus status_idle) (poll cfg k))) r.

(** The frames of the loop, one after the other. *)
Fixpoint run (cfg : config) (ticks : list tick) : method :=
  match ticks with
  | [] => fun r => Return r
  | k :: rest => andThen (poll cfg k) (run cfg rest)
  end.

(** A frame at which [detectBit] returns [null]: the bits state lets it
    pass, whatever the time. *)
Definition silent (k : tick) : bool :=
  match tick_bit k with None => true | Some _ => false end.

(** [groups] samples the bits [bs]: each group is frames without a bit
    and then a frame that is due, [interval] or more after the last
    sample, and detects the next bit of [bs]. *)
Fixpoint sampled (interval last : Q) (groups : list (list tick * tick))
    (bs : list Z) : bool :=
  match groups, bs with
  | [], [] => true
  | (quiet, k) :: rest, b :: bs' =>
      forallb silent quiet
      && Qle_bool interval (Qminus (tick_now k) last)
      && match tick_bit k with Some b' => b' =? b | None => false end
      && sampled interval (tick_now k) rest bs'
  | _, _ => false
  end.

(** What holds between two frames: at most [MAX_BITS_TIMEOUT] bits are
    buffered, and none outside the bits state. *)
Definition bounded (r : t) : Prop :=
  JS.length (bits r) <= MAX_BITS_TIMEOUT /\ (state r <> Bits -> bits r = []).

End BitReceiverRun.

(** The times [first + step * i] for [i = 0 .. n-1], in milliseconds. *)
Definition everyMs (first step : Z) (n : nat) : list Q :=
  map (fun i => inject_Z (first + step * i)) (below n).

(** A loop that samples the bits [bs] at the times [first + step * i],
    with a frame in between at which the detector has no bit. *)
Definition silentThenSample (first step : Z) (bs : list Z)
  : list (list BitReceiverRun.tick * BitReceiverRun.tick) :=
  map (fun tb => ([BitReceiverRun.mkTick
                     (Qminus (fst tb) (inject_Z (step / 2))) false None],
                  BitReceiverRun.mkTick (fst tb) false (Some (snd tb))))
    (combine (everyMs first step (List.length bs)) bs).

(** The frame of ["A"], and a receiver that has been started. *)
Definition frame_A : list Z := frameBits 1 [65] 65.
Definition started : BitReceiver.t := BitReceiver.mk Idle [] 0 0 true [].

(** ** The grid channel

    [GRID_FRAME_MS], [GRID_GAP_MS], [GRID_ROWS] and [GRID_COLS] of
    [src/constants/index.ts]. *)
Definition GRID_FRAME_MS : Q := 400 # 1.
Definition GRID_GAP_MS : Q := 400 # 1.
Definition GRID_ROWS : Z := 4.
Definition GRID_COLS : Z := 4.

(** The values of [i] in [for (let i = 0; i < n; i++)]. *)
Definition upTo (n : Z) : list Z := map Z.of_nat (seq 0 (Z.to_nat n)).

(** [createCheckerboardPattern], [createAllWhitePattern] and
    [createAllBlackPattern] *)
Definition createCheckerboardPattern : list Z :=
  flat_map
    (fun row => map (fun col => JS.rem (row + col) 2) (upTo GRID_COLS))
    (upTo GRID_ROWS).

Definition createAllWhitePattern : list Z :=
  repeat 1 (Z.to_nat (GRID_ROWS * GRID_COLS)).

Definition createAllBlackPattern : list Z :=
  repeat 0 (Z.to_nat (GRID_ROWS * GRID_COLS)).

(** [class GridAnalyzer]: the method that reads no image. *)
Module GridAnalyzer.

(** The cells that agree with the checkerboard; a missing cell is
    [undefined] and agrees with nothing. *)
Definition matchCount (bits : list Z) : Z :=
  fold_left
    (fun matchCount row =>
       fold_left
         (fun matchCount col =>
            let index := row * GRID_COLS + col in
            let expected := JS.rem (row + col) 2 in
            match nth_error bits (Z.to_nat index) with
            | Some v => if v =? expected then matchCount + 1 else matchCount
            | None => matchCount
            end)
         (upTo GRID_COLS) matchCount)
    (upTo GRID_ROWS) 0.

(** [isCheckerboard]: [matchCount / (GRID_ROWS * GRID_COLS) >= 0.75] *)
Definition isCheckerboard (bits : list Z) : bool :=
  Qle_bool (75 # 100)
    (Qdiv (inject_Z (matchCount bits)) (inject_Z (GRID_ROWS * GRID_COLS))).

End GridAnalyzer.

(** [class GridChannel]: sending as the patterns drawn, receiving as
    the state machine run on what the analyzer reads from each camera
    frame. *)
Module GridChannel.

(** The receiver's fields, whether [setCallbacks] has been called, and
    the calls made to the callbacks so far, oldest first. *)
Record t : Type := mk {
  state : ReceiverState;
  frames : list GridProtocol.frame;
  gapStartTime : Q;
  lastFrameTime : Q;
  isReceiving : bool;
  callbacks : bool;
  calls : list callback
}.

Definition method : Type := t -> completion t.

Definition andThen (m1 m2 : method) : method :=
  fun r => match m1 r with
           | Return r' => m2 r'
           | Throw e => Throw e
           end.

Notation "m1 ;; m2" := (andThen m1 m2) (at level 61, right associativity).

Definition skip : method := fun r => Return r.

(** [if (this.callbacks) this.callbacks.<c>] *)
Definition notify (c : callback) : method :=
  fun r =>
    if callbacks r then
      Return (mk (state r) (frames r) (gapStartTime r) (lastFrameTime r)
                (isReceiving r) (callbacks r) (calls r ++ [c]))
    else Return r.

Definition notifyStatus (status : ReceiverStatus) : method :=
  notify (onStatusChange status).

Definition notifyMessage (message : Text.jsstring) : method :=
  notify (onMessage message).

Definition notifyError (type : ErrorType) (message : string) : method :=
  notify (onError type message).

(** [setCallbacks] *)
Definition setCallbacks : method :=
  fun r => Return (mk (state r) (frames r) (gapStartTime r) (lastFrameTime r)
                      (isReceiving r) true (calls r)).

(** The field initialisers. *)
Definition new : t := mk Idle [] 0 0 false false [].

(** The patterns that an uncancelled [send] draws, in order. *)
Definition send (message : Text.jsstring) : completion (list (list Z)) :=
  match GridProtocol.encode message with
  | Throw e => Throw e
  | Return frames =>
      Return ([createAllWhitePattern; createAllBlackPattern]
                ++ map GridProtocol.frameToCells frames
                ++ [createCheckerboardPattern])
  end.

(** [resetState] *)
Definition resetState : method :=
  (fun r => Return (mk Idle [] (gapStartTime r) (lastFrameTime r)
                       (isReceiving r) (callbacks r) (calls r)))
  ;; notifyStatus status_idle.

(** [handleIdleState]; [allWhite] is what [isAllWhite(imageData)]
    returns. *)
Definition handleIdleState (allWhite : bool) : method :=
  if allWhite then
    (fun r => Return (mk Pilot (frames r) (gapStartTime r) (lastFrameTime r)
                         (isReceiving r) (callbacks r) (calls r)))
    ;; notifyStatus status_pilot
  else skip.

(** [handlePilotState] *)
Definition handlePilotState (allWhite : bool) (now : Q) : method :=
  if negb allWhite then
    (fun r => Return (mk Gap (frames r) now (lastFrameTime r)
                         (isReceiving r) (callbacks r) (calls r)))
    ;; notifyStatus status_gap
  else skip.

(** [handleGapState] *)
Definition handleGapState (now : Q) : method :=
  fun r =>
    let elapsed := Qminus now (gapStartTime r) in
    if Qle_bool (Qmult GRID_GAP_MS GAP_THRESHOLD_MULTIPLIER) elapsed then
      ((fun r => Return (mk Bits [] (gapStartTime r) now
                           (isReceiving r) (callbacks r) (calls r)))
       ;; notifyStatus (status_receiving 0 None)) r
    else Return r.

(** [tryDecode] *)
Definition tryDecode : method :=
  fun r =>
    match GridProtocol.decode (frames r) with
    | Throw e => Throw e
    | Return (Some message) =>
        (notifyStatus status_success
         ;; notifyMessage message
         ;; resetState) r
    | Return None =>
        (notifyStatus (status_error "decode failed")
         ;; notifyError checksum "Checksum verification failed"
         ;; resetState) r
    end.

(** [handleBitsState]; [bits] is what [analyzeGrid(imageData)]
    returns. *)
Definition handleBitsState (bits : list Z) (now : Q) : method :=
  fun r =>
    let elapsed := Qminus now (lastFrameTime r) in
    if Qle_bool GRID_FRAME_MS elapsed then
      if GridAnalyzer.isCheckerboard bits then tryDecode r
      else
        ((fun r =>
            let frame := GridProtocol.cellsToFrame bits in
            Return (mk (state r) (frames r ++ [frame]) (gapStartTime r) now
                      (isReceiving r) (callbacks r) (calls r)))
         ;; (fun r =>
               let progress :=
                 Qmin 1 (Qdiv (inject_Z (JS.length (frames r))) (10 # 1)) in
               notifyStatus (status_receiving progress None) r)
         ;; (fun r =>
               if JS.length (frames r) >? 200 then
                 (notifyStatus (status_error "too many frames")
                  ;; notifyError timeout "Too many frames received"
                  ;; resetState) r
               else Return r)) r
    else Return r.

(** What the analyzers read from one camera frame, and the time. *)
Record view : Type := mkView {
  view_now : Q;
  view_allWhite : bool;
  view_bits : list Z
}.

(** [processFrame], while both analyzers are set: [startReceive] sets
    them before the loop starts, [stopReceive] ends the loop. *)
Definition processFrame (v : view) : method :=
  fun r =>
    match state r with
    | Idle => handleIdleState (view_allWhite v) r
    | Pilot => handlePilotState (view_allWhite v) (view_now v) r
    | Gap => handleGapState (view_now v) r
    | Bits => handleBitsState (view_bits v) (view_now v) r
    end.

(** [poll] of [startPolling], up to the request for the next animation
    frame. *)
Definition poll (v : view) : method :=
  fun r => if isReceiving r then processFrame v r else Return r.

(** [startReceive] once the camera has started; [startPolling] runs the
    first frame at once. *)
Definition startReceive (v : view) : method :=
  fun r =>
    if isReceiving r then Return r
    else
      ((fun r => Return (mk Idle [] (gapStartTime r) (lastFrameTime r)
                           true (callbacks r) (calls r)))
       ;; notifyStatus status_idle
       ;; poll v) r.

(** [stopReceive] *)
Definition stopReceive : method :=
  fun r => Return (mk Idle [] (gapStartTime r) (lastFrameTime r)
                      false (callbacks r) (calls r)).

(** The frames of the loop, one after the other. *)
Fixpoint run (views : list view) : method :=
  match views with
  | [] => fun r => Return r
  | v :: rest => poll v ;; run rest
  end.

(** Every frame of [views] is due: it comes [GRID_FRAME_MS] or more
    after the one before, the first one after [last]. *)
Fixpoint allDue (last : Q) (views : list view) : bool :=
  match views with
  | [] => true
  | v :: rest =>
      Qle_bool GRID_FRAME_MS (Qminus (view_now v) last)
      && allDue (view_now v) rest
  end.

(** What holds between two camera frames: at most 200 frames are
    stored, and none outside the bits state. *)
Definition bounded (r : t) : Prop :=
  JS.length (frames r) <= 200 /\ (state r <> Bits -> frames r = []).

End GridChannel.

(** The number of positions at which two patterns differ. *)
Definition differences (a b : list Z) : Z :=
  fold_right Z.add 0
    (map (fun p => if fst p =? snd p then 0 else 1) (combine a b)).

(** Whether cell [row * GRID_COLS + col] of [bits] is the checkerboard's,
    as 1 or 0. *)
Definition agree (bits : list Z) (row col : Z) : Z :=
  match nth_error bits (Z.to_nat (row * GRID_COLS + col)) with
  | Some v => if v =? JS.rem (row + col) 2 then 1 else 0
  | None => 0
  end.

(** A grid receiver between two sessions, with callbacks set. *)
Definition watching : GridChannel.t :=
  GridChannel.mk Idle [] 0 0 true true [].

(** The camera frames that read the patterns [shown] at the times
    [first + step * i]. *)
Definition viewsEvery (first step : Z) (shown : list (list Z))
  : list GridChannel.view :=
  map (fun tb => GridChannel.mkView (fst tb) false (snd tb))
    (combine (everyMs first step (List.length shown)) shown).

(** The string ["aYS"]: its second frame holds the bytes of ["YS"]. *)
Definition msg_aYS : Text.jsstring := [97; 89; 83].

(** The frame of ["A"] received with one data bit flipped, and a receiver
    that has collected it. *)
Definition frame_A_damaged : list Z := flipAt 30 frame_A.
Definition afterDamage : BitReceiver.t :=
  BitReceiver.mk Bits frame_A_damaged 0 0 true [].

(** ** Tactics *)

Ltac dlia := Z.to_euclidean_division_equations; lia.

Ltac ztests :=
  repeat match goal with
  | |- context [?a <=? ?b] =>
      first [ rewrite (proj2 (Z.leb_le a b)) by lia
            | rewrite (proj2 (Z.leb_gt a b)) by lia ]
  | |- context [?a =? ?b] =>
      first [ rewrite (proj2 (Z.eqb_eq a b)) by lia
            | rewrite (proj2 (Z.eqb_neq a b)) by lia ]
  end.

(** ** Integer facts *)

Lemma forallb_below (P : Z -> bool) (n : nat) :
  forallb P (below n) = true ->
  forall z, 0 <= z < Z.of_nat n -> P z = true.
Proof.
  intros H z Hz. rewrite forallb_forall in H. apply H.
  unfold below. apply in_map_iff. exists (Z.to_nat z). split; [lia|].
  apply in_seq. lia.
Qed.

Lemma isByte_range b : isByte b = true <-> 0 <= b < 256.
Proof. unfold isByte. rewrite andb_true_iff, !Z.leb_le. lia. Qed.

Lemma isBit_cases b : isBit b = true <-> b = 0 \/ b = 1.
Proof. unfold isBit. rewrite orb_true_iff, !Z.eqb_eq. tauto. Qed.

Lemma lor_0x80 y : 0 <= y < 64 -> Z.lor 0x80 y = 0x80 + y.
Proof.
  intros H. apply Z.eqb_eq.
  apply (forallb_below (fun y => Z.lor 0x80 y =? 0x80 + y) 64);
    [vm_compute; reflexivity | lia].
Qed.

Lemma lor_0xC0 y : 0 <= y < 32 -> Z.lor 0xC0 y = 0xC0 + y.
Proof.
  intros H. apply Z.eqb_eq.
  apply (forallb_below (fun y => Z.lor 0xC0 y =? 0xC0 + y) 32);
    [vm_compute; reflexivity | lia].
Qed.

Lemma lor_0xE0 y : 0 <= y < 16 -> Z.lor 0xE0 y = 0xE0 + y.
Proof.
  intros H. apply Z.eqb_eq.
  apply (forallb_below (fun y => Z.lor 0xE0 y =? 0xE0 + y) 16);
    [vm_compute; reflexivity | lia].
Qed.

Lemma lor_0xF0 y : 0 <= y < 8 -> Z.lor 0xF0 y = 0xF0 + y.
Proof.
  intros H. apply Z.eqb_eq.
  apply (forallb_below (fun y => Z.lor 0xF0 y =? 0xF0 + y) 8);
    [vm_compute; reflexivity | lia].
Qed.

Lemma land_low n a : 0 <= n -> Z.land a (2 ^ n - 1) = a mod 2 ^ n.
Proof.
  intros Hn. rewrite <- Z.land_ones by assumption.
  f_equal. rewrite Z.ones_equiv. lia.
Qed.

Lemma land_shiftl6_low x y : 0 <= y < 64 -> Z.land (Z.shiftl x 6) y = 0.
Proof.
  intros Hy. apply Z.bits_inj'. intros n Hn.
  rewrite Z.land_spec, Z.bits_0.
  destruct (Z.ltb_spec n 6) as [Hlt|Hge].
  - rewrite Z.shiftl_spec_low by lia. reflexivity.
  - replace (Z.testbit y n) with false; [apply andb_false_r|].
    symmetry. destruct (Z.eq_dec y 0) as [->|Hy0]; [apply Z.bits_0|].
    apply Z.bits_above_log2; [lia|].
    apply Z.lt_le_trans with 6; [|lia].
    apply Z.log2_lt_pow2; lia.
Qed.

Lemma lor_shiftl6 x y :
  0 <= y < 64 -> Z.lor (Z.shiftl x 6) y = x * 64 + y.
Proof.
  intros Hy.
  rewrite <- Z.lxor_lor by (apply land_shiftl6_low; assumption).
  rewrite <- Z.add_nocarry_lxor by (apply land_shiftl6_low; assumption).
  rewrite Z.shiftl_mul_pow2 by lia. reflexivity.
Qed.

(** ** The platform's UTF-8 codec *)

Module TextFacts.

Import Text.

Lemma isScalarValue_range c :
  isScalarValue c = true <->
  0 <= c <= 0x10FFFF /\ ~ (0xD800 <= c <= 0xDFFF).
Proof.
  unfold isScalarValue, isSurrogate.
  rewrite !andb_true_iff, negb_true_iff, andb_false_iff, !Z.leb_le, !Z.leb_gt.
  lia.
Qed.

Section DecoderSteps.
Variables (s : bool) (rest : list Z).

Lemma utf8Decode_ascii b :
  0 <= b <= 0x7F ->
  utf8Decode s utf8_init (b :: rest)
  = option_map (cons b) (utf8Decode s utf8_init rest).
Proof.
  intros H. cbn [utf8Decode utf8_init bytes_needed]. unfold inRange.
  ztests. reflexivity.
Qed.

Lemma utf8Decode_lead2 b :
  0xC2 <= b <= 0xDF ->
  utf8Decode s utf8_init (b :: rest)
  = utf8Decode s (mkState (b mod 32) 0 1 0x80 0xBF) rest.
Proof.
  intros H. cbn [utf8Decode utf8_init bytes_needed]. unfold inRange.
  ztests. cbn [andb]. change 0x1F with (2 ^ 5 - 1).
  rewrite land_low by lia. reflexivity.
Qed.

Lemma utf8Decode_lead3 b :
  0xE0 <= b <= 0xEF ->
  utf8Decode s utf8_init (b :: rest)
  = utf8Decode s
      (mkState (b mod 16) 0 2
         (if b =? 0xE0 then 0xA0 else 0x80)
         (if b =? 0xED then 0x9F else 0xBF)) rest.
Proof.
  intros H. cbn [utf8Decode utf8_init bytes_needed]. unfold inRange.
  change 0xF with (2 ^ 4 - 1). rewrite land_low by lia.
  rewrite (proj2 (Z.leb_gt b 0x7F)), (proj2 (Z.leb_gt b 0xDF)),
    (proj2 (Z.leb_le 0xE0 b)), (proj2 (Z.leb_le b 0xEF)) by lia.
  rewrite !andb_false_r. reflexivity.
Qed.

Lemma utf8Decode_lead4 b :
  0xF0 <= b <= 0xF4 ->
  utf8Decode s utf8_init (b :: rest)
  = utf8Decode s
      (mkState (b mod 8) 0 3
         (if b =? 0xF0 then 0x90 else 0x80)
         (if b =? 0xF4 then 0x8F else 0xBF)) rest.
Proof.
  intros H. cbn [utf8Decode utf8_init bytes_needed]. unfold inRange.
  change 0x7 with (2 ^ 3 - 1). rewrite land_low by lia.
  rewrite (proj2 (Z.leb_gt b 0x7F)), (proj2 (Z.leb_gt b 0xDF)),
    (proj2 (Z.leb_gt b 0xEF)),
    (proj2 (Z.leb_le 0xF0 b)), (proj2 (Z.leb_le b 0xF4)) by lia.
  rewrite !andb_false_r. reflexivity.
Qed.

Lemma utf8Decode_continue cp seen needed lo hi b :
  needed <> 0 -> lo <= b <= hi -> seen + 1 <> needed ->
  utf8Decode s (mkState cp seen needed lo hi) (b :: rest)
  = utf8Decode s (mkState (cp * 64 + b mod 64) (seen + 1) needed 0x80 0xBF)
      rest.
Proof.
  intros Hn Hb Hs.
  cbn [utf8Decode bytes_needed bytes_seen code_point lower_boundary
         upper_boundary].
  unfold inRange. change 0x3F with (2 ^ 6 - 1). rewrite land_low by lia.
  rewrite lor_shiftl6 by (apply Z.mod_pos_bound; lia).
  rewrite (proj2 (Z.eqb_neq needed 0)), (proj2 (Z.leb_le lo b)),
    (proj2 (Z.leb_le b hi)), (proj2 (Z.eqb_neq (seen + 1) needed)) by lia.
  reflexivity.
Qed.

Lemma utf8Decode_complete cp seen needed lo hi b :
  needed <> 0 -> lo <= b <= hi -> seen + 1 = needed ->
  utf8Decode s (mkState cp seen needed lo hi) (b :: rest)
  = option_map (cons (cp * 64 + b mod 64)) (utf8Decode s utf8_init rest).
Proof.
  intros Hn Hb Hs.
  cbn [utf8Decode bytes_needed bytes_seen code_point lower_boundary
         upper_boundary].
  unfold inRange. change 0x3F with (2 ^ 6 - 1). rewrite land_low by lia.
  rewrite lor_shiftl6 by (apply Z.mod_pos_bound; lia).
  rewrite (proj2 (Z.eqb_neq needed 0)), (proj2 (Z.leb_le lo b)),
    (proj2 (Z.leb_le b hi)), (proj2 (Z.eqb_eq (seen + 1) needed)) by lia.
  reflexivity.
Qed.

End DecoderSteps.

Lemma utf8EncodeCodePoint_arith c :
  0 <= c ->
  utf8EncodeCodePoint c =
    if c <=? 0x7F then [c]
    else if c <=? 0x7FF then [0xC0 + c / 64; 0x80 + c mod 64]
    else if c <=? 0xFFFF then
      [0xE0 + c / 4096; 0x80 + (c / 64) mod 64; 0x80 + c mod 64]
    else if c <=? 0x1FFFFF then
      [0xF0 + c / 262144; 0x80 + (c / 4096) mod 64;
       0x80 + (c / 64) mod 64; 0x80 + c mod 64]
    else utf8EncodeCodePoint c.
Proof.
  intros Hc. unfold utf8EncodeCodePoint.
  change 0x3F with (2 ^ 6 - 1).
  rewrite !land_low by lia. rewrite !Z.shiftr_div_pow2 by lia.
  change (2 ^ 6) with 64. change (2 ^ 12) with 4096.
  change (2 ^ 18) with 262144.
  destruct (Z.leb_spec c 0x7F); [reflexivity|].
  destruct (Z.leb_spec c 0x7FF).
  { rewrite lor_0xC0, lor_0x80 by dlia. reflexivity. }
  destruct (Z.leb_spec c 0xFFFF).
  { rewrite lor_0xE0, !lor_0x80 by dlia. reflexivity. }
  destruct (Z.leb_spec c 0x1FFFFF); [|reflexivity].
  rewrite lor_0xF0, !lor_0x80 by dlia. reflexivity.
Qed.

Lemma utf8Decode_encode1 s c rest :
  isScalarValue c = true ->
  utf8Decode s utf8_init (utf8EncodeCodePoint c ++ rest)
  = option_map (cons c) (utf8Decode s utf8_init rest).
Proof.
  intros Hc. apply isScalarValue_range in Hc. destruct Hc as [Hr Hs].
  rewrite utf8EncodeCodePoint_arith by lia.
  destruct (Z.leb_spec c 0x7F); [|destruct (Z.leb_spec c 0x7FF); [|destruct (Z.leb_spec c 0xFFFF)]].
  - apply utf8Decode_ascii. lia.
  - cbn [app]. rewrite utf8Decode_lead2 by dlia.
    rewrite utf8Decode_complete by dlia.
    do 2 f_equal. dlia.
  - cbn [app]. rewrite utf8Decode_lead3 by dlia.
    rewrite utf8Decode_continue;
      [| lia
       | destruct (Z.eqb_spec (0xE0 + c / 4096) 0xE0);
         destruct (Z.eqb_spec (0xE0 + c / 4096) 0xED); dlia
       | lia].
    rewrite utf8Decode_complete by dlia.
    do 2 f_equal. dlia.
  - rewrite (proj2 (Z.leb_le c 0x1FFFFF)) by lia.
    cbn [app]. rewrite utf8Decode_lead4 by dlia.
    rewrite utf8Decode_continue;
      [| lia
       | destruct (Z.eqb_spec (0xF0 + c / 262144) 0xF0);
         destruct (Z.eqb_spec (0xF0 + c / 262144) 0xF4); dlia
       | lia].
    rewrite utf8Decode_continue by dlia.
    rewrite utf8Decode_complete by dlia.
    do 2 f_equal. dlia.
Qed.

Lemma utf8Decode_encode s cps rest :
  forallb isScalarValue cps = true ->
  utf8Decode s utf8_init (flat_map utf8EncodeCodePoint cps ++ rest)
  = option_map (app cps) (utf8Decode s utf8_init rest).
Proof.
  induction cps as [|c cps IH]; intros H.
  - cbn. destruct (utf8Decode s utf8_init rest); reflexivity.
  - cbn [forallb] in H. apply andb_true_iff in H. destruct H as [Hc Hcps].
    cbn [flat_map]. rewrite <- app_assoc, utf8Decode_encode1, IH by assumption.
    destruct (utf8Decode s utf8_init rest); reflexivity.
Qed.

Lemma utf8EncodeCodePoint_bytes c :
  isScalarValue c = true -> forallb isByte (utf8EncodeCodePoint c) = true.
Proof.
  intros Hc. apply isScalarValue_range in Hc. destruct Hc as [Hr Hs].
  rewrite utf8EncodeCodePoint_arith by lia.
  assert (B : forall b, 0 <= b < 256 -> isByte b = true)
    by (intros; apply isByte_range; assumption).
  destruct (Z.leb_spec c 0x7F);
    [|destruct (Z.leb_spec c 0x7FF); [|destruct (Z.leb_spec c 0xFFFF)]].
  - cbn. rewrite B by lia. reflexivity.
  - cbn [forallb]. rewrite !B by dlia. reflexivity.
  - cbn [forallb]. rewrite !B by dlia. reflexivity.
  - rewrite (proj2 (Z.leb_le c 0x1FFFFF)) by lia.
    cbn [forallb]. rewrite !B by dlia. reflexivity.
Qed.

Lemma list_pair_ind {A} (P : list A -> Prop) :
  P [] -> (forall a, P [a]) ->
  (forall a b l, P l -> P (b :: l) -> P (a :: b :: l)) ->
  forall l, P l.
Proof.
  intros H0 H1 H2 l.
  enough (P l /\ forall a, P (a :: l)) by tauto.
  induction l as [|b l [IHl IHbl]]; split; auto.
Qed.

Lemma surrogate_tests u :
  (isHighSurrogate u = true <-> 0xD800 <= u <= 0xDBFF) /\
  (isLowSurrogate u = true <-> 0xDC00 <= u <= 0xDFFF) /\
  (isCodeUnit u = true <-> 0 <= u <= 0xFFFF).
Proof.
  unfold isHighSurrogate, isLowSurrogate, isCodeUnit.
  rewrite !andb_true_iff, !Z.leb_le. tauto.
Qed.

Ltac surrogates :=
  repeat match goal with
  | H : isHighSurrogate ?u = true |- _ =>
      apply (proj1 (surrogate_tests u)) in H
  | H : isLowSurrogate ?u = true |- _ =>
      apply (proj1 (proj2 (surrogate_tests u))) in H
  | H : isCodeUnit ?u = true |- _ =>
      apply (proj2 (proj2 (surrogate_tests u))) in H
  | H : isHighSurrogate ?u = false |- _ =>
      unfold isHighSurrogate in H; apply andb_false_iff in H;
      rewrite !Z.leb_gt in H
  | H : isLowSurrogate ?u = false |- _ =>
      unfold isLowSurrogate in H; apply andb_false_iff in H;
      rewrite !Z.leb_gt in H
  end.

Lemma pair_isScalarValue h l :
  0xD800 <= h <= 0xDBFF -> 0xDC00 <= l <= 0xDFFF ->
  isScalarValue (0x10000 + Z.shiftl (h - 0xD800) 10 + (l - 0xDC00)) = true.
Proof.
  intros Hh Hl. rewrite Z.shiftl_mul_pow2 by lia. change (2 ^ 10) with 1024.
  apply isScalarValue_range. lia.
Qed.

Lemma toScalarValues_cons2 u l m :
  toScalarValues (u :: l :: m) =
    if isHighSurrogate u then
      if isLowSurrogate l
      then (0x10000 + Z.shiftl (u - 0xD800) 10 + (l - 0xDC00))
             :: toScalarValues m
      else 0xFFFD :: toScalarValues (l :: m)
    else if isLowSurrogate u then 0xFFFD :: toScalarValues (l :: m)
    else u :: toScalarValues (l :: m).
Proof. reflexivity. Qed.

Lemma toScalarValues_scalar m :
  isString m = true -> forallb isScalarValue (toScalarValues m) = true.
Proof.
  assert (F : isScalarValue 0xFFFD = true) by reflexivity.
  induction m as [| u | u l m IHm IHlm] using list_pair_ind; intros Hm.
  - reflexivity.
  - cbn in Hm. rewrite andb_true_r in Hm. cbn [toScalarValues].
    destruct (isHighSurrogate u) eqn:Hh; [reflexivity|].
    destruct (isLowSurrogate u) eqn:Hl; [reflexivity|].
    cbn. rewrite andb_true_r. surrogates. apply isScalarValue_range. lia.
  - assert (Hu : isCodeUnit u = true)
      by (cbn in Hm; apply andb_true_iff in Hm; tauto).
    assert (Hlm : isString (l :: m) = true)
      by (cbn in Hm; apply andb_true_iff in Hm; tauto).
    assert (Hm' : isString m = true)
      by (cbn in Hlm; apply andb_true_iff in Hlm; tauto).
    specialize (IHm Hm'). specialize (IHlm Hlm).
    rewrite toScalarValues_cons2.
    destruct (isHighSurrogate u) eqn:Hh.
    + destruct (isLowSurrogate l) eqn:Hl.
      * cbn [forallb]. rewrite IHm, andb_true_r. surrogates.
        apply pair_isScalarValue; assumption.
      * cbn [forallb]. rewrite F. exact IHlm.
    + destruct (isLowSurrogate u) eqn:Hl.
      * cbn [forallb]. rewrite F. exact IHlm.
      * cbn [forallb]. rewrite IHlm, andb_true_r. surrogates.
        apply isScalarValue_range. lia.
Qed.

Lemma codePointToUnits_pair h l :
  0xD800 <= h <= 0xDBFF -> 0xDC00 <= l <= 0xDFFF ->
  codePointToUnits (0x10000 + Z.shiftl (h - 0xD800) 10 + (l - 0xDC00))
  = [h; l].
Proof.
  intros Hh Hl. unfold codePointToUnits.
  rewrite Z.shiftl_mul_pow2 by lia. change (2 ^ 10) with 1024.
  rewrite (proj2 (Z.leb_gt _ _)) by lia.
  change 0x3FF with (2 ^ 10 - 1). rewrite land_low by lia.
  rewrite Z.shiftr_div_pow2 by lia. change (2 ^ 10) with 1024.
  f_equal; [dlia | f_equal; dlia].
Qed.

Lemma fromScalarValues_toScalarValues m :
  isString m = true -> isWellFormed m = true ->
  flat_map codePointToUnits (toScalarValues m) = m.
Proof.
  induction m as [| u | u l m IHm IHlm] using list_pair_ind; intros Hm Hw.
  - reflexivity.
  - cbn in Hm. rewrite andb_true_r in Hm. cbn in Hw. cbn [toScalarValues].
    destruct (isHighSurrogate u) eqn:Hh; [discriminate|].
    destruct (isLowSurrogate u) eqn:Hl; [discriminate|].
    cbn [flat_map]. unfold codePointToUnits. surrogates.
    rewrite (proj2 (Z.leb_le _ _)) by lia. reflexivity.
  - assert (Hu : isCodeUnit u = true)
      by (cbn in Hm; apply andb_true_iff in Hm; tauto).
    assert (Hlm : isString (l :: m) = true)
      by (cbn in Hm; apply andb_true_iff in Hm; tauto).
    assert (Hm' : isString m = true)
      by (cbn in Hlm; apply andb_true_iff in Hlm; tauto).
    cbn [isWellFormed] in Hw. rewrite toScalarValues_cons2.
    destruct (isHighSurrogate u) eqn:Hh.
    + apply andb_true_iff in Hw. destruct Hw as [Hl Hw].
      rewrite Hl. cbn [flat_map]. rewrite IHm by assumption.
      surrogates. rewrite codePointToUnits_pair by assumption. reflexivity.
    + apply andb_true_iff in Hw. destruct Hw as [Hl Hw].
      apply negb_true_iff in Hl. rewrite Hl.
      cbn [flat_map]. rewrite IHlm by assumption.
      unfold codePointToUnits. surrogates.
      rewrite (proj2 (Z.leb_le _ _)) by lia. reflexivity.
Qed.

Lemma stripBOM_toScalarValues m :
  noLeadingBOM m = true -> stripBOM (toScalarValues m) = toScalarValues m.
Proof.
  destruct m as [|u m]; [reflexivity|]. cbn [noLeadingBOM]. intros Hu.
  apply negb_true_iff in Hu. apply Z.eqb_neq in Hu.
  cbn [toScalarValues].
  destruct (isHighSurrogate u) eqn:Hh.
  - destruct m as [|l m]; [reflexivity|].
    destruct (isLowSurrogate l) eqn:Hl; [|reflexivity].
    surrogates. unfold stripBOM.
    rewrite Z.shiftl_mul_pow2 by lia. change (2 ^ 10) with 1024.
    rewrite (proj2 (Z.eqb_neq _ _)) by lia. reflexivity.
  - destruct (isLowSurrogate u) eqn:Hl; [reflexivity|].
    unfold stripBOM. rewrite (proj2 (Z.eqb_neq _ _)) by lia. reflexivity.
Qed.

Lemma encode_bytes m :
  isString m = true -> forallb isByte (Text.encode m) = true.
Proof.
  intros Hm. unfold Text.encode.
  pose proof (toScalarValues_scalar m Hm) as H.
  induction (toScalarValues m) as [|c cps IH]; [reflexivity|].
  cbn [forallb] in H. apply andb_true_iff in H. destruct H as [Hc Hcps].
  cbn [flat_map]. rewrite forallb_app, utf8EncodeCodePoint_bytes, IH by assumption.
  reflexivity.
Qed.

Lemma decode_encode m :
  isString m = true -> isWellFormed m = true -> noLeadingBOM m = true ->
  Text.decode (Text.encode m) = Return m.
Proof.
  intros Hm Hw Hb. unfold Text.decode, Text.encode.
  rewrite <- (app_nil_r (flat_map _ _)).
  rewrite utf8Decode_encode by (apply toScalarValues_scalar; assumption).
  cbn [utf8Decode utf8_init bytes_needed Z.eqb orb option_map].
  rewrite app_nil_r, stripBOM_toScalarValues by assumption.
  rewrite fromScalarValues_toScalarValues by assumption. reflexivity.
Qed.

End TextFacts.

(** ** [Protocol]: bytes and bits, the marker scan, the byte reader *)

Module ProtocolFacts.

Import Text TextFacts Protocol.

Lemma ToInt32_small z : - 2 ^ 31 <= z < 2 ^ 31 -> JS.ToInt32 z = z.
Proof.
  intros H. unfold JS.ToInt32.
  destruct (Z.leb_spec (2 ^ 31) (z mod 2 ^ 32)); dlia.
Qed.

Lemma jslength_app {A} (a b : list A) :
  JS.length (a ++ b) = JS.length a + JS.length b.
Proof. unfold JS.length. rewrite List.length_app. lia. Qed.

Lemma length_nonneg {A} (a : list A) : 0 <= JS.length a.
Proof. unfold JS.length. lia. Qed.

Lemma slice_app_mid {A} (a b c : list A) s e :
  s = JS.length a -> e = s + JS.length b -> JS.slice (a ++ b ++ c) s e = b.
Proof.
  intros -> ->. unfold JS.slice, JS.length.
  rewrite Nat2Z.id, skipn_app, skipn_all, Nat.sub_diag. cbn [skipn app].
  replace (Z.to_nat _) with (List.length b) by lia.
  rewrite firstn_app, firstn_all, Nat.sub_diag. cbn [firstn].
  apply app_nil_r.
Qed.

Lemma byteToBits_length b : JS.length (byteToBits b) = 8.
Proof. reflexivity. Qed.

Lemma bitsToNumber_byteToBits b :
  isByte b = true -> bitsToNumber (byteToBits b) = b.
Proof.
  intros H. apply isByte_range in H. apply Z.eqb_eq.
  apply (forallb_below (fun b => bitsToNumber (byteToBits b) =? b) 256);
    [vm_compute; reflexivity | lia].
Qed.

Lemma lxor_byte a b : 0 <= a < 256 -> 0 <= b < 256 -> 0 <= Z.lxor a b < 256.
Proof.
  intros Ha Hb. split; [apply Z.lxor_nonneg; lia|].
  destruct (Z.eq_dec (Z.lxor a b) 0) as [->|Hne]; [lia|].
  assert (0 < Z.lxor a b) by (pose proof (proj2 (Z.lxor_nonneg a b)); lia).
  change 256 with (2 ^ 8). apply Z.log2_lt_pow2; [assumption|].
  eapply Z.le_lt_trans; [apply Z.log2_lxor; lia|].
  apply Z.max_lub_lt.
  - destruct (Z.eq_dec a 0) as [->|]; [reflexivity|].
    apply Z.log2_lt_pow2; lia.
  - destruct (Z.eq_dec b 0) as [->|]; [reflexivity|].
    apply Z.log2_lt_pow2; lia.
Qed.

Lemma xor_bytes a b :
  isByte a = true -> isByte b = true -> isByte (JS.xor a b) = true.
Proof.
  intros Ha Hb. apply isByte_range in Ha. apply isByte_range in Hb.
  apply isByte_range. unfold JS.xor.
  rewrite !ToInt32_small by lia. apply lxor_byte; assumption.
Qed.

Lemma calculateChecksum_byte bytes :
  forallb isByte bytes = true -> isByte (calculateChecksum bytes) = true.
Proof.
  unfold calculateChecksum.
  assert (G : forall acc, isByte acc = true -> forallb isByte bytes = true ->
    isByte (fold_left (fun c b => JS.xor c b) bytes acc) = true).
  { induction bytes as [|b bytes IH]; intros acc Ha Hb; [exact Ha|].
    cbn [forallb] in Hb. apply andb_true_iff in Hb. destruct Hb as [Hb Hbs].
    cbn [fold_left]. apply IH; [apply xor_bytes|]; assumption. }
  apply G. reflexivity.
Qed.

Lemma Uint8Array_bytes bytes :
  forallb isByte bytes = true -> JS.Uint8Array bytes = bytes.
Proof.
  induction bytes as [|b bytes IH]; intros H; [reflexivity|].
  cbn [forallb] in H. apply andb_true_iff in H. destruct H as [Hb Hbs].
  cbn [JS.Uint8Array map]. fold (JS.Uint8Array bytes). rewrite IH by assumption.
  apply isByte_range in Hb. rewrite Z.mod_small by lia. reflexivity.
Qed.

(** *** The marker scan *)

Lemma allOnes_short rest : (List.length rest < 8)%nat -> allOnes rest = None.
Proof.
  intros H. do 8 (destruct rest as [|? rest]; [reflexivity|]).
  cbn in H. lia.
Qed.

Lemma findStartMarkerFrom_short i rest :
  (List.length rest < 8)%nat -> findStartMarkerFrom i rest = -1.
Proof.
  intros H. destruct rest; cbn [findStartMarkerFrom];
    rewrite allOnes_short by assumption; reflexivity.
Qed.

Lemma allOnes_app rest tail b :
  allOnes rest = Some b -> allOnes (rest ++ tail) = Some b.
Proof.
  do 8 (destruct rest as [|? rest]; [discriminate|]).
  intros H. exact H.
Qed.

Lemma findStartMarkerFrom_unfold i rest :
  findStartMarkerFrom i rest =
    match allOnes rest with
    | None => -1
    | Some true => i
    | Some false =>
        match rest with
        | _ :: rest' => findStartMarkerFrom (i + 1) rest'
        | [] => -1
        end
    end.
Proof. destruct rest; reflexivity. Qed.

Lemma allOnes_before_zero q tail :
  (List.length q < 8)%nat ->
  allOnes (q ++ 0 :: 1 :: 0 :: 1 :: 0 :: 1 :: 0 :: START_MARKER ++ tail)
  = Some false.
Proof.
  intros H.
  do 8 (destruct q as [|? q];
        [cbn; rewrite ?andb_false_r; reflexivity|]).
  cbn in H. lia.
Qed.

Lemma findStartMarkerFrom_frame prefix tail : forall i,
  0 <= i ->
  findStartMarkerFrom i (prefix ++ [1]) = -1 ->
  findStartMarkerFrom i (prefix ++ PREAMBLE ++ START_MARKER ++ tail)
  = i + JS.length prefix + 8.
Proof.
  induction prefix as [|a p IH]; intros i Hi H.
  - cbn. lia.
  - rewrite findStartMarkerFrom_unfold in H.
    rewrite findStartMarkerFrom_unfold.
    change (PREAMBLE ++ START_MARKER ++ tail)
      with ([1] ++ 0 :: 1 :: 0 :: 1 :: 0 :: 1 :: 0 :: START_MARKER ++ tail).
    rewrite (app_assoc (a :: p) [1]).
    destruct (allOnes ((a :: p) ++ [1])) as [[|]|] eqn:E.
    + lia.
    + rewrite (allOnes_app _ _ _ E).
      cbn [app]. rewrite <- app_assoc.
      change (([1] ++ 0 :: 1 :: 0 :: 1 :: 0 :: 1 :: 0 :: START_MARKER ++ tail))
        with (PREAMBLE ++ START_MARKER ++ tail).
      rewrite IH by (assumption || lia).
      unfold JS.length. cbn [List.length]. lia.
    + assert (L : (List.length ((a :: p) ++ [1%Z]) < 8)%nat).
      { destruct (Nat.ltb_spec (List.length ((a :: p) ++ [1%Z])) 8) as [|G];
          [assumption|].
        exfalso. revert E G. generalize ((a :: p) ++ [1]). intros l.
        do 8 (destruct l as [|? l]; [cbn; lia|]). discriminate. }
      rewrite allOnes_before_zero by assumption.
      cbn [app]. rewrite <- app_assoc.
      change (([1] ++ 0 :: 1 :: 0 :: 1 :: 0 :: 1 :: 0 :: START_MARKER ++ tail))
        with (PREAMBLE ++ START_MARKER ++ tail).
      rewrite IH; [unfold JS.length; cbn [List.length]; lia | lia |].
      apply findStartMarkerFrom_short.
      rewrite List.length_app in *. cbn [List.length] in *. lia.
Qed.

(** *** Reading bytes *)

Lemma completeBytes_byteToBits b rest :
  completeBytes (byteToBits b ++ rest)
  = bitsToNumber (byteToBits b) :: completeBytes rest.
Proof. reflexivity. Qed.

Lemma completeBytes_flat_map bytes :
  forallb isByte bytes = true ->
  completeBytes (flat_map byteToBits bytes) = bytes.
Proof.
  induction bytes as [|b bytes IH]; intros H; [reflexivity|].
  cbn [forallb] in H. apply andb_true_iff in H. destruct H as [Hb Hbs].
  cbn [flat_map]. rewrite completeBytes_byteToBits, IH by assumption.
  rewrite bitsToNumber_byteToBits by assumption. reflexivity.
Qed.

Lemma flat_map_byteToBits_length bytes :
  JS.length (flat_map byteToBits bytes) = 8 * JS.length bytes.
Proof.
  induction bytes as [|b bytes IH]; [reflexivity|].
  cbn [flat_map]. rewrite jslength_app, IH, byteToBits_length.
  unfold JS.length. cbn [List.length]. lia.
Qed.

Lemma slice_length {A} (xs : list A) s e :
  0 <= s -> s <= e ->
  JS.length (JS.slice xs s e) = Z.max 0 (Z.min (e - s) (JS.length xs - s)).
Proof.
  intros Hs He. unfold JS.slice, JS.length.
  rewrite length_firstn, length_skipn. lia.
Qed.

Lemma slice_split8 bits idx k :
  0 <= idx -> idx + 8 <= JS.length bits -> 0 <= k ->
  completeBytes (JS.slice bits idx (idx + 8 + k))
  = bitsToNumber (JS.slice bits idx (idx + 8))
      :: completeBytes (JS.slice bits (idx + 8) (idx + 8 + k)).
Proof.
  intros Hidx Hlen Hk. unfold JS.slice.
  replace (Z.to_nat (idx + 8)) with (8 + Z.to_nat idx)%nat by lia.
  rewrite <- skipn_skipn.
  assert (L : (8 <= List.length (skipn (Z.to_nat idx) bits))%nat)
    by (rewrite length_skipn; unfold JS.length in Hlen; lia).
  destruct (skipn (Z.to_nat idx) bits) as [|b0 rest]; [cbn in L; lia|].
  do 7 (destruct rest as [|? rest]; [cbn in L; lia|]).
  replace (Z.to_nat (idx + 8 + k - idx)) with (8 + Z.to_nat k)%nat by lia.
  replace (Z.to_nat (idx + 8 - idx)) with 8%nat by lia.
  replace (Z.to_nat (idx + 8 + k - (idx + 8))) with (Z.to_nat k) by lia.
  reflexivity.
Qed.

Lemma readDataBytes_spec bits : forall n idx acc,
  0 <= idx <= JS.length bits ->
  readDataBytes bits n idx acc =
    if idx + 8 * Z.of_nat n <=? JS.length bits
    then Some (acc ++ completeBytes
                 (JS.slice bits idx (idx + 8 * Z.of_nat n)),
               idx + 8 * Z.of_nat n)
    else None.
Proof.
  induction n as [|n IH]; intros idx acc Hidx.
  - cbn [readDataBytes]. unfold JS.slice.
    replace (Z.to_nat _) with 0%nat by lia. cbn [firstn completeBytes].
    rewrite app_nil_r, Z.add_0_r.
    rewrite (proj2 (Z.leb_le _ _)) by lia. reflexivity.
  - cbn [readDataBytes]. rewrite slice_length by lia.
    destruct (Z.ltb_spec (Z.max 0 (Z.min (idx + 8 - idx)
                                     (JS.length bits - idx))) 8) as [Hs|Hs].
    + rewrite (proj2 (Z.leb_gt _ _)) by lia. reflexivity.
    + rewrite IH by lia.
      replace (idx + 8 * Z.of_nat (S n)) with (idx + 8 + 8 * Z.of_nat n) by lia.
      destruct (Z.leb_spec (idx + 8 + 8 * Z.of_nat n) (JS.length bits));
        [|reflexivity].
      rewrite slice_split8 by lia. rewrite <- app_assoc. reflexivity.
Qed.

(** *** Decoding a frame *)

Lemma decode_frameBits prefix data c :
  findStartMarker (prefix ++ [1]) = -1 ->
  forallb isByte data = true -> isByte c = true ->
  JS.length data <= 255 ->
  Protocol.decode (prefix ++ frameBits (JS.length data) data c) =
    if (JS.length data >? MAX_MESSAGE_BYTES) || (JS.length data =? 0)
    then Return None
    else if c =? calculateChecksum data then textOrNull data
    else Return None.
Proof.
  intros Hp Hd Hc Hn.
  pose proof (length_nonneg data) as Hn0.
  pose proof (length_nonneg prefix) as Hp0.
  assert (Hnb : isByte (JS.length data) = true)
    by (apply isByte_range; lia).
  unfold Protocol.decode.
  unfold findStartMarker, frameBits.
  rewrite findStartMarkerFrom_frame by (assumption || lia).
  rewrite (proj2 (Z.eqb_neq _ _)) by lia.
  set (bits := prefix ++ PREAMBLE ++ START_MARKER ++ _).
  assert (Hlen : JS.length bits = JS.length prefix + 32 + 8 * JS.length data).
  { unfold bits. rewrite !jslength_app, flat_map_byteToBits_length,
      !byteToBits_length. change (JS.length PREAMBLE) with 8.
    change (JS.length START_MARKER) with 8. lia. }
  assert (HL : JS.slice bits (0 + JS.length prefix + 8 + 8)
                 (0 + JS.length prefix + 8 + 8 + 8)
               = byteToBits (JS.length data)).
  { unfold bits.
    rewrite (app_assoc PREAMBLE), (app_assoc prefix).
    apply slice_app_mid.
    - rewrite !jslength_app. change (JS.length PREAMBLE) with 8.
      change (JS.length START_MARKER) with 8. lia.
    - rewrite byteToBits_length. lia. }
  rewrite HL, byteToBits_length. cbn [Z.ltb Z.compare Pos.compare Pos.compare_cont].
  rewrite bitsToNumber_byteToBits by assumption.
  destruct ((JS.length data >? MAX_MESSAGE_BYTES) || (JS.length data =? 0))
    eqn:Hvalid; [reflexivity|].
  rewrite readDataBytes_spec by lia.
  rewrite Z2Nat.id by lia.
  rewrite (proj2 (Z.leb_le _ _)) by lia.
  assert (HD : JS.slice bits (0 + JS.length prefix + 8 + 8 + 8)
                 (0 + JS.length prefix + 8 + 8 + 8 + 8 * JS.length data)
               = flat_map byteToBits data).
  { unfold bits.
    rewrite (app_assoc START_MARKER), (app_assoc PREAMBLE), (app_assoc prefix).
    apply slice_app_mid.
    - rewrite !jslength_app, byteToBits_length.
      change (JS.length PREAMBLE) with 8.
      change (JS.length START_MARKER) with 8. lia.
    - rewrite flat_map_byteToBits_length. lia. }
  rewrite HD, completeBytes_flat_map by assumption. cbn [app].
  assert (HC : JS.slice bits
                 (0 + JS.length prefix + 8 + 8 + 8 + 8 * JS.length data)
                 (0 + JS.length prefix + 8 + 8 + 8 + 8 * JS.length data + 8)
               = byteToBits c).
  { unfold bits. rewrite <- (app_nil_r (byteToBits c)) at 1.
    rewrite (app_assoc (byteToBits _) (flat_map _ _)),
      (app_assoc START_MARKER), (app_assoc PREAMBLE), (app_assoc prefix).
    apply slice_app_mid.
    - rewrite !jslength_app, byteToBits_length, flat_map_byteToBits_length.
      change (JS.length PREAMBLE) with 8.
      change (JS.length START_MARKER) with 8. lia.
    - rewrite byteToBits_length. lia. }
  rewrite HC, byteToBits_length. cbn [Z.ltb Z.compare Pos.compare Pos.compare_cont].
  rewrite bitsToNumber_byteToBits, Uint8Array_bytes by assumption.
  destruct (c =? calculateChecksum data); [|reflexivity].
  cbn [negb]. unfold textOrNull, try_catch.
  destruct (Text.decode data); reflexivity.
Qed.

Lemma findStartMarkerFrom_range rest : forall i,
  findStartMarkerFrom i rest = -1 \/
  (i <= findStartMarkerFrom i rest /\
   findStartMarkerFrom i rest + 8 <= i + JS.length rest).
Proof.
  induction rest as [|b rest IH]; intros i.
  - left. reflexivity.
  - rewrite findStartMarkerFrom_unfold.
    destruct (allOnes (b :: rest)) as [[|]|] eqn:E.
    + right. split; [lia|].
      destruct (Nat.ltb_spec (List.length (b :: rest)) 8) as [L|L].
      * rewrite allOnes_short in E by assumption. discriminate.
      * unfold JS.length. lia.
    + destruct (IH (i + 1)) as [H|H]; [left; assumption|right].
      unfold JS.length in *. cbn [List.length]. lia.
    + left. reflexivity.
Qed.

Lemma findStartMarker_range bits :
  findStartMarker bits = -1 \/
  (0 <= findStartMarker bits /\ findStartMarker bits + 8 <= JS.length bits).
Proof. apply (findStartMarkerFrom_range bits 0). Qed.

Lemma allOnes_marker rest :
  allOnes rest = Some true <-> firstn 8 rest = START_MARKER.
Proof.
  do 8 (destruct rest as [|? rest]; [split; discriminate|]).
  unfold allOnes, START_MARKER. cbn [firstn forallb]. split.
  - intros H. injection H as H.
    repeat (apply andb_true_iff in H; destruct H as [?%Z.eqb_eq H]).
    subst. reflexivity.
  - intros H. injection H as -> -> -> -> -> -> -> ->. reflexivity.
Qed.

Lemma findStartMarkerFrom_first rest : forall i0,
  0 <= i0 ->
  (findStartMarkerFrom i0 rest = -1 /\
   forall k, firstn 8 (skipn k rest) <> START_MARKER) \/
  (exists k,
     findStartMarkerFrom i0 rest = i0 + Z.of_nat k /\
     firstn 8 (skipn k rest) = START_MARKER /\
     forall k', (k' < k)%nat -> firstn 8 (skipn k' rest) <> START_MARKER).
Proof.
  induction rest as [|b rest IH]; intros i0 Hi0.
  - left. split; [reflexivity|]. intros k. rewrite skipn_nil. discriminate.
  - rewrite findStartMarkerFrom_unfold.
    destruct (allOnes (b :: rest)) as [[|]|] eqn:E.
    + right. exists 0%nat. split; [lia|]. split.
      * apply allOnes_marker. exact E.
      * intros k' Hk'. lia.
    + assert (H0 : firstn 8 (b :: rest) <> START_MARKER).
      { intros H. apply allOnes_marker in H. congruence. }
      destruct (IH (i0 + 1) ltac:(lia)) as [[Hr Hall] | (k & Hr & Hk & Hlt)].
      * left. split; [exact Hr|]. intros [|k]; [exact H0 | apply Hall].
      * right. exists (S k). split; [lia|]. split; [exact Hk|].
        intros [|k'] Hk'; [exact H0 | apply Hlt; lia].
    + left. split; [reflexivity|]. intros k H.
      assert (L : (8 <= List.length (skipn k (b :: rest)))%nat).
      { rewrite <- (firstn_skipn 8 (skipn k (b :: rest))), H.
        rewrite List.length_app. cbn. lia. }
      rewrite length_skipn in L.
      destruct (Nat.ltb_spec (List.length (b :: rest)) 8) as [S|S]; [lia|].
      clear - E S. revert E S. generalize (b :: rest). intros l.
      do 8 (destruct l as [|? l]; [cbn; lia|]). discriminate.
Qed.

(** [findStartMarker] returns the index of the first run of eight 1-bits,
    and [-1] when there is none. *)
Lemma findStartMarker_first_run bits :
  (findStartMarker bits = -1 ->
   forall j, 0 <= j -> JS.slice bits j (j + 8) <> START_MARKER) /\
  (forall i, findStartMarker bits = i -> i <> -1 ->
   JS.slice bits i (i + 8) = START_MARKER /\
   forall j, 0 <= j < i -> JS.slice bits j (j + 8) <> START_MARKER).
Proof.
  assert (S : forall j, 0 <= j ->
    JS.slice bits j (j + 8) = firstn 8 (skipn (Z.to_nat j) bits)).
  { intros j Hj. unfold JS.slice.
    replace (Z.to_nat (j + 8 - j)) with 8%nat by lia. reflexivity. }
  unfold findStartMarker.
  destruct (findStartMarkerFrom_first bits 0 ltac:(lia))
    as [[Hr Hall] | (k & Hr & Hk & Hlt)]; rewrite Hr; split.
  - intros _ j Hj. rewrite S by assumption. apply Hall.
  - intros i <- Hne. contradiction.
  - intros H. lia.
  - intros i <- _. split.
    + rewrite S by lia. replace (Z.to_nat (0 + Z.of_nat k)) with k by lia.
      exact Hk.
    + intros j Hj. rewrite S by lia. apply Hlt. lia.
Qed.

Lemma findStartMarker_none bits :
  (forall j, 0 <= j -> JS.slice bits j (j + 8) <> START_MARKER) ->
  findStartMarker bits = -1.
Proof.
  intros H. destruct (Z.eq_dec (findStartMarker bits) (-1)) as [|Hne];
    [assumption|].
  exfalso.
  destruct (findStartMarker_range bits) as [|[H0 _]]; [contradiction|].
  destruct (proj2 (findStartMarker_first_run bits) _ eq_refl Hne) as [Hm _].
  exact (H _ H0 Hm).
Qed.

Lemma forallb_firstn {A} (P : A -> bool) n l :
  forallb P l = true -> forallb P (firstn n l) = true.
Proof.
  revert n. induction l as [|a l IH]; intros [|n] H; try reflexivity.
  cbn in *. apply andb_true_iff in H. destruct H as [Ha Hl].
  rewrite Ha, IH by assumption. reflexivity.
Qed.

Lemma forallb_skipn {A} (P : A -> bool) n l :
  forallb P l = true -> forallb P (skipn n l) = true.
Proof.
  revert n. induction l as [|a l IH]; intros [|n] H.
  - reflexivity.
  - reflexivity.
  - exact H.
  - cbn in *. apply andb_true_iff in H. apply IH. tauto.
Qed.

Lemma forallb_slice {A} (P : A -> bool) l s e :
  forallb P l = true -> forallb P (JS.slice l s e) = true.
Proof. intros H. apply forallb_firstn, forallb_skipn, H. Qed.

Ltac bit_cases :=
  repeat match goal with
  | H : isBit ?b = true |- _ =>
      apply isBit_cases in H; destruct H as [-> | ->]
  | H : isBit ?b && _ = true |- _ =>
      apply andb_true_iff in H; destruct H
  end.

Lemma bitsToNumber_octet b0 b1 b2 b3 b4 b5 b6 b7 :
  forallb isBit [b0; b1; b2; b3; b4; b5; b6; b7] = true ->
  isByte (bitsToNumber [b0; b1; b2; b3; b4; b5; b6; b7]) = true.
Proof.
  intros H. cbn [forallb] in H. bit_cases; reflexivity.
Qed.

Lemma completeBytes_bytes : forall (n : nat) l,
  (List.length l <= n)%nat -> forallb isBit l = true ->
  forallb isByte (completeBytes l) = true.
Proof.
  induction n as [|n IH]; intros l Hn Hl.
  - destruct l; [reflexivity | cbn in Hn; lia].
  - destruct l as [|b0 [|b1 [|b2 [|b3 [|b4 [|b5 [|b6 [|b7 rest]]]]]]]];
      try reflexivity.
    cbn [completeBytes forallb].
    change (b0 :: b1 :: b2 :: b3 :: b4 :: b5 :: b6 :: b7 :: rest)
      with ([b0; b1; b2; b3; b4; b5; b6; b7] ++ rest) in Hl.
    rewrite forallb_app in Hl. apply andb_true_iff in Hl.
    destruct Hl as [Ho Hrest].
    rewrite bitsToNumber_octet by assumption.
    apply IH; [cbn in Hn; lia | assumption].
Qed.

Lemma bitsToNumber_slice8 bits s :
  forallb isBit bits = true -> 0 <= s -> s + 8 <= JS.length bits ->
  isByte (bitsToNumber (JS.slice bits s (s + 8))) = true.
Proof.
  intros Hb Hs Hl.
  pose proof (forallb_slice isBit bits s (s + 8) Hb) as Hsl.
  pose proof (slice_length bits s (s + 8) ltac:(lia) ltac:(lia)) as L.
  unfold JS.length in L at 1.
  destruct (JS.slice bits s (s + 8))
    as [|b0 [|b1 [|b2 [|b3 [|b4 [|b5 [|b6 [|b7 [|b8 rest]]]]]]]]];
    cbn [List.length] in L; try lia.
  apply bitsToNumber_octet. assumption.
Qed.

(** [decode] after the marker has been found at index [i]. *)
Lemma decode_at bits i :
  forallb isBit bits = true ->
  findStartMarker bits = i -> i <> -1 ->
  Protocol.decode bits =
    let N := bitsToNumber (JS.slice bits (i + 8) (i + 16)) in
    let data := completeBytes (JS.slice bits (i + 16) (i + 16 + 8 * N)) in
    let received :=
      bitsToNumber (JS.slice bits (i + 16 + 8 * N) (i + 24 + 8 * N)) in
    if JS.length bits <? i + 16 then Return None
    else if (N >? MAX_MESSAGE_BYTES) || (N =? 0) then Return None
    else if JS.length bits <? i + 24 + 8 * N then Return None
    else if negb (received =? calculateChecksum data) then Return None
    else textOrNull data.
Proof.
  intros Hbits Hi Hne.
  destruct (findStartMarker_range bits) as [H|[H0 H8]]; [congruence|].
  rewrite Hi in H0, H8.
  unfold Protocol.decode. rewrite Hi.
  rewrite (proj2 (Z.eqb_neq _ _)) by assumption.
  replace (i + 8 + 8) with (i + 16) by lia.
  cbv zeta.
  rewrite slice_length by lia.
  destruct (Z.ltb_spec (JS.length bits) (i + 16)).
  { rewrite (proj2 (Z.ltb_lt _ _)) by lia. reflexivity. }
  rewrite (proj2 (Z.ltb_ge _ _)) by lia.
  pose proof (bitsToNumber_slice8 bits (i + 8) Hbits ltac:(lia) ltac:(lia))
    as HNb.
  replace (i + 8 + 8) with (i + 16) in HNb by lia.
  set (N := bitsToNumber (JS.slice bits (i + 8) (i + 16))) in *.
  apply isByte_range in HNb.
  destruct ((N >? MAX_MESSAGE_BYTES) || (N =? 0)) eqn:HN; [reflexivity|].
  rewrite readDataBytes_spec by lia.
  rewrite Z2Nat.id by lia.
  destruct (Z.leb_spec (i + 16 + 8 * N) (JS.length bits)) as [Hd|Hd].
  2: { rewrite (proj2 (Z.ltb_lt _ _)) by lia. reflexivity. }
  cbn [app]. rewrite slice_length by lia.
  replace (i + 16 + 8 * N + 8) with (i + 24 + 8 * N) by lia.
  destruct (Z.ltb_spec (JS.length bits) (i + 24 + 8 * N)) as [Hc|Hc].
  { rewrite (proj2 (Z.ltb_lt _ _)) by lia. reflexivity. }
  rewrite (proj2 (Z.ltb_ge _ _)) by lia.
  rewrite Uint8Array_bytes
    by (apply (completeBytes_bytes (List.length bits)), forallb_slice,
          Hbits; unfold JS.slice;
        rewrite length_firstn, length_skipn; lia).
  destruct (negb _); [reflexivity|].
  unfold textOrNull, try_catch. destruct (Text.decode _); reflexivity.
Qed.

Lemma encode_frameBits m :
  Protocol.encode m =
    if getByteLength m >? MAX_MESSAGE_BYTES then Throw MessageTooLongError
    else Return (frameBits (getByteLength m) (Text.encode m)
                   (calculateChecksum (Text.encode m))).
Proof. reflexivity. Qed.

Lemma decode_prefixed_encoding m prefix :
  isString m = true -> isWellFormed m = true -> noLeadingBOM m = true ->
  1 <= getByteLength m <= 200 ->
  findStartMarker (prefix ++ [1]) = -1 ->
  exists bits,
    Protocol.encode m = Return bits /\
    findStartMarker (prefix ++ bits) = JS.length prefix + 8 /\
    Protocol.decode (prefix ++ bits) = Return (Some m).
Proof.
  intros Hs Hw Hb Hlen Hp.
  rewrite encode_frameBits. unfold MAX_MESSAGE_BYTES.
  rewrite Z.gtb_ltb, (proj2 (Z.ltb_ge _ _)) by lia.
  eexists. split; [reflexivity|]. split.
  - unfold findStartMarker, frameBits.
    rewrite findStartMarkerFrom_frame by (assumption || lia). lia.
  - unfold getByteLength in *.
    rewrite decode_frameBits;
      [| assumption | apply encode_bytes; assumption
       | apply calculateChecksum_byte, encode_bytes; assumption | lia].
    unfold MAX_MESSAGE_BYTES.
    rewrite Z.gtb_ltb, (proj2 (Z.ltb_ge _ _)), (proj2 (Z.eqb_neq _ _)),
      Z.eqb_refl by lia.
    cbn [orb]. unfold textOrNull. rewrite decode_encode by assumption.
    reflexivity.
Qed.

(** Claim C1 as stated fails at the empty string: it has 0 <= 200 bytes,
    [encode("")] is the frame with length field 0 and empty data, and
    [decode] of that frame is [null], since [decode] rejects a length
    field of 0. *)
Lemma empty_message_is_not_decoded :
  Protocol.getByteLength [] <= 200 /\
  Protocol.encode [] = Return (frameBits 0 [] 0) /\
  Protocol.decode (frameBits 0 [] 0) = Return None.
Proof. repeat split; vm_compute; congruence. Qed.

(** Claim C1, amended: for every string [m] that is well formed (no lone
    surrogate), does not begin with U+FEFF and has a UTF-8 length between
    1 and 200 bytes, [Protocol.encode(m)] returns a bit sequence and
    [Protocol.decode] of it returns [m].  ASCII text, multi-byte text and
    4-byte code points are all covered; the empty string is not. *)
Theorem decode_encode_round_trip m :
  isString m = true -> isWellFormed m = true -> noLeadingBOM m = true ->
  1 <= getByteLength m <= 200 ->
  exists bits,
    Protocol.encode m = Return bits /\ Protocol.decode bits = Return (Some m).
Proof.
  intros Hs Hw Hb Hlen.
  destruct (decode_prefixed_encoding m [] Hs Hw Hb Hlen eq_refl)
    as (bits & He & _ & Hd).
  exists bits. split; assumption.
Qed.

Lemma decode_encode_round_trip_witness :
  (isString msg_konnichiwa = true /\ isWellFormed msg_konnichiwa = true /\
   noLeadingBOM msg_konnichiwa = true /\
   1 <= getByteLength msg_konnichiwa <= 200) /\
  exists bits,
    Protocol.encode msg_konnichiwa = Return bits /\
    Protocol.decode bits = Return (Some msg_konnichiwa).
Proof.
  split.
  - repeat split; vm_compute; congruence.
  - apply (decode_encode_round_trip msg_konnichiwa);
      try reflexivity; split; vm_compute; congruence.
Defined.

(** The round trip of the tests' messages, by evaluation. *)
Lemma round_trip_examples :
  forall m, In m [msg_Test; msg_konnichiwa; msg_emoji] ->
  Protocol.decode (frameBits (getByteLength m) (Text.encode m)
                     (calculateChecksum (Text.encode m)))
  = Return (Some m).
Proof.
  intros m [<- | [<- | [<- | []]]]; vm_compute; reflexivity.
Qed.

(** The two other inputs that do not round-trip: a leading U+FEFF is
    removed by the decoder, and a lone surrogate is encoded as U+FFFD. *)
Lemma protocol_drops_a_leading_BOM :
  Protocol.encode [0xFEFF; 65] = Return (frameBits 4 [0xEF; 0xBB; 0xBF; 65] 0xAA)
  /\ Protocol.decode (frameBits 4 [0xEF; 0xBB; 0xBF; 65] 0xAA)
     = Return (Some [65]).
Proof. split; vm_compute; reflexivity. Qed.

Lemma lone_surrogate_is_replaced :
  Protocol.encode [0xD800] = Return (frameBits 3 [0xEF; 0xBF; 0xBD] 0xED)
  /\ Protocol.decode (frameBits 3 [0xEF; 0xBF; 0xBD] 0xED)
     = Return (Some [0xFFFD]).
Proof. split; vm_compute; reflexivity. Qed.

(** Claim C7 as stated fails when the leading bits hold a run of eight
    1-bits: [decode] takes that run for the start marker, reads the
    preamble [10101010] as the length 170 and finds the data truncated. *)
Lemma marker_in_leading_bits_defeats_decode :
  Protocol.encode msg_Test = Return (frameBits 4 [84; 101; 115; 116] 0x36) /\
  Protocol.decode ([1; 1; 1; 1; 1; 1; 1; 1]
                     ++ frameBits 4 [84; 101; 115; 116] 0x36) = Return None.
Proof. split; vm_compute; reflexivity. Qed.

(** Claim C7, amended: for every string [m] that round-trips (well formed,
    no leading U+FEFF, 1 to 200 bytes) and every sequence of leading bits
    [prefix] such that [prefix] followed by the first preamble bit [1]
    holds no run of eight consecutive 1-bits, [decode(prefix ++ encode(m))]
    finds the start marker at index [prefix.length + 8] and returns [m]. *)
Theorem decode_tolerates_leading_bits m prefix :
  isString m = true -> isWellFormed m = true -> noLeadingBOM m = true ->
  1 <= getByteLength m <= 200 ->
  findStartMarker (prefix ++ [1]) = -1 ->
  exists bits,
    Protocol.encode m = Return bits /\
    findStartMarker (prefix ++ bits) = JS.length prefix + 8 /\
    Protocol.decode (prefix ++ bits) = Return (Some m).
Proof. apply decode_prefixed_encoding. Qed.

Lemma decode_tolerates_leading_bits_witness :
  (isString msg_Test = true /\ isWellFormed msg_Test = true /\
   noLeadingBOM msg_Test = true /\ 1 <= getByteLength msg_Test <= 200 /\
   findStartMarker ([0; 1; 0; 0; 1] ++ [1]) = -1) /\
  exists bits,
    Protocol.encode msg_Test = Return bits /\
    findStartMarker ([0; 1; 0; 0; 1] ++ bits) = JS.length [0; 1; 0; 0; 1] + 8 /\
    Protocol.decode ([0; 1; 0; 0; 1] ++ bits) = Return (Some msg_Test).
Proof.
  split.
  - repeat split; vm_compute; congruence.
  - apply (decode_tolerates_leading_bits msg_Test [0; 1; 0; 0; 1]);
      try reflexivity; split; vm_compute; congruence.
Defined.

Lemma repeat_a_bytes n : Text.encode (msg_a n) = repeat 97 n.
Proof.
  unfold Text.encode, msg_a. induction n as [|n IH]; [reflexivity|].
  cbn [repeat]. destruct n; [reflexivity|].
  cbn [repeat] in *. rewrite toScalarValues_cons2.
  change (isHighSurrogate 97) with false. change (isLowSurrogate 97) with false.
  cbv iota. cbn [flat_map]. rewrite IH. reflexivity.
Qed.

(** Claim C5: [Protocol.encode(m)] throws [MessageTooLongError] exactly
    when the UTF-8 length of [m] exceeds 200 and returns otherwise, in
    particular for every message of exactly 200 bytes; [canEncode(m)] is
    true exactly when [getByteLength(m) <= 200]; for ['a'.repeat(201)]
    [encode] throws and [canEncode] is false, for ['a'.repeat(200)]
    [canEncode] is true. *)
Theorem encode_length_bound :
  (forall m,
     (Protocol.encode m = Throw MessageTooLongError <-> getByteLength m > 200)
     /\ ((exists bits, Protocol.encode m = Return bits)
         <-> getByteLength m <= 200)
     /\ (canEncode m = true <-> getByteLength m <= 200)) /\
  (forall m, getByteLength m = 200 ->
     exists bits, Protocol.encode m = Return bits) /\
  getByteLength (msg_a 201) = 201 /\
  Protocol.encode (msg_a 201) = Throw MessageTooLongError /\
  canEncode (msg_a 201) = false /\
  getByteLength (msg_a 200) = 200 /\
  canEncode (msg_a 200) = true.
Proof.
  assert (G : forall m,
     (Protocol.encode m = Throw MessageTooLongError <-> getByteLength m > 200)
     /\ ((exists bits, Protocol.encode m = Return bits)
         <-> getByteLength m <= 200)
     /\ (canEncode m = true <-> getByteLength m <= 200)).
  { intros m. rewrite encode_frameBits. unfold canEncode, MAX_MESSAGE_BYTES.
    rewrite Z.gtb_ltb, Z.leb_le.
    destruct (Z.ltb_spec 200 (getByteLength m)); repeat split;
      try lia; try congruence.
    all: try (intros [? ?]; discriminate).
    all: intros; eexists; reflexivity. }
  split; [exact G|]. split.
  { intros m Hm. apply (G m). lia. }
  assert (L : forall n, getByteLength (msg_a n) = Z.of_nat n).
  { intros n. unfold getByteLength. rewrite repeat_a_bytes.
    unfold JS.length. rewrite repeat_length. reflexivity. }
  assert (C : forall n, canEncode (msg_a n) = (Z.of_nat n <=? 200)).
  { intros n. unfold canEncode. rewrite L. reflexivity. }
  rewrite !L, !C. split; [reflexivity|].
  split; [apply (G (msg_a 201)); rewrite L; lia|].
  repeat split.
Qed.

Lemma encode_length_bound_witness :
  getByteLength (msg_a 200) = 200 /\
  exists bits, Protocol.encode (msg_a 200) = Return bits.
Proof.
  assert (H : getByteLength (msg_a 200) = 200)
    by exact (proj1 (proj2 (proj2 (proj2 (proj2 (proj2
                encode_length_bound)))))).
  split; [exact H|].
  exact (proj1 (proj2 encode_length_bound) (msg_a 200) H).
Defined.

Lemma flipLast_cons x rest :
  rest <> [] -> flipLast (x :: rest) = x :: flipLast rest.
Proof. destruct rest; [contradiction | reflexivity]. Qed.

Lemma flipLast_app a b : b <> [] -> flipLast (a ++ b) = a ++ flipLast b.
Proof.
  intros Hb. induction a as [|x a IH]; [reflexivity|].
  cbn [app]. rewrite flipLast_cons, IH; [reflexivity|].
  destruct a; [assumption | discriminate].
Qed.

Lemma flipLast_byteToBits c :
  isByte c = true ->
  flipLast (byteToBits c) = byteToBits (JS.xor c 1) /\
  isByte (JS.xor c 1) = true /\ JS.xor c 1 <> c.
Proof.
  intros H. apply isByte_range in H.
  pose proof (forallb_below
    (fun c =>
       (if list_eq_dec Z.eq_dec (flipLast (byteToBits c))
             (byteToBits (JS.xor c 1)) then true else false)
       && isByte (JS.xor c 1) && negb (JS.xor c 1 =? c)) 256
    ltac:(vm_compute; reflexivity) c ltac:(lia)) as G.
  cbv beta in G. apply andb_true_iff in G. destruct G as [G G3].
  apply andb_true_iff in G. destruct G as [G1 G2].
  destruct (list_eq_dec _ _ _) as [E|]; [|discriminate].
  apply negb_true_iff, Z.eqb_neq in G3. auto.
Qed.

Lemma decode_no_marker bits :
  findStartMarker bits = -1 -> Protocol.decode bits = Return None.
Proof. intros H. unfold Protocol.decode. rewrite H. reflexivity. Qed.

Lemma decode_returns bits : exists r, Protocol.decode bits = Return r.
Proof.
  unfold Protocol.decode. cbv zeta.
  destruct (_ =? -1); [eauto|].
  destruct (_ <? 8); [eauto|].
  destruct (_ || _); [eauto|].
  destruct (readDataBytes _ _ _ _) as [[dataBytes bitIndex]|]; [|eauto].
  destruct (_ <? 8); [eauto|].
  destruct (negb _); [eauto|].
  destruct (Text.decode _); cbn [try_catch]; eauto.
Qed.

(** Claim C6: [Protocol.decode] returns on every input and never throws.
    It returns [null] when there is no run of eight consecutive 1-bits; and
    on a bit sequence whose first such run starts at [i] (which is what
    [findStartMarker] returns, see [findStartMarker_first_run]), with [N]
    the length field, it returns [null] when the length field is truncated,
    when [N] is 0 or exceeds 200, when a data byte or the checksum byte is
    truncated, when the received checksum differs from the XOR of the data
    bytes, and when the data bytes are not valid UTF-8.  [decode([])] and
    [decode] of sixteen 0-bits are [null], and so is [decode] of any
    encoding whose last bit has been flipped. *)
Theorem decode_total_and_silent :
  (forall bits, exists r, Protocol.decode bits = Return r) /\
  (forall bits,
     (forall j, 0 <= j -> JS.slice bits j (j + 8) <> START_MARKER) ->
     Protocol.decode bits = Return None) /\
  (forall bits i,
     forallb isBit bits = true -> findStartMarker bits = i -> i <> -1 ->
     let N := bitsToNumber (JS.slice bits (i + 8) (i + 16)) in
     let data := completeBytes (JS.slice bits (i + 16) (i + 16 + 8 * N)) in
     let received :=
       bitsToNumber (JS.slice bits (i + 16 + 8 * N) (i + 24 + 8 * N)) in
     (JS.length bits < i + 16 -> Protocol.decode bits = Return None) /\
     (N = 0 \/ N > 200 -> Protocol.decode bits = Return None) /\
     (JS.length bits < i + 24 + 8 * N ->
      Protocol.decode bits = Return None) /\
     (received <> calculateChecksum data ->
      Protocol.decode bits = Return None) /\
     (utf8Decode false utf8_init data = None ->
      Protocol.decode bits = Return None)) /\
  Protocol.decode [] = Return None /\
  Protocol.decode (repeat 0 16) = Return None /\
  (forall m bits,
     isString m = true -> Protocol.encode m = Return bits ->
     Protocol.decode (flipLast bits) = Return None).
Proof.
  split; [exact decode_returns|].
  split; [intros bits H; apply decode_no_marker, findStartMarker_none, H|].
  split; [|split; [reflexivity|split; [reflexivity|]]].
  - intros bits i Hb Hi Hne N data received.
    rewrite (decode_at bits i Hb Hi Hne). cbv zeta.
    fold N. fold data. fold received.
    unfold MAX_MESSAGE_BYTES.
    repeat split; intros H.
    + rewrite (proj2 (Z.ltb_lt _ _)) by lia. reflexivity.
    + destruct (_ <? _); [reflexivity|].
      replace ((N >? 200) || (N =? 0)) with true; [reflexivity|].
      symmetry. apply orb_true_iff. rewrite Z.gtb_ltb, Z.ltb_lt, Z.eqb_eq. lia.
    + rewrite (proj2 (Z.ltb_lt _ (i + 24 + 8 * N))) by lia.
      destruct (_ <? _); [reflexivity|]. destruct (_ || _); reflexivity.
    + rewrite (proj2 (Z.eqb_neq received _)) by exact H.
      destruct (_ <? _); [reflexivity|]. destruct (_ || _); [reflexivity|].
      destruct (_ <? _); reflexivity.
    + unfold textOrNull, Text.decode. rewrite H.
      destruct (_ <? _); [reflexivity|]. destruct (_ || _); [reflexivity|].
      destruct (_ <? _); [reflexivity|]. destruct (negb _); reflexivity.
  - intros m bits Hm He. rewrite encode_frameBits in He.
    destruct (getByteLength m >? MAX_MESSAGE_BYTES) eqn:Hlen; [discriminate|].
    injection He as <-.
    rewrite Z.gtb_ltb in Hlen. apply Z.ltb_ge in Hlen.
    unfold MAX_MESSAGE_BYTES in Hlen.
    pose proof (encode_bytes m Hm) as Hbytes.
    pose proof (calculateChecksum_byte _ Hbytes) as Hc.
    destruct (flipLast_byteToBits _ Hc) as (Hf & Hx & Hd).
    unfold frameBits.
    rewrite (app_assoc PREAMBLE), (app_assoc (PREAMBLE ++ _)),
      (app_assoc ((PREAMBLE ++ _) ++ _)).
    rewrite flipLast_app by discriminate.
    rewrite Hf, <- !app_assoc.
    change (Protocol.decode
              ([] ++ frameBits (getByteLength m) (Text.encode m)
                 (JS.xor (calculateChecksum (Text.encode m)) 1))
            = Return None).
    unfold getByteLength in *.
    rewrite decode_frameBits by (reflexivity || assumption || lia).
    rewrite (proj2 (Z.eqb_neq _ _) Hd).
    destruct (_ || _); reflexivity.
Qed.

Lemma decode_total_and_silent_witness :
  (forallb isBit (flipLast (frameBits 4 [84; 101; 115; 116] 0x36)) = true /\
   findStartMarker (flipLast (frameBits 4 [84; 101; 115; 116] 0x36)) = 8 /\
   8 <> -1 /\ 0x37 <> calculateChecksum [84; 101; 115; 116]) /\
  Protocol.decode (flipLast (frameBits 4 [84; 101; 115; 116] 0x36))
  = Return None.
Proof.
  split.
  - repeat split; vm_compute; congruence.
  - apply (proj1 (proj2 (proj2 (proj2
      (proj1 (proj2 (proj2 decode_total_and_silent))
         (flipLast (frameBits 4 [84; 101; 115; 116] 0x36)) 8
         eq_refl eq_refl ltac:(lia)))))).
    vm_compute. congruence.
Defined.

End ProtocolFacts.

(** ** [GridProtocol] *)

Module GridFacts.

Import Text TextFacts ProtocolFacts GridProtocol.

(** *** Cells *)

Lemma frameToCells_octets hi lo :
  frameToCells (hi, lo) = octetCells hi ++ octetCells lo.
Proof. reflexivity. Qed.

Lemma cellsToFrame_halves a b :
  List.length a = 8%nat -> List.length b = 8%nat ->
  cellsToFrame (a ++ b)
  = (fst (cellsToFrame a), snd (cellsToFrame (zeros8 ++ b))).
Proof.
  intros Ha Hb.
  do 8 (destruct a as [|? a]; [discriminate|]). destruct a; [|discriminate].
  do 8 (destruct b as [|? b]; [discriminate|]). destruct b; [|discriminate].
  unfold cellsToFrame, zeros8.
  cbn [fold_left seq cellBit nth_error app fst snd]. reflexivity.
Qed.

Lemma octet_frames b :
  isByte b = true ->
  fst (cellsToFrame (octetCells b)) = b /\
  snd (cellsToFrame (zeros8 ++ octetCells b)) = b.
Proof.
  intros H. apply isByte_range in H.
  pose proof (forallb_below
    (fun b => (fst (cellsToFrame (octetCells b)) =? b)
              && (snd (cellsToFrame (zeros8 ++ octetCells b)) =? b)) 256
    ltac:(vm_compute; reflexivity) b ltac:(lia)) as G.
  cbv beta in G. apply andb_true_iff in G.
  rewrite !Z.eqb_eq in G. exact G.
Qed.

Lemma cellsToFrame_frameToCells hi lo :
  isByte hi = true -> isByte lo = true ->
  cellsToFrame (frameToCells (hi, lo)) = (hi, lo).
Proof.
  intros Hh Hl.
  rewrite frameToCells_octets, cellsToFrame_halves by reflexivity.
  rewrite (proj1 (octet_frames hi Hh)), (proj2 (octet_frames lo Hl)).
  reflexivity.
Qed.

Lemma high_octet b0 b1 b2 b3 b4 b5 b6 b7 :
  forallb isBit [b0; b1; b2; b3; b4; b5; b6; b7] = true ->
  octetCells (fst (cellsToFrame [b0; b1; b2; b3; b4; b5; b6; b7]))
  = [b0; b1; b2; b3; b4; b5; b6; b7].
Proof. intros H. cbn [forallb] in H. bit_cases; vm_compute; reflexivity. Qed.

Lemma low_octet b0 b1 b2 b3 b4 b5 b6 b7 :
  forallb isBit [b0; b1; b2; b3; b4; b5; b6; b7] = true ->
  octetCells (snd (cellsToFrame
                     (zeros8 ++ [b0; b1; b2; b3; b4; b5; b6; b7])))
  = [b0; b1; b2; b3; b4; b5; b6; b7].
Proof. intros H. cbn [forallb] in H. bit_cases; vm_compute; reflexivity. Qed.

Lemma frameToCells_cellsToFrame cells :
  List.length cells = 16%nat -> forallb isBit cells = true ->
  frameToCells (cellsToFrame cells) = cells.
Proof.
  intros Hlen Hbits.
  rewrite <- (firstn_skipn 8 cells) in Hbits |- *.
  rewrite forallb_app in Hbits. apply andb_true_iff in Hbits.
  destruct Hbits as [Ha Hb].
  assert (La : List.length (firstn 8 cells) = 8%nat)
    by (rewrite length_firstn; lia).
  assert (Lb : List.length (skipn 8 cells) = 8%nat)
    by (rewrite length_skipn; lia).
  revert Ha Hb La Lb.
  generalize (firstn 8 cells) as a. generalize (skipn 8 cells) as b.
  intros b a Ha Hb La Lb.
  rewrite cellsToFrame_halves, frameToCells_octets by assumption.
  do 8 (destruct a as [|? a]; [discriminate|]). destruct a; [|discriminate].
  do 8 (destruct b as [|? b]; [discriminate|]). destruct b; [|discriminate].
  rewrite high_octet, low_octet by assumption. reflexivity.
Qed.

Lemma cell_is_bit b i :
  isByte b = true -> 0 <= i < 8 ->
  JS.and (JS.sar b i) 1 = Z.b2z (Z.testbit b i).
Proof.
  intros Hb Hi. apply isByte_range in Hb.
  pose proof (forallb_below
    (fun b => forallb
       (fun i => JS.and (JS.sar b i) 1 =? Z.b2z (Z.testbit b i)) (below 8))
    256 ltac:(vm_compute; reflexivity) b ltac:(lia)) as G.
  cbv beta in G.
  apply Z.eqb_eq. exact (forallb_below _ 8 G i ltac:(lia)).
Qed.

(** Claim C8: [cellsToFrame(frameToCells([hi, lo])) = [hi, lo]] for all
    bytes [hi] and [lo]; [frameToCells(cellsToFrame(c)) = c] for every
    array [c] of sixteen bits; [frameToCells([0b10101010, 0b01010101])] is
    [[1,0,1,0,1,0,1,0,0,1,0,1,0,1,0,1]]; and cells 0..7 are bits 7..0 of
    the high byte, cells 8..15 bits 7..0 of the low byte. *)
Theorem frame_cells_inverse :
  (forall hi lo,
     isByte hi = true -> isByte lo = true ->
     cellsToFrame (frameToCells (hi, lo)) = (hi, lo)) /\
  (forall cells,
     List.length cells = 16%nat -> forallb isBit cells = true ->
     frameToCells (cellsToFrame cells) = cells) /\
  frameToCells (0xAA, 0x55) = [1; 0; 1; 0; 1; 0; 1; 0; 0; 1; 0; 1; 0; 1; 0; 1]
  /\
  (forall hi lo,
     isByte hi = true -> isByte lo = true ->
     frameToCells (hi, lo)
     = map (fun i => Z.b2z (Z.testbit hi i)) [7; 6; 5; 4; 3; 2; 1; 0]
         ++ map (fun i => Z.b2z (Z.testbit lo i)) [7; 6; 5; 4; 3; 2; 1; 0]).
Proof.
  split; [exact cellsToFrame_frameToCells|].
  split; [exact frameToCells_cellsToFrame|].
  split; [reflexivity|].
  intros hi lo Hh Hl. unfold frameToCells. cbn [map].
  rewrite !cell_is_bit by (assumption || lia). reflexivity.
Qed.

Lemma frame_cells_inverse_witness :
  (isByte 0xF0 = true /\ isByte 0x0F = true /\
   List.length [1; 0; 1; 0; 1; 0; 1; 0; 0; 1; 0; 1; 0; 1; 0; 1] = 16%nat /\
   forallb isBit [1; 0; 1; 0; 1; 0; 1; 0; 0; 1; 0; 1; 0; 1; 0; 1] = true) /\
  cellsToFrame (frameToCells (0xF0, 0x0F)) = (0xF0, 0x0F) /\
  frameToCells (cellsToFrame [1; 0; 1; 0; 1; 0; 1; 0; 0; 1; 0; 1; 0; 1; 0; 1])
  = [1; 0; 1; 0; 1; 0; 1; 0; 0; 1; 0; 1; 0; 1; 0; 1].
Proof.
  split; [repeat split|split].
  - apply (proj1 frame_cells_inverse 0xF0 0x0F); reflexivity.
  - apply (proj1 (proj2 frame_cells_inverse)); reflexivity.
Defined.

(** *** Frames *)

Lemma grid_decode_returns frames :
  exists r, GridProtocol.decode frames = Return r.
Proof.
  unfold GridProtocol.decode. destruct frames as [|first frames]; [eauto|].
  cbv zeta.
  destruct (_ || _); [eauto|].
  destruct (_ <? _); [eauto|].
  destruct (nth_error _ _); [|eauto].
  destruct (negb _); [eauto|].
  destruct (Text.decode _); cbn [try_catch]; eauto.
Qed.

Lemma grid_decode_at first frames :
  forallb isByte (flatten (first :: frames)) = true ->
  GridProtocol.decode (first :: frames) =
    let bytes := flatten (first :: frames) in
    let N := nth 0 bytes 0 in
    let data := JS.slice bytes 1 (1 + N) in
    if (N =? 0) || (N >? MAX_MESSAGE_BYTES) then Return None
    else if JS.length bytes <? roundUpToEven (N + 2) then Return None
    else match nth_error bytes (Z.to_nat (1 + N)) with
         | None => Return None
         | Some received =>
             if negb (received =? GridProtocol.calculateChecksum data)
             then Return None
             else textOrNull data
         end.
Proof.
  intros Hb. unfold GridProtocol.decode. cbv zeta.
  change (nth 0 (flatten (first :: frames)) 0) with (fst first).
  destruct ((fst first =? 0) || (fst first >? MAX_MESSAGE_BYTES)) eqn:HN;
    [reflexivity|].
  replace (if JS.rem (fst first + 2) 2 =? 0 then fst first + 2
           else fst first + 2 + 1) with (roundUpToEven (fst first + 2)).
  2: { unfold roundUpToEven, JS.rem.
       assert (0 <= fst first).
       { cbn [flatten flat_map app forallb] in Hb.
         apply andb_true_iff in Hb. destruct Hb as [Hb _].
         apply isByte_range in Hb. lia. }
       destruct (Z.eqb_spec (Z.rem (fst first + 2) 2) 0); dlia. }
  destruct (_ <? _); [reflexivity|].
  rewrite Uint8Array_bytes by (apply forallb_slice; assumption).
  destruct (nth_error _ _); [|reflexivity].
  destruct (negb _); [reflexivity|].
  unfold textOrNull, try_catch. destruct (Text.decode _); reflexivity.
Qed.

(** Claim C9: [GridProtocol.decode] returns [null] for the empty frame
    list and never throws; for a non-empty list of frames of bytes, with
    [N] the first byte, it returns [null] when [N] is 0 or exceeds 200,
    when fewer than [N + 2] rounded up to even bytes are given, when the
    byte at offset [1 + N] is not the XOR of the [N] bytes from offset 1,
    and when those bytes are not valid UTF-8.  Corrupting the checksum
    byte of the last frame of [encode("Test")] makes [decode] return
    [null]. *)
Theorem grid_decode_rejections :
  GridProtocol.decode [] = Return None /\
  (forall frames, exists r, GridProtocol.decode frames = Return r) /\
  (forall frames,
     frames <> [] -> forallb isByte (flatten frames) = true ->
     let bytes := flatten frames in
     let N := nth 0 bytes 0 in
     let data := JS.slice bytes 1 (1 + N) in
     (N = 0 \/ N > 200 -> GridProtocol.decode frames = Return None) /\
     (JS.length bytes < roundUpToEven (N + 2) ->
      GridProtocol.decode frames = Return None) /\
     (nth_error bytes (Z.to_nat (1 + N))
      <> Some (GridProtocol.calculateChecksum data) ->
      GridProtocol.decode frames = Return None) /\
     (utf8Decode false utf8_init data = None ->
      GridProtocol.decode frames = Return None)) /\
  GridProtocol.encode msg_Test = Return [(4, 84); (101, 115); (116, 0x36)] /\
  GridProtocol.decode [(4, 84); (101, 115); (116, JS.xor 0x36 0xFF)]
  = Return None.
Proof.
  split; [reflexivity|]. split; [exact grid_decode_returns|].
  split; [|split; reflexivity].
  intros frames Hne Hb bytes N data.
  destruct frames as [|first frames]; [contradiction|].
  assert (E := grid_decode_at first frames Hb). cbv zeta in E.
  fold bytes in E. fold N in E. fold data in E.
  unfold MAX_MESSAGE_BYTES in E. rewrite E. clear E.
  repeat split; intros H.
  - replace ((N =? 0) || (N >? 200)) with true; [reflexivity|].
    symmetry. apply orb_true_iff. rewrite Z.gtb_ltb, Z.ltb_lt, Z.eqb_eq. lia.
  - rewrite (proj2 (Z.ltb_lt _ _) H). destruct (_ || _); reflexivity.
  - destruct (_ || _); [reflexivity|]. destruct (_ <? _); [reflexivity|].
    destruct (nth_error _ _) as [received|]; [|reflexivity].
    rewrite (proj2 (Z.eqb_neq received _)) by congruence. reflexivity.
  - unfold textOrNull, Text.decode. rewrite H.
    destruct (_ || _); [reflexivity|]. destruct (_ <? _); [reflexivity|].
    destruct (nth_error _ _) as [received|]; [|reflexivity].
    destruct (negb _); reflexivity.
Qed.

Lemma grid_decode_rejections_witness :
  ([(4, 84); (101, 115); (116, 0xC9)] <> [] /\
   forallb isByte (flatten [(4, 84); (101, 115); (116, 0xC9)]) = true /\
   nth_error (flatten [(4, 84); (101, 115); (116, 0xC9)]) 5 <> Some 0x36) /\
  GridProtocol.decode [(4, 84); (101, 115); (116, 0xC9)] = Return None.
Proof.
  split.
  - repeat split; (discriminate || reflexivity).
  - refine (proj1 (proj2 (proj2
      (proj1 (proj2 (proj2 grid_decode_rejections))
         [(4, 84); (101, 115); (116, 0xC9)] _ eq_refl))) _);
      discriminate.
Defined.

Lemma flatten_split : forall payload,
  JS.rem (JS.length payload) 2 = 0 -> flatten (split payload) = payload.
Proof.
  induction payload as [| b | b0 b1 payload IH _] using list_pair_ind;
    intros H.
  - reflexivity.
  - discriminate.
  - cbn [split flatten flat_map fst snd app]. fold (flatten (split payload)).
    rewrite IH; [reflexivity|].
    unfold JS.rem, JS.length in *. cbn [List.length] in H. dlia.
Qed.

Lemma pad_even payload : JS.rem (JS.length (pad payload)) 2 = 0.
Proof.
  unfold pad. destruct (Z.eqb_spec (JS.rem (JS.length payload) 2) 0) as [E|E];
    cbn [negb]; [assumption|].
  rewrite jslength_app. unfold JS.rem, JS.length in *.
  cbn [List.length]. dlia.
Qed.

Lemma pad_app payload : exists padding, pad payload = payload ++ padding.
Proof.
  unfold pad. destruct (negb _); [eauto|]. exists []. symmetry.
  apply app_nil_r.
Qed.

Lemma grid_checksum_eq bytes :
  GridProtocol.calculateChecksum bytes = Protocol.calculateChecksum bytes.
Proof. reflexivity. Qed.

(** Claim C10 as stated fails at a string that begins with U+FEFF: its
    4 bytes are within 1..200, and [decode(encode(m))] returns the string
    without the U+FEFF. *)
Lemma grid_leading_BOM_is_dropped :
  1 <= Protocol.getByteLength [0xFEFF; 65] <= 200 /\
  GridProtocol.encode [0xFEFF; 65]
  = Return [(4, 0xEF); (0xBB, 0xBF); (65, 0xAA)] /\
  GridProtocol.decode [(4, 0xEF); (0xBB, 0xBF); (65, 0xAA)]
  = Return (Some [65]).
Proof. repeat split; vm_compute; congruence. Qed.

(** Claim C10, amended: for every string [m] that is well formed (no lone
    surrogate), does not begin with U+FEFF and has a UTF-8 length between
    1 and 200 bytes, [GridProtocol.encode(m)] returns frames and
    [GridProtocol.decode] of them returns [m], whether or not the payload
    needed the padding byte. *)
Theorem grid_round_trip m :
  isString m = true -> isWellFormed m = true -> noLeadingBOM m = true ->
  1 <= Protocol.getByteLength m <= 200 ->
  exists frames,
    GridProtocol.encode m = Return frames /\
    GridProtocol.decode frames = Return (Some m).
Proof.
  intros Hs Hw Hb Hlen. unfold Protocol.getByteLength in Hlen.
  unfold GridProtocol.encode. cbv zeta. unfold MAX_MESSAGE_BYTES.
  rewrite Z.gtb_ltb, (proj2 (Z.ltb_ge _ _)) by lia.
  eexists. split; [reflexivity|].
  pose proof (encode_bytes m Hs) as Hbytes.
  pose proof (calculateChecksum_byte _ Hbytes) as Hc.
  rewrite <- grid_checksum_eq in Hc.
  set (data := Text.encode m) in *.
  set (c := GridProtocol.calculateChecksum data) in *.
  destruct (pad_app ([JS.length data] ++ data ++ [c])) as [padding Hpad].
  assert (Hflat : flatten (split (pad ([JS.length data] ++ data ++ [c])))
                  = [JS.length data] ++ data ++ [c] ++ padding).
  { rewrite flatten_split by apply pad_even.
    rewrite Hpad, <- !app_assoc. reflexivity. }
  assert (Hpb : forallb isByte padding = true).
  { unfold pad in Hpad. destruct (negb _).
    - apply app_inv_head in Hpad. subst padding. reflexivity.
    - rewrite <- (app_nil_r (_ ++ _ ++ _)) in Hpad at 1.
      apply app_inv_head in Hpad. subst padding. reflexivity. }
  assert (Heven : JS.rem (JS.length ([JS.length data] ++ data ++ [c] ++ padding)) 2 = 0).
  { rewrite <- Hflat, flatten_split by apply pad_even. apply pad_even. }
  destruct (split (pad ([JS.length data] ++ data ++ [c]))) as [|first frames]
    eqn:Hsplit.
  { cbn in Hflat. discriminate. }
  rewrite grid_decode_at
    by (rewrite Hflat, !forallb_app, Hbytes, Hpb; cbn [forallb];
        rewrite Hc, (proj2 (isByte_range _)) by lia; reflexivity).
  cbv zeta. rewrite Hflat.
  change (nth 0 ([JS.length data] ++ data ++ [c] ++ padding) 0)
    with (JS.length data).
  unfold MAX_MESSAGE_BYTES.
  rewrite (proj2 (Z.eqb_neq _ _)), Z.gtb_ltb, (proj2 (Z.ltb_ge _ _)) by lia.
  cbn [orb].
  assert (Hlenall : JS.length ([JS.length data] ++ data ++ [c] ++ padding)
                    = JS.length data + 2 + JS.length padding).
  { rewrite !jslength_app. unfold JS.length. cbn [List.length]. lia. }
  rewrite (proj2 (Z.ltb_ge _ _))
    by (rewrite Hlenall in *; pose proof (length_nonneg padding);
        unfold roundUpToEven, JS.rem in *; dlia).
  rewrite (slice_app_mid [JS.length data] data ([c] ++ padding))
    by (unfold JS.length; cbn [List.length]; lia).
  replace (nth_error _ _) with (Some c).
  2: { symmetry. rewrite app_assoc, nth_error_app2;
         rewrite ?List.length_app; unfold JS.length; cbn [List.length];
         [|lia].
       replace (_ - _)%nat with 0%nat by lia. reflexivity. }
  fold c. rewrite Z.eqb_refl. cbn [negb].
  unfold textOrNull, data. rewrite decode_encode by assumption. reflexivity.
Qed.

Lemma grid_round_trip_witness :
  (isString [65] = true /\ isWellFormed [65] = true /\
   noLeadingBOM [65] = true /\ 1 <= Protocol.getByteLength [65] <= 200) /\
  exists frames,
    GridProtocol.encode [65] = Return frames /\
    GridProtocol.decode frames = Return (Some [65]).
Proof.
  split.
  - repeat split; vm_compute; congruence.
  - apply (grid_round_trip [65]);
      try reflexivity; split; vm_compute; congruence.
Defined.

End GridFacts.

(** ** [BitReceiver] *)

Module BitReceiverFacts.

Import BitReceiver.

Lemma receiver_decode_failure r :
  Protocol.decode (bits r) = Return None -> tryDecode r = Return r.
Proof. intros H. unfold tryDecode. rewrite H. reflexivity. Qed.

Lemma receiver_decode_success r message :
  Protocol.decode (bits r) = Return (Some message) ->
  tryDecode r =
    Return (mk Idle [] 0 0 (running r)
              (calls r ++ [onStatusChange status_success; onMessage message;
                           onStatusChange status_idle])).
Proof.
  intros H. unfold tryDecode. rewrite H.
  unfold andThen, notifyStatus, call, reset. cbn.
  rewrite <- !app_assoc. reflexivity.
Qed.

Lemma handleTimeout_resets r :
  handleTimeout r =
    Return (mk Idle [] 0 0 (running r) (calls r ++ timeout_calls)).
Proof.
  unfold handleTimeout, andThen, notifyStatus, call, reset. cbn.
  rewrite <- !app_assoc. reflexivity.
Qed.

(** Claim C4: in the bits state, when a bit is sampled (the bit interval
    has elapsed and the detector returns a bit), the buffer with that bit
    holds more than 2000 bits and [Protocol.decode] of it returns [null],
    [processFrame] reports the progress, then calls [onStatusChange] with
    the error status ["timeout"], [onError] with type [timeout] and
    [onStatusChange] with idle, and leaves the receiver idle with an empty
    buffer and zeroed time stamps. *)
Theorem bits_timeout cfg now detectPilot bit r :
  state r = Bits ->
  Qle_bool (bitInterval cfg) (now - lastBitTime r) = true ->
  JS.length (bits r ++ [bit]) > MAX_BITS_TIMEOUT ->
  Protocol.decode (bits r ++ [bit]) = Return None ->
  exists progress partialText,
    processFrame cfg now detectPilot (Some bit) r =
      Return (mk Idle [] 0 0 (running r)
                (calls r
                   ++ onStatusChange (status_receiving progress partialText)
                   :: timeout_calls)).
Proof.
  intros Hst Hdue Hlen Hdec. unfold MAX_BITS_TIMEOUT in Hlen.
  unfold processFrame. rewrite Hst. unfold handleBitsState. rewrite Hdue.
  unfold andThen at 1. unfold andThen at 1. unfold notifyStatus at 1.
  unfold call at 1. cbn [state bits gapStartTime lastBitTime running calls].
  unfold andThen at 1.
  cbn [state bits gapStartTime lastBitTime running calls].
  rewrite (proj2 (Z.leb_le 24 _)) by lia.
  rewrite receiver_decode_failure by exact Hdec.
  cbn [state bits gapStartTime lastBitTime running calls].
  unfold MAX_BITS_TIMEOUT. rewrite Z.gtb_ltb, (proj2 (Z.ltb_lt _ _)) by lia.
  rewrite handleTimeout_resets.
  cbn [state bits gapStartTime lastBitTime running calls].
  rewrite <- app_assoc. do 2 eexists. reflexivity.
Qed.

Lemma bits_timeout_witness :
  (state nearTimeout = Bits /\
   Qle_bool (bitInterval ultrasonic) (200 - lastBitTime nearTimeout) = true /\
   JS.length (bits nearTimeout ++ [0]) > MAX_BITS_TIMEOUT /\
   Protocol.decode (bits nearTimeout ++ [0]) = Return None) /\
  exists progress partialText,
    processFrame ultrasonic 200 false (Some 0) nearTimeout =
      Return (mk Idle [] 0 0 (running nearTimeout)
                (calls nearTimeout
                   ++ onStatusChange (status_receiving progress partialText)
                   :: timeout_calls)).
Proof.
  assert (H1 : Qle_bool (bitInterval ultrasonic)
                 (200 - lastBitTime nearTimeout) = true) by reflexivity.
  assert (H2 : JS.length (bits nearTimeout ++ [0]) > MAX_BITS_TIMEOUT)
    by (vm_compute; reflexivity).
  assert (H3 : Protocol.decode (bits nearTimeout ++ [0]) = Return None)
    by (vm_compute; reflexivity).
  split; [repeat split; assumption|].
  exact (bits_timeout ultrasonic 200 false 0 nearTimeout eq_refl H1 H2 H3).
Defined.

(** The timeout scenario of the tests: 2001 alternating bits, one per
    tick, from an empty buffer in the bits state. *)
Lemma timeout_scenario :
  match feedBits ultrasonic 108 108 (alternating 2001)
          (mk Bits [] 0 0 true []) with
  | Return r =>
      state r = Idle /\ bits r = [] /\
      errorsOf (calls r) =
        [onError timeout
           "Receive timeout: too many bits without valid message"]
  | Throw _ => False
  end.
Proof. vm_compute. repeat split. Qed.

End BitReceiverFacts.

(** ** [ManualBitReceiver] *)

Module ManualFacts.

Import ManualBitReceiver.

Lemma manual_decode_success r message :
  Protocol.decode (bits r) = Return (Some message) ->
  tryDecode r =
    Return (mk Idle []
              (calls r ++ [onStatusChange status_success; onMessage message;
                           onStatusChange status_idle])).
Proof.
  intros H. unfold tryDecode. rewrite H.
  unfold reset, andThen, call. cbn. rewrite <- !app_assoc. reflexivity.
Qed.

Lemma manual_decode_failure r :
  Protocol.decode (bits r) = Return None ->
  tryDecode r =
    Return (mk (state r) (bits r)
              (calls r ++ [onStatusChange (status_error "decode failed");
                           onError checksum "Checksum verification failed"])).
Proof.
  intros H. unfold tryDecode. rewrite H.
  unfold andThen, call. cbn. rewrite <- !app_assoc. reflexivity.
Qed.

Lemma addBits_appends bs : forall r,
  addBits bs r = Return (mk (state r) (bits r ++ bs) (calls r)).
Proof.
  induction bs as [|b bs IH]; intros r.
  - cbn. rewrite app_nil_r. destruct r; reflexivity.
  - cbn [addBits fold_right]. unfold andThen at 1. unfold addBit at 1.
    fold (addBits bs). rewrite IH. cbn [state bits calls].
    rewrite <- app_assoc. reflexivity.
Qed.

(** Claim C3 against the code: the session of the test 'should call
    onError on decode failure' (pilot, gap, 40 alternating bits, one
    [tryDecode]).  The decode fails, the two error callbacks are called,
    and the receiver is still in the bits state with its 40 bits: the
    failure branch of [ManualBitReceiver.tryDecode] does not call
    [reset]. *)
Theorem tryDecode_failure_keeps_the_session :
  manualSession (alternating 40) new =
    Return (mk Bits (alternating 40)
              [onStatusChange status_pilot; onStatusChange status_gap;
               onStatusChange (status_receiving 0 None);
               onStatusChange (status_error "decode failed");
               onError checksum "Checksum verification failed"]).
Proof. vm_compute. reflexivity. Qed.

(** The test 'should call onMessage on successful decode'. *)
Lemma tryDecode_success_ends_the_session :
  manualSession (frameBits 1 [65] 65) new =
    Return (mk Idle []
              [onStatusChange status_pilot; onStatusChange status_gap;
               onStatusChange (status_receiving 0 None);
               onStatusChange status_success; onMessage [65];
               onStatusChange status_idle]).
Proof. vm_compute. reflexivity. Qed.

End ManualFacts.

(** ** [Protocol]: further properties *)

Module ProtocolMore.

Import Text TextFacts Protocol ProtocolFacts.

(** *** Bytes and bits *)

Lemma and_1_bit x : isBit (JS.and x 1) = true.
Proof.
  unfold JS.and. change (JS.ToInt32 1) with (2 ^ 1 - 1).
  rewrite land_low by lia. apply isBit_cases. dlia.
Qed.

Lemma byteToBits_bits b : forallb isBit (byteToBits b) = true.
Proof.
  unfold byteToBits. cbn [map forallb]. rewrite !and_1_bit. reflexivity.
Qed.

Lemma flat_map_byteToBits_bits bytes :
  forallb isBit (flat_map byteToBits bytes) = true.
Proof.
  induction bytes as [|b bytes IH]; [reflexivity|].
  cbn [flat_map]. rewrite forallb_app, byteToBits_bits, IH. reflexivity.
Qed.

Lemma frameBits_bits n data c : forallb isBit (frameBits n data c) = true.
Proof.
  unfold frameBits.
  rewrite !forallb_app, !byteToBits_bits, flat_map_byteToBits_bits.
  reflexivity.
Qed.

Lemma byteToBits_bitsToNumber b0 b1 b2 b3 b4 b5 b6 b7 :
  forallb isBit [b0; b1; b2; b3; b4; b5; b6; b7] = true ->
  byteToBits (bitsToNumber [b0; b1; b2; b3; b4; b5; b6; b7])
  = [b0; b1; b2; b3; b4; b5; b6; b7].
Proof. intros H. cbn [forallb] in H. bit_cases; vm_compute; reflexivity. Qed.

Lemma byte_bits_round_trip_lemmas :
  (forall b, isByte b = true ->
     bitsToNumber (byteToBits b) = b /\
     List.length (byteToBits b) = 8%nat /\
     forallb isBit (byteToBits b) = true) /\
  (forall bits,
     List.length bits = 8%nat -> forallb isBit bits = true ->
     isByte (bitsToNumber bits) = true /\
     byteToBits (bitsToNumber bits) = bits).
Proof.
  split.
  - intros b Hb. split; [apply bitsToNumber_byteToBits; assumption|].
    split; [reflexivity | apply byteToBits_bits].
  - intros bits Hlen Hbits.
    do 8 (destruct bits as [|? bits]; [discriminate|]).
    destruct bits; [|discriminate].
    split; [apply bitsToNumber_octet | apply byteToBits_bitsToNumber];
      assumption.
Qed.

(** Property X1: [byteToBits] and [bitsToNumber] are inverse to each other: a byte gives
    8 bits, most significant first, that [bitsToNumber] reads back as the
    byte; 8 bits give a byte whose bits [byteToBits] are the same 8 bits. *)
Theorem byte_bits_round_trip :
  (forall b, isByte b = true ->
     bitsToNumber (byteToBits b) = b /\
     List.length (byteToBits b) = 8%nat /\
     forallb isBit (byteToBits b) = true) /\
  (forall bits,
     List.length bits = 8%nat -> forallb isBit bits = true ->
     isByte (bitsToNumber bits) = true /\
     byteToBits (bitsToNumber bits) = bits).
Proof. exact byte_bits_round_trip_lemmas. Qed.

Lemma byte_bits_round_trip_witness :
  (isByte 0x41 = true /\
   List.length [0; 1; 0; 0; 0; 0; 0; 1] = 8%nat /\
   forallb isBit [0; 1; 0; 0; 0; 0; 0; 1] = true) /\
  bitsToNumber (byteToBits 0x41) = 0x41 /\
  byteToBits (bitsToNumber [0; 1; 0; 0; 0; 0; 0; 1])
  = [0; 1; 0; 0; 0; 0; 0; 1].
Proof.
  split; [repeat split|split].
  - exact (proj1 (proj1 byte_bits_round_trip 0x41 eq_refl)).
  - exact (proj2 (proj2 byte_bits_round_trip [0; 1; 0; 0; 0; 0; 0; 1]
                    eq_refl eq_refl)).
Defined.

(** *** The shape of an encoding *)

Lemma slice_app_l {A} (l x : list A) s e :
  0 <= s -> s <= e -> e <= JS.length l ->
  JS.slice (l ++ x) s e = JS.slice l s e.
Proof.
  intros Hs He Hl. unfold JS.slice, JS.length in *.
  rewrite skipn_app, firstn_app, length_skipn.
  replace (Z.to_nat (e - s) - (List.length l - Z.to_nat s))%nat with 0%nat
    by lia.
  cbn [firstn]. apply app_nil_r.
Qed.

Lemma frameBits_length n data c :
  JS.length (frameBits n data c) = 32 + 8 * JS.length data.
Proof.
  unfold frameBits.
  rewrite !jslength_app, flat_map_byteToBits_length, !byteToBits_length.
  change (JS.length PREAMBLE) with 8. change (JS.length START_MARKER) with 8.
  lia.
Qed.

Lemma frameBits_length_field n data c :
  JS.slice (frameBits n data c) 16 24 = byteToBits n.
Proof.
  unfold frameBits. rewrite (app_assoc PREAMBLE).
  apply slice_app_mid; reflexivity.
Qed.

Lemma encode_shape_lemma m bits :
  isString m = true -> Protocol.encode m = Return bits ->
  forallb isBit bits = true /\
  JS.length bits = calculateBitCount m /\
  JS.length bits = 32 + 8 * getByteLength m /\
  JS.slice bits 0 16 = PREAMBLE ++ START_MARKER /\
  findStartMarker bits = 8 /\
  bitsToNumber (JS.slice bits 16 24) = getByteLength m /\
  completeBytes (JS.slice bits 24 (24 + 8 * getByteLength m)) = Text.encode m
  /\
  bitsToNumber (JS.slice bits (24 + 8 * getByteLength m)
                  (32 + 8 * getByteLength m))
  = calculateChecksum (Text.encode m).
Proof.
  intros Hs He. rewrite encode_frameBits in He.
  destruct (getByteLength m >? MAX_MESSAGE_BYTES) eqn:Hlen; [discriminate|].
  injection He as <-.
  rewrite Z.gtb_ltb in Hlen. apply Z.ltb_ge in Hlen.
  unfold MAX_MESSAGE_BYTES in Hlen.
  pose proof (encode_bytes m Hs) as Hbytes.
  pose proof (calculateChecksum_byte _ Hbytes) as Hc.
  pose proof (length_nonneg (Text.encode m)) as H0.
  unfold calculateBitCount, getByteLength in *.
  split; [apply frameBits_bits|].
  split; [rewrite frameBits_length; lia|].
  split; [apply frameBits_length|].
  split; [reflexivity|].
  split.
  { unfold findStartMarker, frameBits.
    exact (findStartMarkerFrom_frame [] _ 0 ltac:(lia) eq_refl). }
  split.
  { rewrite frameBits_length_field.
    apply bitsToNumber_byteToBits, isByte_range. lia. }
  split.
  { unfold frameBits.
    rewrite (app_assoc START_MARKER), (app_assoc PREAMBLE).
    rewrite (slice_app_mid _ (flat_map byteToBits (Text.encode m)));
      [apply completeBytes_flat_map; assumption | reflexivity|].
    rewrite flat_map_byteToBits_length. lia. }
  unfold frameBits.
  rewrite <- (app_nil_r (byteToBits (calculateChecksum _))).
  rewrite (app_assoc (byteToBits _) (flat_map _ _)),
    (app_assoc START_MARKER), (app_assoc PREAMBLE).
  rewrite (slice_app_mid _ (byteToBits (calculateChecksum (Text.encode m)))).
  - apply bitsToNumber_byteToBits. assumption.
  - rewrite !jslength_app, byteToBits_length, flat_map_byteToBits_length.
    change (JS.length PREAMBLE) with 8.
    change (JS.length START_MARKER) with 8. lia.
  - rewrite byteToBits_length. lia.
Qed.

(** Property X2: the layout of an encoding.  When [Protocol.encode] returns
    the bits of [m], every element is 0 or 1, there are
    [calculateBitCount m] = 32 + 8 N of them for the UTF-8 length [N] of
    [m], the first 16 are [PREAMBLE] and [START_MARKER], the marker scan
    finds index 8, bits 16..23 read [N], the next 8 N bits are the UTF-8
    bytes of [m], and the last 8 bits read the XOR of those bytes. *)
Theorem encode_shape m bits :
  isString m = true -> Protocol.encode m = Return bits ->
  forallb isBit bits = true /\
  JS.length bits = calculateBitCount m /\
  JS.length bits = 32 + 8 * getByteLength m /\
  JS.slice bits 0 16 = PREAMBLE ++ START_MARKER /\
  findStartMarker bits = 8 /\
  bitsToNumber (JS.slice bits 16 24) = getByteLength m /\
  completeBytes (JS.slice bits 24 (24 + 8 * getByteLength m)) = Text.encode m
  /\
  bitsToNumber (JS.slice bits (24 + 8 * getByteLength m)
                  (32 + 8 * getByteLength m))
  = calculateChecksum (Text.encode m).
Proof. apply encode_shape_lemma. Qed.

Lemma encode_shape_witness :
  (isString msg_Test = true /\
   Protocol.encode msg_Test = Return (frameBits 4 [84; 101; 115; 116] 0x36))
  /\ JS.length (frameBits 4 [84; 101; 115; 116] 0x36)
     = calculateBitCount msg_Test.
Proof.
  split; [split; reflexivity|].
  exact (proj1 (proj2 (encode_shape msg_Test _ eq_refl eq_refl))).
Defined.

(** *** The marker scan *)

(** Property X3: [findStartMarker] returns the first index at which 8
    consecutive elements are the marker: it returns -1 exactly when no
    window of 8 elements is [START_MARKER], and it returns [i >= 0] exactly
    when the window at [i] is [START_MARKER] and no earlier window is. *)
Theorem findStartMarker_finds_the_first_run bits :
  (findStartMarker bits = -1 <->
   forall j, 0 <= j -> JS.slice bits j (j + 8) <> START_MARKER) /\
  (forall i, 0 <= i ->
     (findStartMarker bits = i <->
      JS.slice bits i (i + 8) = START_MARKER /\
      forall j, 0 <= j < i -> JS.slice bits j (j + 8) <> START_MARKER)).
Proof.
  destruct (findStartMarker_first_run bits) as [Hnone Hsome].
  split.
  - split; [exact Hnone | apply findStartMarker_none].
  - intros i Hi. split.
    + intros H. apply Hsome; [assumption | lia].
    + intros [Hm Hfirst].
      destruct (Z.eq_dec (findStartMarker bits) (-1)) as [E|E].
      { exfalso. exact (Hnone E i Hi Hm). }
      destruct (findStartMarker_range bits) as [|[H0 _]]; [contradiction|].
      destruct (Hsome _ eq_refl E) as [Hm' Hfirst'].
      destruct (Z.lt_trichotomy (findStartMarker bits) i) as [L|[L|L]].
      * exfalso. exact (Hfirst _ (conj H0 L) Hm').
      * exact L.
      * exfalso. exact (Hfirst' i (conj Hi L) Hm).
Qed.

Lemma findStartMarker_finds_the_first_run_witness :
  (0 <= 4 /\
   JS.slice [1; 1; 0; 1; 1; 1; 1; 1; 1; 1; 1; 1; 0] 4 (4 + 8) = START_MARKER)
  /\ findStartMarker [1; 1; 0; 1; 1; 1; 1; 1; 1; 1; 1; 1; 0] = 3.
Proof.
  split; [split; [lia | reflexivity]|].
  apply (proj2 (findStartMarker_finds_the_first_run _) 3 ltac:(lia)).
  split; [reflexivity|].
  intros j Hj.
  assert (C : j = 0 \/ j = 1 \/ j = 2) by lia.
  destruct C as [-> | [-> | ->]]; discriminate.
Defined.

(** *** Truncation *)

Lemma slice_firstn {A} (l : list A) k s e :
  0 <= s -> s <= e -> e <= Z.of_nat k ->
  JS.slice (firstn k l) s e = JS.slice l s e.
Proof.
  intros Hs He Hk. unfold JS.slice.
  rewrite skipn_firstn_comm, firstn_firstn. f_equal. lia.
Qed.

Lemma firstn_frameBits_marker n data c k :
  findStartMarker (firstn k (frameBits n data c))
  = if (k <? 16)%nat then -1 else 8.
Proof.
  unfold frameBits.
  do 16 (destruct k as [|k]; [reflexivity|]).
  change (S (S (S (S (S (S (S (S (S (S (S (S (S (S (S (S k))))))))))))))))
    with (16 + k)%nat.
  replace ((16 + k <? 16)%nat) with false
    by (symmetry; apply Nat.ltb_ge; lia).
  rewrite (app_assoc PREAMBLE).
  rewrite (firstn_app_2 k (PREAMBLE ++ START_MARKER)), <- app_assoc.
  exact (findStartMarkerFrom_frame [] _ 0 ltac:(lia) eq_refl).
Qed.

Lemma decode_truncated_lemma m bits k :
  isString m = true -> Protocol.encode m = Return bits ->
  (k < List.length bits)%nat ->
  Protocol.decode (firstn k bits) = Return None.
Proof.
  intros Hs He Hk. rewrite encode_frameBits in He.
  destruct (getByteLength m >? MAX_MESSAGE_BYTES) eqn:Hlen; [discriminate|].
  injection He as <-.
  rewrite Z.gtb_ltb in Hlen. apply Z.ltb_ge in Hlen.
  unfold MAX_MESSAGE_BYTES in Hlen. unfold getByteLength in *.
  pose proof (length_nonneg (Text.encode m)) as H0.
  set (n := JS.length (Text.encode m)) in *.
  set (data := Text.encode m) in *.
  set (c := calculateChecksum data) in *.
  pose proof (frameBits_length n data c) as HL. fold n in HL.
  pose proof (firstn_frameBits_marker n data c k) as HM.
  destruct (Nat.ltb_spec k 16) as [K|K].
  { apply decode_no_marker. exact HM. }
  assert (HB : forallb isBit (firstn k (frameBits n data c)) = true)
    by (apply forallb_firstn, frameBits_bits).
  rewrite (decode_at _ 8 HB HM ltac:(lia)). cbv zeta.
  assert (HK : JS.length (firstn k (frameBits n data c)) = Z.of_nat k).
  { unfold JS.length in *. rewrite length_firstn. lia. }
  rewrite HK.
  destruct (Z.ltb_spec (Z.of_nat k) (8 + 16)); [reflexivity|].
  replace (JS.slice (firstn k (frameBits n data c)) (8 + 8) (8 + 16))
    with (byteToBits n)
    by (rewrite slice_firstn by lia; symmetry;
        apply frameBits_length_field).
  rewrite bitsToNumber_byteToBits by (apply isByte_range; lia).
  destruct (_ || _); [reflexivity|].
  rewrite (proj2 (Z.ltb_lt _ _)); [reflexivity|].
  unfold JS.length in HL. lia.
Qed.

(** Property X4: no strict prefix of an encoding decodes.  If
    [Protocol.encode] returns [bits] for [m], then [Protocol.decode]
    returns [null] on the first [k] bits for every [k] below the length of
    [bits]: a receiver that decodes after every bit gets nothing before
    the last bit has arrived. *)
Theorem decode_rejects_truncated_encoding m bits k :
  isString m = true -> Protocol.encode m = Return bits ->
  (k < List.length bits)%nat ->
  Protocol.decode (firstn k bits) = Return None.
Proof. apply decode_truncated_lemma. Qed.

Lemma decode_rejects_truncated_encoding_witness :
  (isString msg_Test = true /\
   Protocol.encode msg_Test = Return frame_Test /\
   (54 < List.length frame_Test)%nat) /\
  Protocol.decode (firstn 54 frame_Test) = Return None.
Proof.
  assert (L : (54 < List.length frame_Test)%nat) by (vm_compute; lia).
  split; [repeat split; (reflexivity || exact L)|].
  exact (decode_rejects_truncated_encoding msg_Test _ 54 eq_refl eq_refl L).
Defined.

(** *** Single-bit errors *)

Lemma xor_is_lxor a b :
  isByte a = true -> isByte b = true -> JS.xor a b = Z.lxor a b.
Proof.
  intros Ha Hb. apply isByte_range in Ha. apply isByte_range in Hb.
  unfold JS.xor. rewrite !ToInt32_small by lia. reflexivity.
Qed.

Lemma checksum_from acc bytes :
  isByte acc = true -> forallb isByte bytes = true ->
  fold_left (fun checksum byte => JS.xor checksum byte) bytes acc
  = Z.lxor acc (calculateChecksum bytes).
Proof.
  unfold calculateChecksum. revert acc.
  induction bytes as [|x bytes IH]; intros acc Ha Hb.
  - cbn. rewrite Z.lxor_0_r. reflexivity.
  - cbn [forallb] in Hb. apply andb_true_iff in Hb. destruct Hb as [Hx Hbs].
    cbn [fold_left].
    rewrite IH by (try apply xor_bytes; assumption).
    rewrite (IH (JS.xor 0 x)) by (try apply xor_bytes; auto).
    rewrite !xor_is_lxor by auto.
    rewrite Z.lxor_0_l, Z.lxor_assoc. reflexivity.
Qed.

Lemma checksum_app a b :
  forallb isByte a = true -> forallb isByte b = true ->
  calculateChecksum (a ++ b)
  = Z.lxor (calculateChecksum a) (calculateChecksum b).
Proof.
  intros Ha Hb. unfold calculateChecksum at 1. rewrite fold_left_app.
  fold (calculateChecksum a).
  apply checksum_from; [apply calculateChecksum_byte|]; assumption.
Qed.

Lemma lxor_cancel_l a b c : Z.lxor a b = Z.lxor a c -> b = c.
Proof.
  intros H. apply (f_equal (Z.lxor a)) in H.
  rewrite <- !Z.lxor_assoc, Z.lxor_nilpotent, !Z.lxor_0_l in H. exact H.
Qed.

Lemma checksum_detects_one_byte a x y b :
  forallb isByte a = true -> forallb isByte b = true ->
  isByte x = true -> isByte y = true -> x <> y ->
  calculateChecksum (a ++ x :: b) <> calculateChecksum (a ++ y :: b).
Proof.
  intros Ha Hb Hx Hy Hne H.
  assert (Bx : forallb isByte (x :: b) = true)
    by (cbn [forallb]; rewrite Hx; exact Hb).
  assert (By : forallb isByte (y :: b) = true)
    by (cbn [forallb]; rewrite Hy; exact Hb).
  rewrite !checksum_app in H by assumption.
  apply lxor_cancel_l in H.
  change (x :: b) with ([x] ++ b) in H. change (y :: b) with ([y] ++ b) in H.
  rewrite !checksum_app in H by (try assumption; cbn; rewrite ?andb_true_r;
                                 assumption).
  rewrite (Z.lxor_comm _ (calculateChecksum b)),
    (Z.lxor_comm _ (calculateChecksum b)) in H.
  apply lxor_cancel_l in H.
  unfold calculateChecksum in H. cbn [fold_left] in H.
  rewrite !xor_is_lxor, !Z.lxor_0_l in H by auto. contradiction.
Qed.

Lemma flipAt_app_r a b q :
  flipAt (List.length a + q) (a ++ b) = a ++ flipAt q b.
Proof. induction a as [|x a IH]; [reflexivity|]. cbn. rewrite IH. reflexivity. Qed.

Lemma flipAt_app_l a b q :
  (q < List.length a)%nat -> flipAt q (a ++ b) = flipAt q a ++ b.
Proof.
  revert q. induction a as [|x a IH]; intros q Hq; [cbn in Hq; lia|].
  destruct q as [|q]; [reflexivity|].
  cbn. rewrite IH by (cbn in Hq; lia). reflexivity.
Qed.

Lemma xor_1_bit b :
  isBit b = true -> isBit (JS.xor b 1) = true /\ JS.xor b 1 <> b.
Proof.
  intros H. apply isBit_cases in H.
  destruct H as [-> | ->]; split; (reflexivity || discriminate).
Qed.

Lemma flipAt_bits : forall l q,
  forallb isBit l = true -> (q < List.length l)%nat ->
  List.length (flipAt q l) = List.length l /\
  forallb isBit (flipAt q l) = true /\ flipAt q l <> l.
Proof.
  induction l as [|b l IH]; intros q Hb Hq; [cbn in Hq; lia|].
  cbn [forallb] in Hb. apply andb_true_iff in Hb. destruct Hb as [Hb Hl].
  destruct q as [|q]; cbn [flipAt List.length forallb].
  - destruct (xor_1_bit b Hb) as [H1 H2]. rewrite H1, Hl.
    repeat split. congruence.
  - destruct (IH q Hl ltac:(cbn in Hq; lia)) as (L & B & N).
    rewrite L, Hb, B. repeat split. congruence.
Qed.

Lemma flipAt_octet l q :
  List.length l = 8%nat -> forallb isBit l = true -> (q < 8)%nat ->
  List.length (flipAt q l) = 8%nat /\
  forallb isBit (flipAt q l) = true /\ flipAt q l <> l.
Proof.
  intros Hl Hb Hq. rewrite <- Hl at 1. apply flipAt_bits; [assumption|lia].
Qed.

Lemma flipAt_byteToBits x q :
  isByte x = true -> (q < 8)%nat ->
  exists y, flipAt q (byteToBits x) = byteToBits y /\
            isByte y = true /\ y <> x.
Proof.
  intros Hx Hq.
  destruct (flipAt_octet (byteToBits x) q eq_refl (byteToBits_bits x) Hq)
    as (Hl & Hb & Hne).
  destruct (proj2 byte_bits_round_trip_lemmas (flipAt q (byteToBits x)) Hl Hb)
    as [Hy Hr].
  exists (bitsToNumber (flipAt q (byteToBits x))).
  split; [symmetry; exact Hr|]. split; [exact Hy|].
  intros E. apply Hne. rewrite <- Hr, E. reflexivity.
Qed.

Lemma flipAt_data : forall data q,
  forallb isByte data = true -> (q < 8 * List.length data)%nat ->
  exists a x b y,
    data = a ++ x :: b /\ isByte y = true /\ x <> y /\
    flipAt q (flat_map byteToBits data) = flat_map byteToBits (a ++ y :: b).
Proof.
  induction data as [|x data IH]; intros q Hd Hq; [cbn in Hq; lia|].
  cbn [forallb] in Hd. apply andb_true_iff in Hd. destruct Hd as [Hx Hd].
  cbn [flat_map].
  destruct (Nat.ltb_spec q 8) as [Q|Q].
  - destruct (flipAt_byteToBits x q Hx Q) as (y & Hy & Hyb & Hne).
    exists [], x, data, y. repeat split; try assumption; [congruence|].
    rewrite flipAt_app_l by exact Q. rewrite Hy. reflexivity.
  - destruct (IH (q - 8)%nat Hd) as (a & x' & b & y & -> & Hy & Hne & Hf).
    { cbn [List.length] in Hq. lia. }
    exists (x :: a), x', b, y. repeat split; try assumption.
    replace q with (List.length (byteToBits x) + (q - 8))%nat
      by (change (List.length (byteToBits x)) with 8%nat; lia).
    rewrite flipAt_app_r, Hf. reflexivity.
Qed.

Lemma bit_flip_lemma m bits p :
  isString m = true -> Protocol.encode m = Return bits ->
  (24 <= p < List.length bits)%nat ->
  Protocol.decode (flipAt p bits) = Return None.
Proof.
  intros Hs He Hp. rewrite encode_frameBits in He.
  destruct (getByteLength m >? MAX_MESSAGE_BYTES) eqn:Hlen; [discriminate|].
  injection He as <-.
  rewrite Z.gtb_ltb in Hlen. apply Z.ltb_ge in Hlen.
  unfold MAX_MESSAGE_BYTES in Hlen. unfold getByteLength in *.
  pose proof (encode_bytes m Hs) as Hbytes.
  pose proof (calculateChecksum_byte _ Hbytes) as Hc.
  set (data := Text.encode m) in *.
  set (c := calculateChecksum data) in *.
  assert (HP : (p < 32 + 8 * List.length data)%nat).
  { pose proof (frameBits_length (JS.length data) data c) as HL.
    unfold JS.length in HL, Hp. lia. }
  unfold frameBits in *.
  rewrite (app_assoc START_MARKER), (app_assoc PREAMBLE).
  replace p with (List.length ((PREAMBLE ++ START_MARKER)
                                 ++ byteToBits (JS.length data))
                  + (p - 24))%nat
    by (rewrite !List.length_app; cbn [List.length PREAMBLE START_MARKER];
        change (List.length (byteToBits (JS.length data))) with 8%nat; lia).
  rewrite flipAt_app_r.
  assert (LD : List.length (flat_map byteToBits data)
               = (8 * List.length data)%nat).
  { pose proof (flat_map_byteToBits_length data) as H.
    unfold JS.length in H. lia. }
  destruct (Nat.ltb_spec (p - 24) (8 * List.length data)) as [Q|Q].
  - destruct (flipAt_data data (p - 24) Hbytes Q)
      as (a & x & b & y & Hdata & Hy & Hne & Hf).
    rewrite flipAt_app_l by (rewrite LD; exact Q).
    rewrite Hf, <- !app_assoc.
    assert (Hab : forallb isByte a = true /\ isByte x = true /\
                  forallb isByte b = true).
    { rewrite Hdata, forallb_app in Hbytes. cbn [forallb] in Hbytes.
      apply andb_true_iff in Hbytes. destruct Hbytes as [? Hxb].
      apply andb_true_iff in Hxb. tauto. }
    destruct Hab as (Ha & Hx & Hb).
    assert (Hlen' : JS.length (a ++ y :: b) = JS.length data).
    { rewrite Hdata. unfold JS.length. rewrite !List.length_app.
      reflexivity. }
    rewrite <- Hlen'.
    change (Protocol.decode
              ([] ++ frameBits (JS.length (a ++ y :: b)) (a ++ y :: b) c)
            = Return None).
    rewrite decode_frameBits;
      [| reflexivity
       | rewrite forallb_app; cbn [forallb]; rewrite Ha, Hy, Hb; reflexivity
       | assumption | lia].
    replace (c =? calculateChecksum (a ++ y :: b)) with false.
    + destruct (_ || _); reflexivity.
    + symmetry. apply Z.eqb_neq. unfold c. rewrite Hdata.
      apply checksum_detects_one_byte; assumption.
  - replace (p - 24)%nat
      with (List.length (flat_map byteToBits data)
            + (p - 24 - 8 * List.length data))%nat by lia.
    rewrite flipAt_app_r.
    destruct (flipAt_byteToBits c (p - 24 - 8 * List.length data) Hc)
      as (c' & Hf & Hc' & Hne); [lia|].
    rewrite Hf, <- !app_assoc.
    change (Protocol.decode ([] ++ frameBits (JS.length data) data c')
            = Return None).
    rewrite decode_frameBits by (reflexivity || assumption || lia).
    rewrite (proj2 (Z.eqb_neq c' (calculateChecksum data)) Hne).
    destruct (_ || _); reflexivity.
Qed.


(** *** What [decode] accepts *)

Lemma findStartMarkerFrom_app rest extra : forall i0,
  0 <= i0 -> findStartMarkerFrom i0 rest <> -1 ->
  findStartMarkerFrom i0 (rest ++ extra) = findStartMarkerFrom i0 rest.
Proof.
  induction rest as [|b rest IH]; intros i0 Hi0 H.
  - exfalso. apply H. reflexivity.
  - rewrite findStartMarkerFrom_unfold in H.
    rewrite (findStartMarkerFrom_unfold i0 (b :: rest)),
      (findStartMarkerFrom_unfold i0 ((b :: rest) ++ extra)).
    destruct (allOnes (b :: rest)) as [[|]|] eqn:E.
    + rewrite (allOnes_app _ _ _ E). reflexivity.
    + rewrite (allOnes_app _ _ _ E). cbn [app]. apply IH; [lia | exact H].
    + exfalso. apply H. reflexivity.
Qed.

Lemma decode_accepts bits i text :
  forallb isBit bits = true -> findStartMarker bits = i -> i <> -1 ->
  (Protocol.decode bits = Return (Some text) <-> validFrameAt bits i text).
Proof.
  intros Hb Hi Hne. rewrite (decode_at bits i Hb Hi Hne).
  unfold validFrameAt. cbv zeta. unfold MAX_MESSAGE_BYTES.
  set (N := bitsToNumber (JS.slice bits (i + 8) (i + 16))).
  set (data := completeBytes _). set (received := bitsToNumber _).
  destruct (findStartMarker_range bits) as [|[H0 _]]; [congruence|].
  rewrite Hi in H0.
  pose proof (length_nonneg bits) as HL.
  rewrite Z.gtb_ltb.
  destruct (Z.ltb_spec (JS.length bits) (i + 16)).
  { split; [discriminate|]. intros (HN & Hlen & _). lia. }
  destruct (Z.ltb_spec 200 N); cbn [orb].
  { split; [discriminate|]. intros (HN & _). lia. }
  destruct (Z.eqb_spec N 0).
  { split; [discriminate|]. intros (HN & _). lia. }
  destruct (Z.ltb_spec (JS.length bits) (i + 24 + 8 * N)).
  { split; [discriminate|]. intros (_ & Hlen & _). lia. }
  destruct (Z.eqb_spec received (calculateChecksum data)); cbn [negb].
  2: { split; [discriminate|]. intros (_ & _ & Hc & _). contradiction. }
  unfold textOrNull.
  assert (HNb : 0 <= N).
  { pose proof (bitsToNumber_slice8 bits (i + 8) Hb ltac:(lia) ltac:(lia))
      as HNb.
    replace (i + 8 + 8) with (i + 16) in HNb by lia.
    apply isByte_range in HNb. fold N in HNb. lia. }
  destruct (Text.decode data) as [t|ex]; split.
  - intros Ht. injection Ht as ->. repeat split; (lia || assumption).
  - intros (_ & _ & _ & Ht). congruence.
  - discriminate.
  - intros (_ & _ & _ & Ht). discriminate.
Qed.

(** Property X5: what [Protocol.decode] accepts.  On a list of bits it
    returns a text exactly when, at the first run of 8 ones, a complete
    frame follows whose length field is in 1..200, whose checksum byte is
    the XOR of its data bytes, and whose data bytes are valid UTF-8 for
    that text; in every other case it returns [null]. *)
Theorem decode_returns_only_checked_frames bits text :
  forallb isBit bits = true ->
  (Protocol.decode bits = Return (Some text) <->
   exists i, 0 <= i /\
     JS.slice bits i (i + 8) = START_MARKER /\
     (forall j, 0 <= j < i -> JS.slice bits j (j + 8) <> START_MARKER) /\
     validFrameAt bits i text).
Proof.
  intros Hb. split.
  - intros H.
    destruct (Z.eq_dec (findStartMarker bits) (-1)) as [E|E].
    { rewrite (decode_no_marker bits E) in H. discriminate. }
    destruct (findStartMarker_range bits) as [|[H0 _]]; [contradiction|].
    exists (findStartMarker bits).
    destruct (proj2 (findStartMarker_first_run bits) _ eq_refl E) as [Hm Hf].
    split; [exact H0|]. split; [exact Hm|]. split; [exact Hf|].
    apply (decode_accepts bits _ text Hb eq_refl E). exact H.
  - intros (i & Hi & Hm & Hf & Hv).
    assert (E : findStartMarker bits = i).
    { destruct (Z.eq_dec (findStartMarker bits) (-1)) as [E|E].
      { exfalso. exact (proj1 (findStartMarker_first_run bits) E i Hi Hm). }
      destruct (findStartMarker_range bits) as [|[H0 _]]; [contradiction|].
      destruct (proj2 (findStartMarker_first_run bits) _ eq_refl E)
        as [Hm' Hf'].
      destruct (Z.lt_trichotomy (findStartMarker bits) i) as [L|[L|L]].
      - exfalso. exact (Hf _ (conj H0 L) Hm').
      - exact L.
      - exfalso. exact (Hf' i (conj Hi L) Hm). }
    apply (decode_accepts bits i text Hb E ltac:(lia)). exact Hv.
Qed.

Lemma decode_returns_only_checked_frames_witness :
  (forallb isBit frame_Test = true /\
   Protocol.decode frame_Test = Return (Some msg_Test)) /\
  exists i, 0 <= i /\
    JS.slice frame_Test i (i + 8) = START_MARKER /\
    (forall j, 0 <= j < i -> JS.slice frame_Test j (j + 8) <> START_MARKER)
    /\ validFrameAt frame_Test i msg_Test.
Proof.
  assert (H : Protocol.decode frame_Test = Return (Some msg_Test))
    by (vm_compute; reflexivity).
  split; [split; [reflexivity | exact H]|].
  exact (proj1 (decode_returns_only_checked_frames frame_Test msg_Test
                  eq_refl) H).
Defined.

(** Property X6: bits after a frame do not matter.  If [Protocol.decode]
    returns a text on [bits], it returns the same text on [bits] followed
    by any further bits. *)
Theorem decode_ignores_trailing_bits bits extra text :
  forallb isBit bits = true -> forallb isBit extra = true ->
  Protocol.decode bits = Return (Some text) ->
  Protocol.decode (bits ++ extra) = Return (Some text).
Proof.
  intros Hb He H.
  destruct (Z.eq_dec (findStartMarker bits) (-1)) as [E|E].
  { rewrite (decode_no_marker bits E) in H. discriminate. }
  destruct (findStartMarker_range bits) as [|[H0 H8]]; [contradiction|].
  apply (decode_accepts bits _ text Hb eq_refl E) in H.
  assert (E' : findStartMarker (bits ++ extra) = findStartMarker bits).
  { unfold findStartMarker.
    apply findStartMarkerFrom_app; [lia | exact E]. }
  apply (decode_accepts (bits ++ extra) (findStartMarker bits) text);
    [rewrite forallb_app, Hb, He; reflexivity | exact E' | exact E |].
  unfold validFrameAt in *. cbv zeta in *.
  set (i := findStartMarker bits) in *.
  destruct H as (HN & Hlen & Hc & Ht).
  rewrite (slice_app_l bits extra (i + 8) (i + 16)) by lia.
  set (N := bitsToNumber (JS.slice bits (i + 8) (i + 16))) in *.
  rewrite (slice_app_l bits extra (i + 16) (i + 16 + 8 * N)) by lia.
  rewrite (slice_app_l bits extra (i + 16 + 8 * N) (i + 24 + 8 * N)) by lia.
  rewrite jslength_app. pose proof (length_nonneg extra).
  repeat split; (lia || assumption).
Qed.

Lemma decode_ignores_trailing_bits_witness :
  (forallb isBit frame_Test = true /\ forallb isBit [1; 0; 1; 1] = true /\
   Protocol.decode frame_Test = Return (Some msg_Test)) /\
  Protocol.decode (frame_Test ++ [1; 0; 1; 1]) = Return (Some msg_Test).
Proof.
  assert (H : Protocol.decode frame_Test = Return (Some msg_Test))
    by (vm_compute; reflexivity).
  split; [repeat split; (reflexivity || exact H)|].
  exact (decode_ignores_trailing_bits frame_Test [1; 0; 1; 1] msg_Test
           eq_refl eq_refl H).
Defined.

(** *** Failed frames *)

Lemma dead_frame_lemma bits extra :
  forallb isBit bits = true -> forallb isBit extra = true ->
  deadFrame bits = true ->
  Protocol.decode (bits ++ extra) = Return None /\
  deadFrame (bits ++ extra) = true.
Proof.
  intros Hb He Hd. unfold deadFrame in Hd. cbv zeta in Hd.
  apply andb_true_iff in Hd. destruct Hd as [Hd Hnone].
  apply andb_true_iff in Hd. destruct Hd as [Hd HN].
  apply andb_true_iff in Hd. destruct Hd as [Hi Hlen].
  apply Z.leb_le in Hi, Hlen.
  set (i := findStartMarker bits) in *.
  assert (E : i <> -1) by lia.
  assert (E' : findStartMarker (bits ++ extra) = i).
  { unfold findStartMarker. apply findStartMarkerFrom_app; [lia | exact E]. }
  assert (Hbe : forallb isBit (bits ++ extra) = true)
    by (rewrite forallb_app, Hb, He; reflexivity).
  pose proof (length_nonneg extra) as Hx.
  assert (D : Protocol.decode (bits ++ extra) = Return None).
  { rewrite (decode_at (bits ++ extra) i Hbe E' E). cbv zeta.
    destruct (Protocol.decode bits) as [[text|]|e] eqn:Hdec;
      try discriminate.
    rewrite (decode_at bits i Hb eq_refl E) in Hdec. cbv zeta in Hdec.
    rewrite (slice_app_l bits extra (i + 8) (i + 16)) by lia.
    set (N := bitsToNumber (JS.slice bits (i + 8) (i + 16))) in *.
    rewrite jslength_app.
    rewrite (proj2 (Z.ltb_ge _ _)) in Hdec by lia.
    rewrite (proj2 (Z.ltb_ge (JS.length bits + JS.length extra) (i + 16)))
      by lia.
    destruct ((N >? MAX_MESSAGE_BYTES) || (N =? 0)) eqn:Hbad; [reflexivity|].
    apply orb_false_iff in Hbad. destruct Hbad as [Hbig Hzero].
    rewrite Hzero, Hbig in HN. cbn [orb] in HN. apply Z.leb_le in HN.
    rewrite (proj2 (Z.ltb_ge _ _)) in Hdec by lia.
    rewrite (proj2 (Z.ltb_ge (JS.length bits + JS.length extra)
                      (i + 24 + 8 * N))) by lia.
    assert (HN0 : 0 <= N).
    { pose proof (bitsToNumber_slice8 bits (i + 8) Hb ltac:(lia) ltac:(lia))
        as HNb.
      replace (i + 8 + 8) with (i + 16) in HNb by lia. fold N in HNb.
      apply isByte_range in HNb. lia. }
    rewrite (slice_app_l bits extra (i + 16) (i + 16 + 8 * N)) by lia.
    rewrite (slice_app_l bits extra (i + 16 + 8 * N) (i + 24 + 8 * N))
      by lia.
    exact Hdec. }
  split; [exact D|].
  unfold deadFrame. cbv zeta. rewrite E', D.
  rewrite (slice_app_l bits extra (i + 8) (i + 16)) by lia.
  rewrite jslength_app.
  rewrite (proj2 (Z.leb_le 0 i)), (proj2 (Z.leb_le (i + 16) _)) by lia.
  cbn [andb]. rewrite andb_true_r.
  apply orb_true_iff in HN. destruct HN as [HN|HN].
  - rewrite HN. reflexivity.
  - apply Z.leb_le in HN. rewrite (proj2 (Z.leb_le _ _)) by lia.
    apply orb_true_r.
Qed.

(** Property X7: a failed frame stays in the way.  Let the first run of 8
    ones of [bits] be followed by a length field that reads 0 or more than
    200, or by a complete frame on which [Protocol.decode] returns [null]
    ([deadFrame]).  Then [Protocol.decode] returns [null] on [bits]
    followed by any further bits, and the longer list is in the same
    condition: [decode] only ever looks at the first marker. *)
Theorem dead_frame_blocks_decode bits extra :
  forallb isBit bits = true -> forallb isBit extra = true ->
  deadFrame bits = true ->
  Protocol.decode (bits ++ extra) = Return None /\
  deadFrame (bits ++ extra) = true.
Proof. exact (dead_frame_lemma bits extra). Qed.

Lemma dead_frame_blocks_decode_witness :
  (forallb isBit (flipAt 30 frame_Test) = true /\
   forallb isBit frame_Test = true /\
   deadFrame (flipAt 30 frame_Test) = true) /\
  Protocol.decode (flipAt 30 frame_Test ++ frame_Test) = Return None.
Proof.
  split; [repeat split|].
  exact (proj1 (dead_frame_blocks_decode (flipAt 30 frame_Test) frame_Test
                  eq_refl eq_refl eq_refl)).
Defined.

Lemma flipAt_dead m bits p :
  isString m = true -> Protocol.encode m = Return bits ->
  (24 <= p < List.length bits)%nat ->
  forallb isBit (flipAt p bits) = true /\ deadFrame (flipAt p bits) = true.
Proof.
  intros Hs He Hp.
  pose proof (bit_flip_lemma m bits p Hs He Hp) as Hnone.
  rewrite encode_frameBits in He.
  destruct (getByteLength m >? MAX_MESSAGE_BYTES) eqn:Hlen; [discriminate|].
  injection He as <-.
  rewrite Z.gtb_ltb in Hlen. apply Z.ltb_ge in Hlen.
  unfold MAX_MESSAGE_BYTES in Hlen.
  set (N := getByteLength m) in *.
  assert (HN0 : 0 <= N) by apply length_nonneg.
  set (data := Text.encode m) in *.
  set (c := calculateChecksum data) in *.
  destruct (flipAt_bits (frameBits N data c) p (frameBits_bits _ _ _)
              ltac:(lia)) as (HL & Hbits & _).
  split; [exact Hbits|].
  pose proof (frameBits_length N data c) as HF.
  change (JS.length data) with N in HF.
  assert (HL' : JS.length (flipAt p (frameBits N data c)) = 32 + 8 * N).
  { unfold JS.length in *. lia. }
  assert (Hsplit : flipAt p (frameBits N data c)
                   = PREAMBLE ++ START_MARKER
                       ++ (byteToBits N
                             ++ flipAt (p - 24)
                                  (flat_map byteToBits data ++ byteToBits c))).
  { unfold frameBits.
    rewrite (app_assoc START_MARKER), (app_assoc PREAMBLE).
    replace p with (List.length ((PREAMBLE ++ START_MARKER)
                                   ++ byteToBits N) + (p - 24))%nat at 1
      by (rewrite !List.length_app; cbn [List.length PREAMBLE START_MARKER];
          change (List.length (byteToBits N)) with 8%nat; lia).
    rewrite flipAt_app_r, <- !app_assoc. reflexivity. }
  assert (Hi : findStartMarker (flipAt p (frameBits N data c)) = 8).
  { rewrite Hsplit. unfold findStartMarker.
    apply (findStartMarkerFrom_frame [] _ 0); [lia | reflexivity]. }
  assert (HNf : bitsToNumber
                  (JS.slice (flipAt p (frameBits N data c)) 16 24) = N).
  { rewrite Hsplit, (app_assoc PREAMBLE), (app_assoc (PREAMBLE ++ _)).
    rewrite (slice_app_l ((PREAMBLE ++ START_MARKER) ++ byteToBits N) _ 16 24)
      by (try lia; rewrite !jslength_app, byteToBits_length; cbn; lia).
    rewrite <- (app_nil_r ((PREAMBLE ++ START_MARKER) ++ byteToBits N)).
    rewrite (slice_app_mid (PREAMBLE ++ START_MARKER) (byteToBits N) [])
      by reflexivity.
    apply bitsToNumber_byteToBits. apply isByte_range. lia. }
  unfold deadFrame. cbv zeta. rewrite Hi, Hnone, HL'.
  change (8 + 8) with 16. change (8 + 16) with 24.
  rewrite HNf.
  rewrite (proj2 (Z.leb_le 0 8)), (proj2 (Z.leb_le 24 _)) by lia.
  replace (8 + 24 + 8 * N) with (32 + 8 * N) by lia.
  rewrite Z.leb_refl, !orb_true_r. reflexivity.
Qed.

(** Property X8: a single flipped bit in the data or the checksum is
    detected, and fatal for what follows.  If [Protocol.encode] returns
    [bits] for [m] and [p] is the index of a bit after the length field
    (24 <= p), then [Protocol.decode] returns [null] on [bits] with bit
    [p] flipped, and also when any further bits follow it: the damaged
    frame is a failed frame in the sense of [deadFrame]. *)
Theorem decode_detects_bit_flip m bits p extra :
  isString m = true -> Protocol.encode m = Return bits ->
  (24 <= p < List.length bits)%nat ->
  forallb isBit extra = true ->
  Protocol.decode (flipAt p bits) = Return None /\
  Protocol.decode (flipAt p bits ++ extra) = Return None /\
  deadFrame (flipAt p bits) = true.
Proof.
  intros Hs He Hp Hx.
  destruct (flipAt_dead m bits p Hs He Hp) as [Hb Hd].
  split; [exact (bit_flip_lemma m bits p Hs He Hp)|].
  split; [exact (proj1 (dead_frame_lemma _ extra Hb Hx Hd)) | exact Hd].
Qed.

Lemma decode_detects_bit_flip_witness :
  (isString msg_Test = true /\
   Protocol.encode msg_Test = Return frame_Test /\
   (24 <= 30 < List.length frame_Test)%nat /\
   forallb isBit frame_Test = true) /\
  Protocol.decode (flipAt 30 frame_Test ++ frame_Test) = Return None.
Proof.
  assert (L : (24 <= 30 < List.length frame_Test)%nat) by (vm_compute; lia).
  split; [repeat split; (reflexivity || apply L)|].
  exact (proj1 (proj2 (decode_detects_bit_flip msg_Test _ 30 frame_Test
                         eq_refl eq_refl L eq_refl))).
Defined.

(** *** Byte lengths *)

Lemma utf8EncodeCodePoint_length c :
  (1 <= List.length (utf8EncodeCodePoint c) <= 4)%nat /\
  (c <= 0xFFFF -> (List.length (utf8EncodeCodePoint c) <= 3)%nat) /\
  (0xFFFF < c -> List.length (utf8EncodeCodePoint c) = 4%nat).
Proof.
  unfold utf8EncodeCodePoint.
  destruct (Z.leb_spec c 0x7F); [cbn; lia|].
  destruct (Z.leb_spec c 0x7FF); [cbn; lia|].
  destruct (Z.leb_spec c 0xFFFF); cbn [List.length]; lia.
Qed.

Lemma encode_length_bounds m :
  isString m = true ->
  (List.length m <= List.length (Text.encode m) <= 3 * List.length m)%nat.
Proof.
  unfold Text.encode.
  induction m as [| u | u l m IHm IHlm] using list_pair_ind; intros Hm.
  - cbn. lia.
  - cbn in Hm. rewrite andb_true_r in Hm. cbn [toScalarValues].
    destruct (isHighSurrogate u) eqn:Hh; [cbn; lia|].
    destruct (isLowSurrogate u) eqn:Hl; [cbn; lia|].
    cbn [flat_map List.length]. rewrite app_nil_r. surrogates.
    pose proof (utf8EncodeCodePoint_length u). lia.
  - assert (Hu : isCodeUnit u = true)
      by (cbn in Hm; apply andb_true_iff in Hm; tauto).
    assert (Hlm : isString (l :: m) = true)
      by (cbn in Hm; apply andb_true_iff in Hm; tauto).
    assert (Hm' : isString m = true)
      by (cbn in Hlm; apply andb_true_iff in Hlm; tauto).
    specialize (IHm Hm'). specialize (IHlm Hlm).
    rewrite toScalarValues_cons2.
    cbn [List.length] in *.
    destruct (isHighSurrogate u) eqn:Hh.
    + destruct (isLowSurrogate l) eqn:Hl.
      * cbn [flat_map]. rewrite List.length_app. surrogates.
        pose proof (utf8EncodeCodePoint_length
                      (0x10000 + Z.shiftl (u - 0xD800) 10 + (l - 0xDC00)))
          as (_ & _ & H4).
        rewrite H4; [lia|].
        rewrite Z.shiftl_mul_pow2 by lia. lia.
      * cbn [flat_map]. rewrite List.length_app.
        change (List.length (utf8EncodeCodePoint 0xFFFD)) with 3%nat. lia.
    + destruct (isLowSurrogate u) eqn:Hl.
      * cbn [flat_map]. rewrite List.length_app.
        change (List.length (utf8EncodeCodePoint 0xFFFD)) with 3%nat. lia.
      * cbn [flat_map]. rewrite List.length_app. surrogates.
        pose proof (utf8EncodeCodePoint_length u). lia.
Qed.

Lemma encode_ascii m : forallb isAscii m = true -> Text.encode m = m.
Proof.
  unfold Text.encode.
  induction m as [|u m IH]; intros H; [reflexivity|].
  cbn [forallb] in H. apply andb_true_iff in H. destruct H as [Hu Hm].
  unfold isAscii in Hu. apply andb_true_iff in Hu.
  rewrite !Z.leb_le in Hu.
  assert (Hh : isHighSurrogate u = false)
    by (unfold isHighSurrogate; apply andb_false_iff; left;
        apply Z.leb_gt; lia).
  assert (Hl : isLowSurrogate u = false)
    by (unfold isLowSurrogate; apply andb_false_iff; left;
        apply Z.leb_gt; lia).
  assert (E : toScalarValues (u :: m) = u :: toScalarValues m).
  { destruct m; cbn [toScalarValues]; rewrite Hh, Hl; reflexivity. }
  rewrite E. cbn [flat_map]. rewrite IH by assumption.
  unfold utf8EncodeCodePoint. rewrite (proj2 (Z.leb_le u 0x7F)) by lia.
  reflexivity.
Qed.

(** Property X9: the byte length against the string length.  For a string
    of [n] UTF-16 code units, [getByteLength] is between [n] and [3 n]; so
    a string of at most 66 code units can always be encoded, a string of
    more than 200 code units never can ([canEncode] is false and [encode]
    throws [MessageTooLongError]), and an ASCII string has exactly [n]
    bytes, which are its code units. *)
Theorem byte_length_bounds m :
  isString m = true ->
  JS.length m <= getByteLength m <= 3 * JS.length m /\
  (JS.length m <= 66 -> canEncode m = true) /\
  (200 < JS.length m ->
   canEncode m = false /\ Protocol.encode m = Throw MessageTooLongError) /\
  (forallb isAscii m = true ->
   Text.encode m = m /\ getByteLength m = JS.length m).
Proof.
  intros Hm. pose proof (encode_length_bounds m Hm) as HB.
  unfold canEncode. rewrite encode_frameBits.
  unfold getByteLength, MAX_MESSAGE_BYTES, JS.length in *.
  split; [lia|]. split; [|split].
  - intros H. apply Z.leb_le. lia.
  - intros H. rewrite Z.gtb_ltb.
    rewrite (proj2 (Z.leb_gt _ _)), (proj2 (Z.ltb_lt _ _)) by lia.
    split; reflexivity.
  - intros H. rewrite (encode_ascii m H). split; reflexivity.
Qed.

Lemma byte_length_bounds_witness :
  isString msg_konnichiwa = true /\
  JS.length msg_konnichiwa <= getByteLength msg_konnichiwa
  <= 3 * JS.length msg_konnichiwa.
Proof.
  split; [reflexivity|].
  exact (proj1 (byte_length_bounds msg_konnichiwa eq_refl)).
Defined.

End ProtocolMore.

(** ** [Protocol.decodePartial] *)

Module PreviewFacts.

Import Text TextFacts Protocol ProtocolFacts ProtocolMore.

(** *** The longest prefix that decodes *)

Lemma utf8Decode_cut c k :
  isScalarValue c = true ->
  (0 < k < List.length (utf8EncodeCodePoint c))%nat ->
  utf8Decode false utf8_init (firstn k (utf8EncodeCodePoint c)) = None.
Proof.
  intros Hc. apply isScalarValue_range in Hc. destruct Hc as [Hr Hs].
  rewrite utf8EncodeCodePoint_arith by lia.
  destruct (Z.leb_spec c 0x7F);
    [|destruct (Z.leb_spec c 0x7FF); [|destruct (Z.leb_spec c 0xFFFF)]].
  - cbn [List.length]. intros Hk. lia.
  - cbn [List.length]. intros Hk.
    destruct k as [|[|k]]; [lia| |lia].
    cbn [firstn]. rewrite utf8Decode_lead2 by dlia. reflexivity.
  - cbn [List.length]. intros Hk.
    destruct k as [|[|[|k]]]; [lia| | |lia]; cbn [firstn];
      rewrite utf8Decode_lead3 by dlia; [reflexivity|].
    rewrite utf8Decode_continue;
      [reflexivity
      | lia
      | destruct (Z.eqb_spec (0xE0 + c / 4096) 0xE0);
        destruct (Z.eqb_spec (0xE0 + c / 4096) 0xED); dlia
      | lia].
  - rewrite (proj2 (Z.leb_le c 0x1FFFFF)) by lia.
    cbn [List.length]. intros Hk.
    destruct k as [|[|[|[|k]]]]; [lia| | | |lia]; cbn [firstn];
      rewrite utf8Decode_lead4 by dlia; [reflexivity| |].
    + rewrite utf8Decode_continue;
        [reflexivity
        | lia
        | destruct (Z.eqb_spec (0xF0 + c / 262144) 0xF0);
          destruct (Z.eqb_spec (0xF0 + c / 262144) 0xF4); dlia
        | lia].
    + rewrite utf8Decode_continue;
        [
        | lia
        | destruct (Z.eqb_spec (0xF0 + c / 262144) 0xF0);
          destruct (Z.eqb_spec (0xF0 + c / 262144) 0xF4); dlia
        | lia].
      rewrite utf8Decode_continue by dlia. reflexivity.
Qed.

Lemma utf8EncodeCodePoint_nonempty c :
  (0 < List.length (utf8EncodeCodePoint c))%nat.
Proof.
  unfold utf8EncodeCodePoint.
  destruct (c <=? 0x7F); [cbn; lia|].
  destruct (c <=? 0x7FF); [cbn; lia|].
  destruct (c <=? 0xFFFF); cbn; lia.
Qed.

Lemma decode_throws bytes e : Text.decode bytes = Throw e -> e = TypeError.
Proof.
  unfold Text.decode. destruct (utf8Decode _ _ _); congruence.
Qed.

Lemma interpretablePrefix_spec data : forall n,
  exists j,
    (j <= n)%nat /\
    Text.decode (firstn j data) = Return (interpretablePrefix n data) /\
    forall j', (j < j' <= n)%nat ->
               Text.decode (firstn j' data) = Throw TypeError.
Proof.
  induction n as [|n IH].
  - exists 0%nat. split; [lia|]. split; [reflexivity | intros; lia].
  - cbn [interpretablePrefix].
    destruct (Text.decode (firstn (S n) data)) as [text|e] eqn:E.
    + exists (S n). split; [lia|]. split; [exact E | intros; lia].
    + destruct IH as (j & Hj & Hd & Hmax).
      exists j. split; [lia|]. split; [exact Hd|].
      intros j' Hj'. destruct (Nat.eq_dec j' (S n)) as [->|Hne].
      * rewrite E. f_equal. exact (decode_throws _ _ E).
      * apply Hmax. lia.
Qed.

Lemma interpretablePrefix_all data text :
  Text.decode data = Return text ->
  interpretablePrefix (List.length data) data = text.
Proof.
  intros H. destruct data as [|b data].
  - cbn in *. congruence.
  - cbn [List.length interpretablePrefix].
    change (S (List.length data)) with (List.length (b :: data)).
    rewrite firstn_all, H. reflexivity.
Qed.

Lemma interpretablePrefix_trims text c k :
  isString text = true -> isWellFormed text = true ->
  noLeadingBOM text = true ->
  isScalarValue c = true ->
  (k < List.length (utf8EncodeCodePoint c))%nat ->
  let data := Text.encode text ++ firstn k (utf8EncodeCodePoint c) in
  interpretablePrefix (List.length data) data = text.
Proof.
  intros Hs Hw Hb Hc Hk data.
  destruct (interpretablePrefix_spec data (List.length data))
    as (j & Hj & Hd & Hmax).
  set (n := List.length (Text.encode text)).
  assert (Hn : (n <= List.length data)%nat)
    by (unfold data; rewrite List.length_app; fold n; lia).
  assert (Hvalid : Text.decode (firstn n data) = Return text).
  { unfold data, n. rewrite firstn_app, firstn_all, Nat.sub_diag.
    cbn [firstn]. rewrite app_nil_r. apply decode_encode; assumption. }
  assert (Hlong : forall j', (n < j' <= List.length data)%nat ->
                             Text.decode (firstn j' data) = Throw TypeError).
  { intros j' Hj'. unfold data in *.
    rewrite List.length_app, length_firstn in Hj'. fold n in Hj'.
    rewrite firstn_app. fold n.
    rewrite (firstn_all2 (n := j')) by (fold n; lia).
    rewrite firstn_firstn.
    unfold Text.decode, Text.encode.
    rewrite utf8Decode_encode by (apply toScalarValues_scalar; assumption).
    rewrite utf8Decode_cut by (try assumption; lia). reflexivity. }
  destruct (Nat.lt_trichotomy j n) as [Hlt|[Heq|Hgt]].
  - rewrite Hmax in Hvalid by lia. discriminate.
  - subst j. rewrite Hvalid in Hd. congruence.
  - rewrite Hlong in Hd by lia. discriminate.
Qed.

(** *** Cutting an encoding *)

(** The first [j] bytes of the encoding of a well-formed string are the
    encoding of a prefix of the string and a proper prefix of the
    encoding of one more scalar value. *)
Lemma encode_cut : forall m j,
  isString m = true -> isWellFormed m = true ->
  (j <= List.length (Text.encode m))%nat ->
  exists p q c k,
    m = p ++ q /\ isString p = true /\ isWellFormed p = true /\
    isScalarValue c = true /\
    (k < List.length (utf8EncodeCodePoint c))%nat /\
    firstn j (Text.encode m)
    = Text.encode p ++ firstn k (utf8EncodeCodePoint c) /\
    (j = List.length (Text.encode m) -> q = []).
Proof.
  assert (Step : forall c (head rest : jsstring) j,
    isScalarValue c = true ->
    isString head = true -> isWellFormed head = true ->
    (forall p, Text.encode (head ++ p)
               = utf8EncodeCodePoint c ++ Text.encode p) ->
    (forall p, isString p = true -> isString (head ++ p) = true) ->
    (forall p, isWellFormed p = true -> isWellFormed (head ++ p) = true) ->
    (forall j',
       (j' <= List.length (Text.encode rest))%nat ->
       exists p q c' k,
         rest = p ++ q /\ isString p = true /\ isWellFormed p = true /\
         isScalarValue c' = true /\
         (k < List.length (utf8EncodeCodePoint c'))%nat /\
         firstn j' (Text.encode rest)
         = Text.encode p ++ firstn k (utf8EncodeCodePoint c') /\
         (j' = List.length (Text.encode rest) -> q = [])) ->
    (j <= List.length (Text.encode (head ++ rest)))%nat ->
    exists p q c' k,
      head ++ rest = p ++ q /\ isString p = true /\ isWellFormed p = true /\
      isScalarValue c' = true /\
      (k < List.length (utf8EncodeCodePoint c'))%nat /\
      firstn j (Text.encode (head ++ rest))
      = Text.encode p ++ firstn k (utf8EncodeCodePoint c') /\
      (j = List.length (Text.encode (head ++ rest)) -> q = [])).
  { intros c head rest j Hc Hhs Hhw Henc Hstr Hwf IH Hj.
    rewrite Henc in *. rewrite List.length_app in Hj.
    pose proof (utf8EncodeCodePoint_nonempty c) as Hne.
    destruct (Nat.ltb_spec j (List.length (utf8EncodeCodePoint c)))
      as [Hlt|Hge].
    - exists [], (head ++ rest), c, j.
      split; [reflexivity|]. split; [reflexivity|]. split; [reflexivity|].
      split; [exact Hc|]. split; [exact Hlt|].
      split.
      + rewrite firstn_app.
        replace (j - List.length (utf8EncodeCodePoint c))%nat with 0%nat
          by lia.
        cbn [firstn]. rewrite app_nil_r. reflexivity.
      + rewrite List.length_app. intros ->. lia.
    - destruct (IH (j - List.length (utf8EncodeCodePoint c))%nat
                  ltac:(lia))
        as (p & q & c' & k & Hpq & Hps & Hpw & Hc' & Hk & Hf & Hq).
      exists (head ++ p), q, c', k.
      split; [rewrite Hpq, app_assoc; reflexivity|].
      split; [apply Hstr; exact Hps|].
      split; [apply Hwf; exact Hpw|].
      split; [exact Hc'|]. split; [exact Hk|].
      split.
      + rewrite firstn_app, firstn_all2 by lia.
        rewrite Hf, Henc, <- app_assoc. reflexivity.
      + rewrite List.length_app. intros E. apply Hq. lia. }
  induction m as [| u | u l m IHm IHlm] using list_pair_ind;
    intros j Hs Hw Hj.
  - exists [], [], 0, 0%nat. cbn in Hj.
    replace j with 0%nat by lia.
    repeat split; try reflexivity. cbn. lia.
  - cbn [isWellFormed] in Hw.
    destruct (isHighSurrogate u) eqn:Hh; [discriminate|].
    rewrite andb_true_r in Hw. apply negb_true_iff in Hw.
    assert (Hu : isCodeUnit u = true)
      by (cbn in Hs; apply andb_true_iff in Hs; tauto).
    change [u] with ([u] ++ []).
    apply (Step u [u] [] j).
    + surrogates. apply isScalarValue_range. lia.
    + exact Hs.
    + cbn [isWellFormed]. rewrite Hh, Hw. reflexivity.
    + intros p. unfold Text.encode. cbn [app toScalarValues].
      rewrite Hh, Hw. reflexivity.
    + intros p Hp. cbn [app isString forallb]. rewrite Hu. exact Hp.
    + intros p Hp. cbn [app isWellFormed]. rewrite Hh, Hw. exact Hp.
    + intros j' Hj'. cbn in Hj'. replace j' with 0%nat by lia.
      exists [], [], 0, 0%nat. repeat split; try reflexivity. cbn. lia.
    + exact Hj.
  - assert (Hu : isCodeUnit u = true)
      by (cbn in Hs; apply andb_true_iff in Hs; tauto).
    assert (Hlm : isString (l :: m) = true)
      by (cbn in Hs; apply andb_true_iff in Hs; tauto).
    assert (Hl : isCodeUnit l = true)
      by (cbn in Hlm; apply andb_true_iff in Hlm; tauto).
    assert (Hm : isString m = true)
      by (cbn in Hlm; apply andb_true_iff in Hlm; tauto).
    cbn [isWellFormed] in Hw.
    destruct (isHighSurrogate u) eqn:Hh.
    + apply andb_true_iff in Hw. destruct Hw as [Hlow Hwm].
      change (u :: l :: m) with ([u; l] ++ m).
      apply (Step (0x10000 + Z.shiftl (u - 0xD800) 10 + (l - 0xDC00))
               [u; l] m j).
      * surrogates. apply pair_isScalarValue; assumption.
      * cbn [isString forallb]. rewrite Hu, Hl. reflexivity.
      * cbn [isWellFormed]. rewrite Hh, Hlow. reflexivity.
      * intros p. unfold Text.encode. cbn [app].
        rewrite toScalarValues_cons2, Hh, Hlow. reflexivity.
      * intros p Hp. cbn [app isString forallb]. rewrite Hu, Hl. exact Hp.
      * intros p Hp. cbn [app isWellFormed]. rewrite Hh, Hlow. exact Hp.
      * intros j' Hj'. apply IHm; assumption.
      * exact Hj.
    + apply andb_true_iff in Hw. destruct Hw as [Hlow Hwm].
      apply negb_true_iff in Hlow.
      change (u :: l :: m) with ([u] ++ l :: m).
      apply (Step u [u] (l :: m) j).
      * surrogates. apply isScalarValue_range. lia.
      * cbn [isString forallb]. rewrite Hu. reflexivity.
      * cbn [isWellFormed]. rewrite Hh, Hlow. reflexivity.
      * intros p. unfold Text.encode. cbn [app toScalarValues].
        rewrite Hh, Hlow. reflexivity.
      * intros p Hp. cbn [app isString forallb]. rewrite Hu. exact Hp.
      * intros p Hp. cbn [app isWellFormed]. rewrite Hh, Hlow. exact Hp.
      * intros j' Hj'. apply IHlm; assumption.
      * exact Hj.
Qed.

(** *** The preview decoder *)

Lemma decodePartial_at bits i :
  forallb isBit bits = true ->
  findStartMarker bits = i -> i <> -1 ->
  decodePartial bits =
    let N := bitsToNumber (JS.slice bits (i + 8) (i + 16)) in
    let k := Z.min N ((JS.length bits - (i + 16)) / 8) in
    let data := completeBytes (JS.slice bits (i + 16) (i + 16 + 8 * k)) in
    if JS.length bits <? 32 then None
    else if JS.length bits <? i + 16 then None
    else if (N >? MAX_MESSAGE_BYTES) || (N =? 0) then None
    else Some (interpretablePrefix (List.length data) data).
Proof.
  intros Hbits Hi Hne.
  destruct (findStartMarker_range bits) as [H|[H0 H8]]; [congruence|].
  rewrite Hi in H0, H8.
  unfold decodePartial. rewrite Hi. cbv zeta.
  destruct (JS.length bits <? 32); [reflexivity|].
  rewrite (proj2 (Z.eqb_neq _ _)) by assumption.
  replace (i + 8 + 8) with (i + 16) by lia.
  rewrite slice_length by lia.
  destruct (Z.ltb_spec (JS.length bits) (i + 16)).
  { rewrite (proj2 (Z.ltb_lt _ _)) by lia. reflexivity. }
  rewrite (proj2 (Z.ltb_ge _ _)) by lia.
  pose proof (bitsToNumber_slice8 bits (i + 8) Hbits ltac:(lia) ltac:(lia))
    as HNb.
  replace (i + 8 + 8) with (i + 16) in HNb by lia.
  set (N := bitsToNumber (JS.slice bits (i + 8) (i + 16))) in *.
  apply isByte_range in HNb.
  destruct ((N >? MAX_MESSAGE_BYTES) || (N =? 0)) eqn:HN; [reflexivity|].
  set (k := Z.min N ((JS.length bits - (i + 16)) / 8)).
  assert (Hk : 0 <= k /\ i + 16 + 8 * k <= JS.length bits)
    by (unfold k; dlia).
  rewrite readDataBytes_spec by lia.
  rewrite Z2Nat.id by lia.
  rewrite (proj2 (Z.leb_le _ _)) by lia.
  cbn [app].
  rewrite Uint8Array_bytes
    by (apply (completeBytes_bytes (List.length bits)), forallb_slice,
          Hbits; unfold JS.slice;
        rewrite length_firstn, length_skipn; lia).
  reflexivity.
Qed.

Lemma completeBytes_firstn : forall bytes j,
  forallb isByte bytes = true ->
  completeBytes (firstn (8 * j) (flat_map byteToBits bytes))
  = firstn j bytes.
Proof.
  induction bytes as [|b bytes IH]; intros j H.
  - rewrite !firstn_nil. reflexivity.
  - destruct j as [|j]; [reflexivity|].
    cbn [forallb] in H. apply andb_true_iff in H. destruct H as [Hb Hbs].
    replace (8 * S j)%nat with (8 + 8 * j)%nat by lia.
    cbn [flat_map].
    change (byteToBits b ++ flat_map byteToBits bytes)
      with (map (fun i => JS.and (JS.sar b i) 1) [7; 6; 5; 4; 3; 2; 1; 0]
              ++ flat_map byteToBits bytes).
    cbn [map app]. cbn [Nat.add firstn completeBytes].
    rewrite IH by assumption.
    change [JS.and (JS.sar b 7) 1; JS.and (JS.sar b 6) 1;
            JS.and (JS.sar b 5) 1; JS.and (JS.sar b 4) 1;
            JS.and (JS.sar b 3) 1; JS.and (JS.sar b 2) 1;
            JS.and (JS.sar b 1) 1; JS.and (JS.sar b 0) 1]
      with (byteToBits b).
    rewrite bitsToNumber_byteToBits by assumption. reflexivity.
Qed.

Lemma noLeadingBOM_prefix (p q : jsstring) :
  noLeadingBOM (p ++ q) = true -> isString p = true ->
  noLeadingBOM p = true.
Proof. destruct p; intros; [reflexivity | assumption]. Qed.

Lemma preview_of_frame m c k :
  isString m = true -> isWellFormed m = true -> noLeadingBOM m = true ->
  1 <= getByteLength m <= 200 -> isByte c = true ->
  (32 <= k)%nat ->
  exists p q,
    m = p ++ q /\
    decodePartial (firstn k (frameBits (getByteLength m) (Text.encode m) c))
    = Some p /\
    (24 + 8 * getByteLength m <= Z.of_nat k -> q = []).
Proof.
  intros Hs Hw Hb Hlen Hc Hk. unfold getByteLength in *.
  pose proof (encode_bytes m Hs) as Hbytes.
  set (data := Text.encode m) in *.
  set (N := JS.length data) in *.
  set (frame := frameBits N data c).
  pose proof (frameBits_length N data c) as HL. fold N frame in HL.
  assert (HB : forallb isBit (firstn k frame) = true)
    by (apply forallb_firstn, frameBits_bits).
  pose proof (firstn_frameBits_marker N data c k) as HM. fold frame in HM.
  replace ((k <? 16)%nat) with false in HM
    by (symmetry; apply Nat.ltb_ge; lia).
  rewrite (decodePartial_at _ 8 HB HM ltac:(lia)). cbv zeta.
  set (L := JS.length (firstn k frame)).
  assert (HLk : L = Z.min (Z.of_nat k) (32 + 8 * N)).
  { unfold L, JS.length in *. rewrite length_firstn. lia. }
  change (8 + 8) with 16. change (8 + 16) with 24.
  replace (JS.slice (firstn k frame) 16 24) with (byteToBits N)
    by (rewrite slice_firstn by lia; symmetry;
        apply frameBits_length_field).
  rewrite bitsToNumber_byteToBits by (apply isByte_range; lia).
  rewrite (proj2 (Z.ltb_ge L 32)), (proj2 (Z.ltb_ge L 24)) by lia.
  unfold MAX_MESSAGE_BYTES.
  replace ((N >? 200) || (N =? 0)) with false
    by (symmetry; apply orb_false_iff;
        rewrite Z.gtb_ltb, Z.ltb_ge, Z.eqb_neq; lia).
  set (kk := Z.min N ((L - 24) / 8)).
  assert (Hkk : 0 <= kk <= N /\ 24 + 8 * kk <= L) by (unfold kk; dlia).
  assert (Hdata : completeBytes
                    (JS.slice (firstn k frame) 24 (24 + 8 * kk))
                  = firstn (Z.to_nat kk) data).
  { rewrite slice_firstn by lia.
    unfold frame, frameBits.
    rewrite (app_assoc START_MARKER), (app_assoc PREAMBLE).
    unfold JS.slice.
    replace (Z.to_nat 24)
      with (List.length ((PREAMBLE ++ START_MARKER) ++ byteToBits N))
      by reflexivity.
    rewrite skipn_app, skipn_all, Nat.sub_diag. cbn [skipn app].
    rewrite firstn_app.
    pose proof (flat_map_byteToBits_length data) as HF. fold N in HF.
    unfold JS.length in HF.
    replace (Z.to_nat (24 + 8 * kk - 24)
             - List.length (flat_map byteToBits data))%nat
      with 0%nat by lia.
    cbn [firstn]. rewrite app_nil_r.
    replace (Z.to_nat (24 + 8 * kk - 24)) with (8 * Z.to_nat kk)%nat by lia.
    apply completeBytes_firstn. exact Hbytes. }
  rewrite Hdata.
  destruct (encode_cut m (Z.to_nat kk) Hs Hw)
    as (p & q & c' & k' & Hpq & Hps & Hpw & Hc' & Hk' & Hf & Hq).
  { fold data. unfold N, JS.length in Hkk. lia. }
  fold data in Hf, Hq.
  exists p, q. split; [exact Hpq|]. split.
  - rewrite Hf. f_equal.
    apply interpretablePrefix_trims; try assumption.
    apply (noLeadingBOM_prefix p q); [rewrite <- Hpq|]; assumption.
  - intros Hfull. apply Hq. unfold N, JS.length in *. unfold kk. dlia.
Qed.

(** The preview of a buffer whose second data byte is not UTF-8: the
    marker is at 8, the length is 2, the data bytes are 65 and 255, and
    the prefix that can be interpreted is ["A"]. *)
Lemma decodePartial_stops_at_an_invalid_byte :
  decodePartial (PREAMBLE ++ START_MARKER ++ byteToBits 2
                   ++ byteToBits 65 ++ byteToBits 255) = Some [65].
Proof. reflexivity. Qed.

(** Claim C2: [Protocol.decodePartial(bits)] returns none when fewer than
    32 bits are given, when no start marker is found, when the length field
    is not complete and when the length is 0 or exceeds 200.  In every
    other case it returns a text: with [k] the smaller of the declared
    length and the number of whole bytes after the length field, and
    [data] the [k] data bytes at hand, the text is the decoding of the
    longest prefix of [data] that is valid UTF-8.  So it is the decoding of
    [data] when [data] is valid, and when [data] is the encoding of a text
    followed by a proper prefix of one more encoded code point, that text
    is returned: the incomplete sequence at the end is trimmed.  No
    checksum is read: while the frame of a message [m] is being received,
    with any checksum byte and cut after any number [k >= 32] of bits, the
    preview is a prefix of [m], and it is [m] once the data bits are all
    there. *)
Theorem decodePartial_preview :
  (forall bits, JS.length bits < 32 -> decodePartial bits = None) /\
  (forall bits, findStartMarker bits = -1 -> decodePartial bits = None) /\
  (forall bits i,
     forallb isBit bits = true -> findStartMarker bits = i -> i <> -1 ->
     let N := bitsToNumber (JS.slice bits (i + 8) (i + 16)) in
     let k := Z.min N ((JS.length bits - (i + 16)) / 8) in
     let data := completeBytes (JS.slice bits (i + 16) (i + 16 + 8 * k)) in
     (JS.length bits < i + 16 -> decodePartial bits = None) /\
     (N = 0 \/ N > 200 -> decodePartial bits = None) /\
     (32 <= JS.length bits -> i + 16 <= JS.length bits -> 1 <= N <= 200 ->
      (exists j text,
         (j <= List.length data)%nat /\
         decodePartial bits = Some text /\
         Text.decode (firstn j data) = Return text /\
         forall j', (j < j' <= List.length data)%nat ->
                    Text.decode (firstn j' data) = Throw TypeError) /\
      (forall text,
         Text.decode data = Return text -> decodePartial bits = Some text) /\
      (forall text c j,
         isString text = true -> isWellFormed text = true ->
         noLeadingBOM text = true ->
         isScalarValue c = true ->
         (j < List.length (utf8EncodeCodePoint c))%nat ->
         data = Text.encode text ++ firstn j (utf8EncodeCodePoint c) ->
         decodePartial bits = Some text))) /\
  (forall m c k,
     isString m = true -> isWellFormed m = true -> noLeadingBOM m = true ->
     1 <= getByteLength m <= 200 -> isByte c = true -> (32 <= k)%nat ->
     exists p q,
       m = p ++ q /\
       decodePartial
         (firstn k (frameBits (getByteLength m) (Text.encode m) c))
       = Some p /\
       (24 + 8 * getByteLength m <= Z.of_nat k -> q = [])).
Proof.
  split; [|split; [|split]].
  - intros bits H. unfold decodePartial.
    rewrite (proj2 (Z.ltb_lt _ _)) by assumption. reflexivity.
  - intros bits H. unfold decodePartial. rewrite H.
    destruct (_ <? _); reflexivity.
  - intros bits i Hb Hi Hne N k data.
    assert (E := decodePartial_at bits i Hb Hi Hne). cbv zeta in E.
    fold N in E. fold k in E. fold data in E.
    unfold MAX_MESSAGE_BYTES in E.
    split; [|split].
    + intros H. rewrite E, (proj2 (Z.ltb_lt _ (i + 16))) by assumption.
      destruct (_ <? _); reflexivity.
    + intros H. rewrite E.
      replace ((N >? 200) || (N =? 0)) with true.
      * destruct (_ <? _); [reflexivity|]. destruct (_ <? _); reflexivity.
      * symmetry. apply orb_true_iff.
        rewrite Z.gtb_ltb, Z.ltb_lt, Z.eqb_eq. lia.
    + intros H32 H16 HN.
      assert (E' : decodePartial bits
                   = Some (interpretablePrefix (List.length data) data)).
      { rewrite E, (proj2 (Z.ltb_ge _ 32)), (proj2 (Z.ltb_ge _ (i + 16)))
          by assumption.
        replace ((N >? 200) || (N =? 0)) with false; [reflexivity|].
        symmetry. apply orb_false_iff.
        rewrite Z.gtb_ltb, Z.ltb_ge, Z.eqb_neq. lia. }
      split; [|split].
      * destruct (interpretablePrefix_spec data (List.length data))
          as (j & Hj & Hd & Hmax).
        exists j, (interpretablePrefix (List.length data) data).
        repeat split; assumption.
      * intros text Hd. rewrite E'. f_equal.
        apply interpretablePrefix_all. exact Hd.
      * intros text c j Hs Hw Hbom Hc Hj Hd. rewrite E', Hd. f_equal.
        apply interpretablePrefix_trims; assumption.
  - intros m c k. apply preview_of_frame.
Qed.

Lemma decodePartial_preview_witness :
  (forallb isBit partial_bits = true /\ findStartMarker partial_bits = 8) /\
  decodePartial partial_bits = Some [65].
Proof.
  split; [split; reflexivity|].
  refine (proj2 (proj2 (proj2 (proj2 (proj1 (proj2 (proj2
            decodePartial_preview))
            partial_bits 8 eq_refl eq_refl _)) _ _ _))
            [65] 0x3053 2%nat eq_refl eq_refl eq_refl eq_refl _ eq_refl).
  - discriminate.
  - vm_compute. congruence.
  - vm_compute. congruence.
  - vm_compute. split; congruence.
  - vm_compute. lia.
Defined.

End PreviewFacts.

(** ** [GridProtocol]: further properties *)

Module GridMore.

Import Text TextFacts ProtocolFacts GridProtocol GridFacts ProtocolMore.

Lemma grid_encode_frames m :
  GridProtocol.encode m =
    if Protocol.getByteLength m >? MAX_MESSAGE_BYTES
    then Throw MessageTooLongError
    else Return (gridFrames (Protocol.getByteLength m) (Text.encode m)
                   (GridProtocol.calculateChecksum (Text.encode m))).
Proof. reflexivity. Qed.

Lemma flatten_length frames : JS.length (flatten frames) = 2 * JS.length frames.
Proof.
  induction frames as [|f frames IH]; [reflexivity|].
  unfold JS.length in *. cbn [flatten flat_map app List.length].
  fold (flatten frames). lia.
Qed.

Lemma flatten_app a b : flatten (a ++ b) = flatten a ++ flatten b.
Proof. unfold flatten. apply flat_map_app. Qed.

Lemma flatten_firstn : forall k frames,
  flatten (firstn k frames) = firstn (2 * k) (flatten frames).
Proof.
  induction k as [|k IH]; intros frames; [reflexivity|].
  destruct frames as [|f frames]; [reflexivity|].
  replace (2 * S k)%nat with (S (S (2 * k))) by lia.
  cbn [firstn flatten flat_map app]. fold (flatten frames).
  fold (flatten (firstn k frames)). rewrite IH. reflexivity.
Qed.

Lemma gridFrames_flatten n data c :
  exists padding,
    (padding = [] \/ padding = [0]) /\
    flatten (gridFrames n data c) = [n] ++ data ++ [c] ++ padding /\
    JS.length (flatten (gridFrames n data c))
    = roundUpToEven (JS.length data + 2).
Proof.
  unfold gridFrames.
  assert (L : JS.length ([n] ++ data ++ [c]) = JS.length data + 2).
  { rewrite !jslength_app. unfold JS.length. cbn [List.length]. lia. }
  pose proof (length_nonneg data) as H0.
  rewrite flatten_split by apply pad_even.
  unfold pad. rewrite L.
  destruct (Z.eqb_spec (JS.rem (JS.length data + 2) 2) 0) as [E|E];
    cbn [negb].
  - exists []. split; [left; reflexivity|]. split.
    + reflexivity.
    + rewrite L. unfold roundUpToEven, JS.rem in *. dlia.
  - exists [0]. split; [right; reflexivity|]. split.
    + rewrite <- !app_assoc. reflexivity.
    + rewrite jslength_app, L. unfold roundUpToEven, JS.rem, JS.length in *.
      cbn [List.length]. dlia.
Qed.

(** [decode] on the frames of a payload. *)
Lemma decode_gridFrames data c :
  forallb isByte data = true -> isByte c = true ->
  JS.length data <= 255 ->
  GridProtocol.decode (gridFrames (JS.length data) data c) =
    if (JS.length data =? 0) || (JS.length data >? MAX_MESSAGE_BYTES)
    then Return None
    else if c =? GridProtocol.calculateChecksum data then textOrNull data
    else Return None.
Proof.
  intros Hd Hc Hn.
  pose proof (length_nonneg data) as H0.
  destruct (gridFrames_flatten (JS.length data) data c)
    as (padding & Hpad & Hflat & Hlen).
  assert (Hpb : forallb isByte padding = true)
    by (destruct Hpad as [-> | ->]; reflexivity).
  destruct (gridFrames (JS.length data) data c) as [|first frames] eqn:E.
  { cbn in Hflat. discriminate. }
  rewrite grid_decode_at
    by (rewrite Hflat, !forallb_app, Hd, Hpb; cbn [forallb];
        rewrite Hc, (proj2 (isByte_range _)) by lia; reflexivity).
  cbv zeta. rewrite Hflat.
  change (nth 0 ([JS.length data] ++ data ++ [c] ++ padding) 0)
    with (JS.length data).
  destruct ((JS.length data =? 0) || (JS.length data >? MAX_MESSAGE_BYTES))
    eqn:Hvalid; [reflexivity|].
  rewrite <- Hflat, Hlen, Hflat.
  rewrite (proj2 (Z.ltb_ge _ _)) by lia.
  rewrite (slice_app_mid [JS.length data] data ([c] ++ padding))
    by (unfold JS.length; cbn [List.length]; lia).
  replace (nth_error _ _) with (Some c).
  2: { symmetry. rewrite app_assoc, nth_error_app2;
         rewrite ?List.length_app; unfold JS.length; cbn [List.length];
         [|lia].
       replace (_ - _)%nat with 0%nat by lia. reflexivity. }
  destruct (c =? GridProtocol.calculateChecksum data); reflexivity.
Qed.

Lemma grid_decode_encode m frames :
  isString m = true -> isWellFormed m = true -> noLeadingBOM m = true ->
  1 <= Protocol.getByteLength m <= 200 ->
  GridProtocol.encode m = Return frames ->
  GridProtocol.decode frames = Return (Some m).
Proof.
  intros Hs Hw Hb Hlen He. rewrite grid_encode_frames in He.
  unfold MAX_MESSAGE_BYTES in He.
  rewrite Z.gtb_ltb, (proj2 (Z.ltb_ge _ _)) in He by lia.
  injection He as <-.
  pose proof (encode_bytes m Hs) as Hbytes.
  pose proof (calculateChecksum_byte _ Hbytes) as Hc.
  rewrite <- grid_checksum_eq in Hc.
  unfold Protocol.getByteLength in *.
  rewrite decode_gridFrames by (try assumption; try lia;
    apply isByte_range; exact Hc).
  unfold MAX_MESSAGE_BYTES.
  rewrite (proj2 (Z.eqb_neq _ _)), Z.gtb_ltb, (proj2 (Z.ltb_ge _ _)) by lia.
  cbn [orb]. rewrite Z.eqb_refl.
  unfold textOrNull. rewrite decode_encode by assumption. reflexivity.
Qed.

Lemma grid_encode_shape_lemma m frames :
  isString m = true -> GridProtocol.encode m = Return frames ->
  let N := Protocol.getByteLength m in
  JS.length frames = (N + 3) / 2 /\
  forallb isByte (flatten frames) = true /\
  exists padding,
    (padding = [] \/ padding = [0]) /\
    flatten frames
    = [N] ++ Text.encode m
        ++ [GridProtocol.calculateChecksum (Text.encode m)] ++ padding.
Proof.
  intros Hs He N. rewrite grid_encode_frames in He. fold N in He.
  destruct (N >? MAX_MESSAGE_BYTES) eqn:Hlen; [discriminate|].
  injection He as <-.
  rewrite Z.gtb_ltb in Hlen. apply Z.ltb_ge in Hlen.
  unfold MAX_MESSAGE_BYTES in Hlen.
  pose proof (encode_bytes m Hs) as Hbytes.
  pose proof (calculateChecksum_byte _ Hbytes) as Hc.
  rewrite <- grid_checksum_eq in Hc.
  unfold N, Protocol.getByteLength in *.
  pose proof (length_nonneg (Text.encode m)) as H0.
  destruct (gridFrames_flatten (JS.length (Text.encode m)) (Text.encode m)
              (GridProtocol.calculateChecksum (Text.encode m)))
    as (padding & Hpad & Hflat & HL).
  split; [|split].
  - pose proof (flatten_length
                  (gridFrames (JS.length (Text.encode m)) (Text.encode m)
                     (GridProtocol.calculateChecksum (Text.encode m)))) as F.
    rewrite HL in F. unfold roundUpToEven in F. dlia.
  - rewrite Hflat, !forallb_app, Hbytes. cbn [forallb].
    rewrite Hc, (proj2 (isByte_range _)) by lia.
    destruct Hpad as [-> | ->]; reflexivity.
  - exists padding. split; assumption.
Qed.

(** Property X10: the layout of a grid encoding.  When [GridProtocol.encode]
    returns the frames of [m], there are [(N + 3) / 2] of them for the
    UTF-8 length [N] of [m], all their bytes are in 0..255, and put end to
    end they are [N], the UTF-8 bytes of [m], the XOR of those bytes, and
    at most one padding byte 0. *)
Theorem grid_encode_shape m frames :
  isString m = true -> GridProtocol.encode m = Return frames ->
  let N := Protocol.getByteLength m in
  JS.length frames = (N + 3) / 2 /\
  forallb isByte (flatten frames) = true /\
  exists padding,
    (padding = [] \/ padding = [0]) /\
    flatten frames
    = [N] ++ Text.encode m
        ++ [GridProtocol.calculateChecksum (Text.encode m)] ++ padding.
Proof. exact (grid_encode_shape_lemma m frames). Qed.

Lemma grid_encode_shape_witness :
  (isString [65] = true /\
   GridProtocol.encode [65] = Return [(1, 65); (65, 0)]) /\
  JS.length [(1, 65); (65, 0)] = (Protocol.getByteLength [65] + 3) / 2.
Proof.
  split; [split; reflexivity|].
  exact (proj1 (grid_encode_shape [65] _ eq_refl eq_refl)).
Defined.

(** Property X11: frames after a message do not matter.  If
    [GridProtocol.decode] returns a text on [frames], it returns the same
    text on [frames] followed by any further frames of bytes. *)
Theorem grid_decode_ignores_trailing_frames frames extra text :
  forallb isByte (flatten frames) = true ->
  forallb isByte (flatten extra) = true ->
  GridProtocol.decode frames = Return (Some text) ->
  GridProtocol.decode (frames ++ extra) = Return (Some text).
Proof.
  intros Hb He H.
  destruct frames as [|first frames]; [discriminate|].
  rewrite grid_decode_at in H by assumption.
  change ((first :: frames) ++ extra) with (first :: (frames ++ extra)).
  rewrite grid_decode_at
    by (change (first :: (frames ++ extra))
          with ((first :: frames) ++ extra);
        rewrite flatten_app, forallb_app, Hb, He; reflexivity).
  cbv zeta in *.
  change (first :: (frames ++ extra)) with ((first :: frames) ++ extra).
  rewrite flatten_app.
  set (bytes := flatten (first :: frames)) in *.
  change (nth 0 bytes 0) with (fst first) in H.
  change (nth 0 (bytes ++ flatten extra) 0) with (fst first).
  set (N := fst first) in *.
  assert (HN : 0 <= N).
  { unfold bytes in Hb. cbn [flatten flat_map app forallb] in Hb.
    apply andb_true_iff in Hb. destruct Hb as [Hb _].
    apply isByte_range in Hb. fold N in Hb. lia. }
  destruct ((N =? 0) || (N >? MAX_MESSAGE_BYTES)); [discriminate|].
  destruct (Z.ltb_spec (JS.length bytes) (roundUpToEven (N + 2)))
    as [L|L]; [discriminate|].
  assert (L2 : N + 2 <= JS.length bytes)
    by (unfold roundUpToEven in L; dlia).
  pose proof (length_nonneg (flatten extra)).
  rewrite (proj2 (Z.ltb_ge _ _)) by (rewrite jslength_app; lia).
  rewrite slice_app_l by lia.
  rewrite nth_error_app1 by (unfold JS.length in L2; lia).
  exact H.
Qed.

Lemma grid_decode_ignores_trailing_frames_witness :
  (forallb isByte (flatten [(1, 65); (65, 0)]) = true /\
   forallb isByte (flatten [(7, 9)]) = true /\
   GridProtocol.decode [(1, 65); (65, 0)] = Return (Some [65])) /\
  GridProtocol.decode ([(1, 65); (65, 0)] ++ [(7, 9)]) = Return (Some [65]).
Proof.
  split; [repeat split|].
  exact (grid_decode_ignores_trailing_frames [(1, 65); (65, 0)] [(7, 9)]
           [65] eq_refl eq_refl eq_refl).
Defined.

Lemma grid_missing_frames_lemma m frames k :
  isString m = true -> GridProtocol.encode m = Return frames ->
  (k < List.length frames)%nat ->
  GridProtocol.decode (firstn k frames) = Return None.
Proof.
  intros Hs He Hk.
  destruct (grid_encode_shape_lemma m frames Hs He) as (HL & Hb & padding & _ & Hf).
  destruct k as [|k]; [reflexivity|].
  destruct frames as [|first frames]; [cbn in Hk; lia|].
  cbn [firstn].
  assert (Hb' : forallb isByte (flatten (first :: firstn k frames)) = true).
  { change (first :: firstn k frames) with (firstn (S k) (first :: frames)).
    rewrite flatten_firstn. apply forallb_firstn. exact Hb. }
  rewrite grid_decode_at by exact Hb'. cbv zeta.
  change (nth 0 (flatten (first :: firstn k frames)) 0) with (fst first).
  assert (HN : fst first = Protocol.getByteLength m).
  { change (fst first) with (nth 0 (flatten (first :: frames)) 0).
    rewrite Hf. reflexivity. }
  rewrite HN.
  destruct (_ || _); [reflexivity|].
  rewrite (proj2 (Z.ltb_lt _ _)); [reflexivity|].
  rewrite flatten_length.
  pose proof (length_nonneg (Text.encode m)) as H0.
  unfold Protocol.getByteLength, roundUpToEven, JS.length in *.
  cbn [List.length] in *. rewrite length_firstn. dlia.
Qed.

(** Property X12: no strict prefix of a grid encoding decodes.  If
    [GridProtocol.encode] returns [frames] for [m], then
    [GridProtocol.decode] returns [null] on the first [k] frames for every
    [k] below the number of frames. *)
Theorem grid_decode_rejects_missing_frames m frames k :
  isString m = true -> GridProtocol.encode m = Return frames ->
  (k < List.length frames)%nat ->
  GridProtocol.decode (firstn k frames) = Return None.
Proof. exact (grid_missing_frames_lemma m frames k). Qed.

Lemma grid_decode_rejects_missing_frames_witness :
  (isString msg_Test = true /\
   GridProtocol.encode msg_Test = Return [(4, 84); (101, 115); (116, 0x36)]
   /\ (2 < List.length [(4, 84); (101, 115); (116, 0x36)])%nat) /\
  GridProtocol.decode (firstn 2 [(4, 84); (101, 115); (116, 0x36)])
  = Return None.
Proof.
  split; [repeat split; cbn; lia|].
  exact (grid_decode_rejects_missing_frames msg_Test _ 2 eq_refl eq_refl
           ltac:(cbn; lia)).
Defined.

(** Property X13: one wrong byte is detected.  For a payload of at most 200
    data bytes with its length byte and its checksum, [GridProtocol.decode]
    returns [null] when one data byte is replaced by a different byte, and
    when the checksum byte is replaced by a different byte. *)
Theorem grid_decode_detects_corrupt_byte :
  (forall a x y b,
     forallb isByte a = true -> forallb isByte b = true ->
     isByte x = true -> isByte y = true -> x <> y ->
     JS.length (a ++ x :: b) <= 200 ->
     GridProtocol.decode
       (gridFrames (JS.length (a ++ x :: b)) (a ++ y :: b)
          (GridProtocol.calculateChecksum (a ++ x :: b))) = Return None) /\
  (forall data c,
     forallb isByte data = true -> isByte c = true ->
     JS.length data <= 200 ->
     c <> GridProtocol.calculateChecksum data ->
     GridProtocol.decode (gridFrames (JS.length data) data c) = Return None).
Proof.
  split.
  - intros a x y b Ha Hb Hx Hy Hne Hlen.
    assert (E : JS.length (a ++ x :: b) = JS.length (a ++ y :: b))
      by (unfold JS.length; rewrite !List.length_app; reflexivity).
    rewrite E in *.
    rewrite decode_gridFrames;
      [| rewrite forallb_app; cbn [forallb]; rewrite Ha, Hy, Hb; reflexivity
       | rewrite grid_checksum_eq; apply calculateChecksum_byte;
         rewrite forallb_app; cbn [forallb]; rewrite Ha, Hx, Hb; reflexivity
       | lia].
    destruct (_ || _); [reflexivity|].
    rewrite !grid_checksum_eq.
    rewrite (proj2 (Z.eqb_neq _ _)); [reflexivity|].
    apply checksum_detects_one_byte; assumption.
  - intros data c Hd Hc Hlen Hne.
    rewrite decode_gridFrames by (assumption || lia).
    destruct (_ || _); [reflexivity|].
    rewrite (proj2 (Z.eqb_neq _ _) Hne). reflexivity.
Qed.

Lemma grid_decode_detects_corrupt_byte_witness :
  (forallb isByte [84; 101; 115; 116] = true /\ isByte 0xC9 = true /\
   JS.length [84; 101; 115; 116] <= 200 /\
   0xC9 <> GridProtocol.calculateChecksum [84; 101; 115; 116]) /\
  GridProtocol.decode (gridFrames 4 [84; 101; 115; 116] 0xC9) = Return None.
Proof.
  split; [repeat split; (discriminate || reflexivity)|].
  exact (proj2 grid_decode_detects_corrupt_byte [84; 101; 115; 116] 0xC9
           eq_refl eq_refl ltac:(discriminate) ltac:(discriminate)).
Defined.

End GridMore.

(** ** [BitReceiver]: the polling loop *)

Module ReceiverMore.

Import Text TextFacts ProtocolFacts ProtocolMore BitReceiver BitReceiverRun
  BitReceiverFacts.

Lemma processFrame_bounded cfg now dp db r :
  bounded r ->
  exists r' more,
    processFrame cfg now dp db r = Return r' /\
    bounded r' /\ calls r' = calls r ++ more /\ running r' = running r.
Proof.
  intros [Hlen Hidle]. unfold MAX_BITS_TIMEOUT in Hlen.
  assert (Same : exists r' more, Return r = Return r' /\ bounded r' /\
                   calls r' = calls r ++ more /\ running r' = running r).
  { exists r, []. rewrite app_nil_r. repeat split; assumption. }
  unfold processFrame. destruct (state r) eqn:Hst.
  - unfold handleIdleState. destruct dp; [|exact Same].
    eexists _, _. split; [reflexivity|]. cbn.
    rewrite Hidle by congruence. repeat split; (discriminate || reflexivity).
  - unfold handlePilotState. destruct dp; [exact Same|].
    eexists _, _. split; [reflexivity|]. cbn.
    rewrite Hidle by congruence. repeat split; (discriminate || reflexivity).
  - unfold handleGapState. destruct (Qle_bool _ _); [|exact Same].
    eexists _, _. split; [reflexivity|]. cbn.
    repeat split; (discriminate || reflexivity).
  - unfold handleBitsState. destruct (Qle_bool _ _); [|exact Same].
    destruct db as [bit|]; [|exact Same].
    unfold andThen at 1. unfold andThen at 1. unfold notifyStatus at 1.
    unfold call at 1. cbn [state bits gapStartTime lastBitTime running calls].
    unfold andThen at 1.
    cbn [state bits gapStartTime lastBitTime running calls].
    set (p := onStatusChange _).
    assert (L : JS.length (bits r ++ [bit]) = JS.length (bits r) + 1)
      by (rewrite jslength_app; reflexivity).
    assert (Reset : forall more,
      exists r' more',
        Return (mk Idle [] 0 0 (running r) ((calls r ++ [p]) ++ more))
        = Return r' /\ bounded r' /\ calls r' = calls r ++ more' /\
        running r' = running r).
    { intros more. eexists _, _. split; [reflexivity|]. cbn.
      rewrite <- app_assoc.
      repeat split; (discriminate || reflexivity). }
    assert (Timeout : forall r1,
      running r1 = running r -> bits r1 = bits r ++ [bit] ->
      calls r1 = calls r ++ [p] -> state r1 = Bits ->
      exists r' more,
        (if JS.length (bits r1) >? MAX_BITS_TIMEOUT then handleTimeout r1
         else Return r1) = Return r' /\ bounded r' /\
        calls r' = calls r ++ more /\ running r' = running r).
    { intros r1 Hr Hb Hc Hs. unfold MAX_BITS_TIMEOUT. rewrite Z.gtb_ltb.
      destruct (Z.ltb_spec 2000 (JS.length (bits r1))).
      - rewrite handleTimeout_resets, Hr, Hc. apply Reset.
      - exists r1, [p]. split; [reflexivity|].
        split; [split; [exact H | intros; congruence]|]. split; assumption. }
    destruct (24 <=? JS.length (bits r ++ [bit])).
    + destruct (decode_returns (bits r ++ [bit])) as [[message|] Hd].
      * rewrite (receiver_decode_success _ message) by exact Hd.
        cbn [state bits gapStartTime lastBitTime running calls].
        change (JS.length [] >? MAX_BITS_TIMEOUT) with false. cbv iota.
        apply Reset.
      * rewrite receiver_decode_failure by exact Hd.
        apply Timeout; first [reflexivity | exact Hst].
    + apply Timeout; first [reflexivity | exact Hst].
Qed.

Lemma run_bounded cfg ticks : forall r,
  bounded r ->
  exists r' more,
    run cfg ticks r = Return r' /\
    bounded r' /\ calls r' = calls r ++ more /\ running r' = running r.
Proof.
  induction ticks as [|k ticks IH]; intros r Hr.
  - exists r, []. rewrite app_nil_r.
    split; [reflexivity|]. split; [exact Hr|]. split; reflexivity.
  - cbn [run]. unfold andThen, poll.
    destruct (running r) eqn:Hrun.
    + destruct (processFrame_bounded cfg (tick_now k) (tick_pilot k)
                  (tick_bit k) r Hr) as (r1 & more1 & E1 & B1 & C1 & R1).
      rewrite E1.
      destruct (IH r1 B1) as (r2 & more2 & E2 & B2 & C2 & R2).
      exists r2, (more1 ++ more2). rewrite E2, C2, C1, <- app_assoc.
      split; [reflexivity|]. split; [exact B2|].
      split; [reflexivity | congruence].
    + destruct (IH r Hr) as (r2 & more2 & E2 & B2 & C2 & R2).
      exists r2, more2.
      split; [exact E2|]. split; [exact B2|].
      split; [assumption | congruence].
Qed.

(** Property X14: the polling loop keeps the bit buffer bounded.  Between
    two animation frames the receiver holds at most [MAX_BITS_TIMEOUT] =
    2000 bits, and none outside the bits state; every run of the loop
    returns, only adds calls to the callbacks, and leaves [running] as it
    was.  [start] on a stopped
    receiver establishes this, first reporting the idle state. *)
Theorem loop_keeps_the_buffer_bounded cfg :
  (forall ticks r,
     bounded r ->
     exists r' more,
       run cfg ticks r = Return r' /\
       bounded r' /\ calls r' = calls r ++ more /\
       running r' = running r) /\
  (forall k ticks r,
     running r = false ->
     exists r' more,
       andThen (start cfg k) (run cfg ticks) r = Return r' /\
       bounded r' /\ running r' = true /\
       calls r' = calls r ++ onStatusChange status_idle :: more).
Proof.
  split; [intros ticks r; apply run_bounded|].
  intros k ticks r Hrun. unfold andThen at 1. unfold start. rewrite Hrun.
  unfold andThen at 1. unfold andThen at 1. unfold reset at 1.
  cbn [state bits gapStartTime lastBitTime running calls].
  unfold andThen at 1. unfold notifyStatus at 1. unfold call at 1.
  cbn [state bits gapStartTime lastBitTime running calls].
  set (r0 := mk Idle [] 0 0 true (calls r ++ [onStatusChange status_idle])).
  assert (B0 : bounded r0)
    by (split; [vm_compute; discriminate | reflexivity]).
  unfold poll. cbn [running r0].
  destruct (processFrame_bounded cfg (tick_now k) (tick_pilot k)
              (tick_bit k) r0 B0) as (r1 & more1 & E1 & B1 & C1 & R1).
  rewrite E1.
  destruct (run_bounded cfg ticks r1 B1) as (r2 & more2 & E2 & B2 & C2 & R2).
  exists r2, (more1 ++ more2).
  split; [exact E2|]. split; [exact B2|].
  split; [rewrite R2, R1; reflexivity|].
  rewrite C2, C1. unfold r0. cbn [calls]. rewrite <- !app_assoc. reflexivity.
Qed.

Lemma loop_keeps_the_buffer_bounded_witness :
  bounded nearTimeout /\
  exists r' more,
    run ultrasonic [mkTick 200 false (Some 1)] nearTimeout = Return r' /\
    bounded r' /\ calls r' = calls nearTimeout ++ more /\
    running r' = running nearTimeout.
Proof.
  assert (B : bounded nearTimeout).
  { split; [vm_compute; discriminate | intros H; exfalso; apply H;
                                        reflexivity]. }
  split; [exact B|].
  exact (proj1 (loop_keeps_the_buffer_bounded ultrasonic)
           [mkTick 200 false (Some 1)] nearTimeout B).
Defined.

(** *** A session *)

Lemma bits_step_collect cfg now dp b r :
  state r = Bits ->
  Qle_bool (bitInterval cfg) (now - lastBitTime r) = true ->
  Protocol.decode (bits r ++ [b]) = Return None ->
  JS.length (bits r ++ [b]) <= MAX_BITS_TIMEOUT ->
  exists p,
    isProgress p = true /\
    processFrame cfg now dp (Some b) r =
      Return (mk Bits (bits r ++ [b]) (gapStartTime r) now (running r)
                (calls r ++ [p])).
Proof.
  intros Hst Hdue Hdec Hlen. unfold MAX_BITS_TIMEOUT in Hlen.
  unfold processFrame. rewrite Hst. unfold handleBitsState. rewrite Hdue.
  unfold andThen at 1. unfold andThen at 1. unfold notifyStatus at 1.
  unfold call at 1. cbn [state bits gapStartTime lastBitTime running calls].
  unfold andThen at 1.
  cbn [state bits gapStartTime lastBitTime running calls].
  eexists. split; [|
    destruct (24 <=? JS.length (bits r ++ [b]));
    [rewrite receiver_decode_failure by exact Hdec|];
    cbn [state bits gapStartTime lastBitTime running calls];
    unfold MAX_BITS_TIMEOUT;
    rewrite Z.gtb_ltb, (proj2 (Z.ltb_ge _ _)) by lia;
    rewrite Hst; reflexivity].
  reflexivity.
Qed.

Lemma bits_step_deliver cfg now dp b r message :
  state r = Bits ->
  Qle_bool (bitInterval cfg) (now - lastBitTime r) = true ->
  Protocol.decode (bits r ++ [b]) = Return (Some message) ->
  24 <= JS.length (bits r ++ [b]) ->
  exists p,
    isProgress p = true /\
    processFrame cfg now dp (Some b) r =
      Return (mk Idle [] 0 0 (running r)
                (calls r ++ [p; onStatusChange status_success;
                             onMessage message; onStatusChange status_idle])).
Proof.
  intros Hst Hdue Hdec Hlen.
  unfold processFrame. rewrite Hst. unfold handleBitsState. rewrite Hdue.
  unfold andThen at 1. unfold andThen at 1. unfold notifyStatus at 1.
  unfold call at 1. cbn [state bits gapStartTime lastBitTime running calls].
  unfold andThen at 1.
  cbn [state bits gapStartTime lastBitTime running calls].
  rewrite (proj2 (Z.leb_le 24 _)) by lia.
  rewrite (receiver_decode_success _ message) by exact Hdec.
  cbn [state bits gapStartTime lastBitTime running calls].
  change (JS.length [] >? MAX_BITS_TIMEOUT) with false. cbv iota.
  eexists. split; [|rewrite <- app_assoc; reflexivity]. reflexivity.
Qed.

Lemma receiver_run_app cfg a : forall b r,
  run cfg (a ++ b) r = andThen (run cfg a) (run cfg b) r.
Proof.
  induction a as [|k a IH]; intros b r; [reflexivity|].
  cbn [app run]. unfold andThen.
  destruct (poll cfg k r) as [r1|e]; [|reflexivity].
  rewrite IH. reflexivity.
Qed.

Lemma run_passes cfg (passes : tick -> bool) r :
  (forall k, passes k = true -> poll cfg k r = Return r) ->
  forall w, forallb passes w = true -> run cfg w r = Return r.
Proof.
  intros H. induction w as [|k w IH]; intros Hw; [reflexivity|].
  cbn [forallb] in Hw. apply andb_true_iff in Hw. destruct Hw as [Hk Hw].
  cbn [run]. unfold andThen. rewrite (H k Hk). apply IH. exact Hw.
Qed.

Lemma idle_passes cfg r k :
  state r = Idle -> negb (tick_pilot k) = true -> poll cfg k r = Return r.
Proof.
  intros Hst Hk. unfold poll, processFrame. rewrite Hst.
  unfold handleIdleState. destruct (tick_pilot k); [discriminate|].
  destruct (running r); reflexivity.
Qed.

Lemma pilot_passes cfg r k :
  state r = Pilot -> tick_pilot k = true -> poll cfg k r = Return r.
Proof.
  intros Hst Hk. unfold poll, processFrame. rewrite Hst.
  unfold handlePilotState. rewrite Hk. destruct (running r); reflexivity.
Qed.

Lemma bits_passes cfg r k :
  state r = Bits -> silent k = true -> poll cfg k r = Return r.
Proof.
  intros Hst Hk. unfold poll, processFrame. rewrite Hst.
  unfold handleBitsState. unfold silent in Hk.
  destruct (tick_bit k); [discriminate|].
  destruct (Qle_bool _ _); destruct (running r); reflexivity.
Qed.

Lemma run_collects_then_delivers cfg full message :
  Protocol.decode full = Return (Some message) ->
  (forall k, (k < List.length full)%nat ->
             Protocol.decode (firstn k full) = Return None) ->
  24 <= JS.length full <= MAX_BITS_TIMEOUT ->
  forall post pre groups r,
    pre ++ post = full -> post <> [] ->
    state r = Bits -> bits r = pre -> running r = true ->
    sampled (bitInterval cfg) (lastBitTime r) groups post = true ->
    exists r' progress,
      run cfg (polls groups) r = Return r' /\
      state r' = Idle /\ bits r' = [] /\
      calls r' = calls r ++ progress
                   ++ [onStatusChange status_success; onMessage message;
                       onStatusChange status_idle] /\
      forallb isProgress progress = true /\
      List.length progress = List.length post.
Proof.
  intros Hfull Hprefix Hlen.
  induction post as [|b post IH]; intros pre groups r Hsplit Hne
    Hst Hbits Hrun Hsam; [contradiction|].
  destruct groups as [|[early k] groups]; [discriminate|].
  cbn [sampled] in Hsam.
  apply andb_true_iff in Hsam. destruct Hsam as [Hsam Hrest].
  apply andb_true_iff in Hsam. destruct Hsam as [Hsam Hbit].
  apply andb_true_iff in Hsam. destruct Hsam as [Hearly Hdue].
  destruct (tick_bit k) as [b0|] eqn:Hk; [|discriminate].
  apply Z.eqb_eq in Hbit. subst b0.
  unfold polls. cbn [flat_map fst snd]. fold (polls groups).
  rewrite <- app_assoc, receiver_run_app. unfold andThen at 1.
  rewrite (run_passes cfg silent r
             (fun k0 => bits_passes cfg r k0 Hst) early Hearly).
  cbn [app run]. unfold andThen at 1. unfold poll.
  rewrite Hrun, Hk.
  destruct post as [|b' post].
  - (* the last bit *)
    rewrite <- Hbits in Hsplit.
    destruct (bits_step_deliver cfg (tick_now k) (tick_pilot k) b r message
                Hst Hdue)
      as (p & Hp & E); [rewrite Hsplit; exact Hfull | rewrite Hsplit; lia|].
    rewrite E.
    destruct groups as [|[? ?] ?]; [|discriminate].
    cbn [polls flat_map run].
    exists (mk Idle [] 0 0 (running r)
              (calls r ++ [p; onStatusChange status_success;
                           onMessage message; onStatusChange status_idle])),
           [p]; cbn; rewrite Hp; repeat split; reflexivity.
  - assert (Hpre : bits r ++ [b] = firstn (List.length (bits r) + 1) full).
    { rewrite <- Hsplit, Hbits.
      change (b :: b' :: post) with ([b] ++ b' :: post).
      rewrite app_assoc.
      replace (List.length pre + 1)%nat with (List.length (pre ++ [b]))
        by (rewrite List.length_app; reflexivity).
      rewrite firstn_app, firstn_all, Nat.sub_diag. cbn [firstn].
      rewrite app_nil_r. reflexivity. }
    assert (Hshort : (List.length (bits r) + 1 < List.length full)%nat).
    { rewrite <- Hsplit, Hbits, List.length_app. cbn [List.length]. lia. }
    destruct (bits_step_collect cfg (tick_now k) (tick_pilot k) b r Hst Hdue)
      as (p & Hp & E).
    { rewrite Hpre. apply Hprefix. exact Hshort. }
    { rewrite Hpre. unfold JS.length in *. rewrite length_firstn. lia. }
    rewrite E.
    destruct (IH (pre ++ [b]) groups
                (mk Bits (bits r ++ [b]) (gapStartTime r) (tick_now k)
                   (running r) (calls r ++ [p])))
      as (r' & progress & Er & Hs' & Hb' & Hc' & Hp' & Hl').
    + rewrite <- app_assoc. exact Hsplit.
    + discriminate.
    + reflexivity.
    + cbn [bits]. rewrite Hbits. reflexivity.
    + exact Hrun.
    + exact Hrest.
    + exists r', (p :: progress).
      split; [exact Er|]. split; [exact Hs'|]. split; [exact Hb'|].
      split; [rewrite Hc'; cbn [calls]; rewrite <- app_assoc; reflexivity|].
      split; [cbn [forallb]; rewrite Hp, Hp'; reflexivity|].
      cbn [List.length] in *. lia.
Qed.

(** Property X15: a whole session of the [BitReceiver].  Let [m] be well
    formed, without leading U+FEFF, of 1..200 UTF-8 bytes, and let
    [Protocol.encode] return [encoded].  Take a running, idle receiver
    whose gap time is not negative, and a run of animation frames in which
    the pilot is first absent ([w0]), then detected ([k0], and on through
    [w1]), then gone ([k1]); the next frame [k2] comes
    [gapMs * GAP_THRESHOLD_MULTIPLIER] or more after [k1]; and then, bit
    by bit of [encoded], frames at which the detector has no bit are
    followed by a frame that is due, [bitInterval] or more after the last
    sample, and detects the bit.  The receiver ends idle with no bits
    buffered, and has called: pilot, gap, receiving(0), one receiving
    status per bit, success, [onMessage m], idle.  The message is
    delivered exactly once, at the last bit.  Only frames that are due
    are assumed, which they then are in double precision too. *)
Theorem receiver_session_delivers cfg m encoded w0 k0 w1 k1 k2 groups r :
  isString m = true -> isWellFormed m = true -> noLeadingBOM m = true ->
  1 <= Protocol.getByteLength m <= 200 ->
  Protocol.encode m = Return encoded ->
  state r = Idle -> running r = true ->
  forallb (fun k => negb (tick_pilot k)) w0 = true -> tick_pilot k0 = true ->
  forallb tick_pilot w1 = true -> tick_pilot k1 = false ->
  Qle_bool 0 (the_gapMs cfg) = true ->
  Qle_bool (Qmult (the_gapMs cfg) GAP_THRESHOLD_MULTIPLIER)
    (Qminus (tick_now k2) (tick_now k1)) = true ->
  sampled (bitInterval cfg) (tick_now k2) groups encoded = true ->
  exists r' progress,
    run cfg (w0 ++ k0 :: w1 ++ k1 :: k2 :: polls groups) r
    = Return r' /\
    state r' = Idle /\ bits r' = [] /\
    calls r' = calls r
                 ++ [onStatusChange status_pilot; onStatusChange status_gap;
                     onStatusChange (status_receiving 0 None)]
                 ++ progress
                 ++ [onStatusChange status_success; onMessage m;
                     onStatusChange status_idle] /\
    forallb isProgress progress = true /\
    List.length progress = List.length encoded.
Proof.
  intros Hs Hw Hb Hlen He Hst Hrun Hw0 Hp0 Hw1 Hp1 _ Hgap Hsam.
  destruct (decode_prefixed_encoding m [] Hs Hw Hb Hlen eq_refl)
    as (bits' & He' & _ & Hd).
  rewrite He in He'. injection He' as <-. cbn [app] in Hd.
  destruct (encode_shape_lemma m encoded Hs He) as (_ & _ & HL & _).
  (* idle, until the pilot *)
  rewrite receiver_run_app. unfold andThen at 1.
  rewrite (run_passes cfg (fun k => negb (tick_pilot k)) r
             (fun k => idle_passes cfg r k Hst) w0 Hw0).
  cbn [run]. unfold andThen at 1. unfold poll at 1. rewrite Hrun.
  unfold processFrame at 1. rewrite Hst. unfold handleIdleState. rewrite Hp0.
  unfold andThen at 1. unfold notifyStatus at 1. unfold call at 1.
  cbn [state bits gapStartTime lastBitTime running calls].
  (* pilot, until it ends *)
  set (r1 := mk Pilot _ _ _ _ _).
  rewrite receiver_run_app. unfold andThen at 1.
  rewrite (run_passes cfg tick_pilot r1
             (fun k => pilot_passes cfg r1 k eq_refl) w1 Hw1).
  cbn [run]. unfold andThen at 1. unfold poll at 1. unfold r1 at 1.
  cbn [state bits gapStartTime lastBitTime running calls]. rewrite ?Hrun.
  unfold processFrame at 1. unfold r1 at 1.
  cbn [state bits gapStartTime lastBitTime running calls].
  unfold handlePilotState. rewrite Hp1. cbn [negb].
  unfold andThen at 1. unfold notifyStatus at 1. unfold call at 1.
  unfold r1. cbn [state bits gapStartTime lastBitTime running calls].
  clear r1.
  (* the gap *)
  set (r2 := mk Gap _ _ _ _ _).
  cbn [run]. unfold andThen at 1. unfold poll at 1. unfold r2 at 1.
  cbn [state bits gapStartTime lastBitTime running calls]. rewrite ?Hrun.
  unfold processFrame at 1. unfold r2 at 1.
  cbn [state bits gapStartTime lastBitTime running calls].
  unfold handleGapState. unfold r2 at 1.
  cbn [state bits gapStartTime lastBitTime running calls].
  rewrite Hgap.
  unfold andThen at 1. unfold notifyStatus at 1. unfold call at 1.
  unfold r2. cbn [state bits gapStartTime lastBitTime running calls].
  clear r2.
  (* the bits *)
  set (r3 := mk Bits [] _ _ _ _).
  assert (Hne : encoded <> []).
  { intros ->. change (JS.length []) with 0 in HL. lia. }
  destruct (run_collects_then_delivers cfg encoded m Hd
              (fun k Hk => decode_truncated_lemma m encoded k Hs He Hk)
              ltac:(unfold MAX_BITS_TIMEOUT; rewrite HL; lia)
              encoded [] groups r3 eq_refl Hne eq_refl eq_refl Hrun Hsam)
    as (r' & progress & Er & Hs' & Hb' & Hc' & Hp' & Hl').
  exists r', progress.
  split; [exact Er|]. split; [exact Hs'|]. split; [exact Hb'|].
  split; [|split; assumption].
  rewrite Hc'. unfold r3. cbn [calls]. rewrite <- !app_assoc. reflexivity.
Qed.

Lemma receiver_session_delivers_witness :
  (isString [65] = true /\ isWellFormed [65] = true /\
   noLeadingBOM [65] = true /\ 1 <= Protocol.getByteLength [65] <= 200 /\
   Protocol.encode [65] = Return frame_A /\
   Qle_bool 0 (the_gapMs ultrasonic) = true /\
   Qle_bool (Qmult (the_gapMs ultrasonic) GAP_THRESHOLD_MULTIPLIER)
     (Qminus (300 # 1) (100 # 1)) = true /\
   sampled (bitInterval ultrasonic) (300 # 1)
     (silentThenSample 408 108 frame_A) frame_A = true) /\
  exists r' progress,
    run ultrasonic
      ([mkTick 0 false None] ++ mkTick (16 # 1) true None
         :: [mkTick (50 # 1) true None] ++ mkTick (100 # 1) false None
         :: mkTick (300 # 1) false None
         :: polls (silentThenSample 408 108 frame_A)) started = Return r' /\
    state r' = Idle /\ BitReceiver.bits r' = [] /\
    calls r' = calls started
                 ++ [onStatusChange status_pilot; onStatusChange status_gap;
                     onStatusChange (status_receiving 0 None)]
                 ++ progress
                 ++ [onStatusChange status_success; onMessage [65];
                     onStatusChange status_idle] /\
    forallb isProgress progress = true /\
    List.length progress = List.length frame_A.
Proof.
  assert (H1 : 1 <= Protocol.getByteLength [65] <= 200)
    by (vm_compute; split; discriminate).
  assert (H2 : Qle_bool (Qmult (the_gapMs ultrasonic)
                           GAP_THRESHOLD_MULTIPLIER)
                 (Qminus (300 # 1) (100 # 1)) = true) by reflexivity.
  assert (H3 : sampled (bitInterval ultrasonic) (300 # 1)
                 (silentThenSample 408 108 frame_A) frame_A = true)
    by (vm_compute; reflexivity).
  split; [repeat split; (reflexivity || apply H1 || assumption)|].
  exact (receiver_session_delivers ultrasonic [65] frame_A
           [mkTick 0 false None] (mkTick (16 # 1) true None)
           [mkTick (50 # 1) true None] (mkTick (100 # 1) false None)
           (mkTick (300 # 1) false None)
           (silentThenSample 408 108 frame_A) started
           eq_refl eq_refl eq_refl H1 eq_refl eq_refl eq_refl eq_refl
           eq_refl eq_refl eq_refl eq_refl H2 H3).
Defined.

End ReceiverMore.

(** ** [ManualBitReceiver]: a session *)

Module ManualMore.

Import Text TextFacts ProtocolFacts ProtocolMore ManualBitReceiver ManualFacts.

(** Property X16: a whole session of the [ManualBitReceiver].  For [m] well
    formed, without leading U+FEFF, of 1..200 UTF-8 bytes: pilot detected,
    pilot gone, [startBitCollection], [addBit] for every bit of
    [Protocol.encode m], [tryDecode] leave a fresh receiver idle with no
    bits, having called pilot, gap, receiving(0), success, [onMessage m],
    idle, and no error. *)
Theorem manual_session_delivers m encoded :
  isString m = true -> isWellFormed m = true -> noLeadingBOM m = true ->
  1 <= Protocol.getByteLength m <= 200 ->
  Protocol.encode m = Return encoded ->
  manualSession encoded new =
    Return (mk Idle []
              [onStatusChange status_pilot; onStatusChange status_gap;
               onStatusChange (status_receiving 0 None);
               onStatusChange status_success; onMessage m;
               onStatusChange status_idle]).
Proof.
  intros Hs Hw Hb Hlen He.
  destruct (decode_prefixed_encoding m [] Hs Hw Hb Hlen eq_refl)
    as (bits' & He' & _ & Hd).
  rewrite He in He'. injection He' as <-. cbn [app] in Hd.
  unfold manualSession.
  unfold andThen at 1. unfold andThen at 1. unfold andThen at 1.
  unfold andThen at 1.
  change (processPilotDetected true new)
    with (Return (mk Pilot [] [onStatusChange status_pilot])).
  cbv iota.
  change (processPilotDetected false
            (mk Pilot [] [onStatusChange status_pilot]))
    with (Return (mk Gap [] [onStatusChange status_pilot;
                             onStatusChange status_gap])).
  cbv iota.
  change (startBitCollection
            (mk Gap [] [onStatusChange status_pilot;
                        onStatusChange status_gap]))
    with (Return (mk Bits [] [onStatusChange status_pilot;
                              onStatusChange status_gap;
                              onStatusChange (status_receiving 0 None)])).
  cbv iota.
  rewrite addBits_appends. cbn [state bits calls app].
  rewrite (manual_decode_success _ m) by exact Hd.
  reflexivity.
Qed.

Lemma manual_session_delivers_witness :
  (isString [65] = true /\ isWellFormed [65] = true /\
   noLeadingBOM [65] = true /\ 1 <= Protocol.getByteLength [65] <= 200 /\
   Protocol.encode [65] = Return frame_A) /\
  manualSession frame_A new =
    Return (mk Idle []
              [onStatusChange status_pilot; onStatusChange status_gap;
               onStatusChange (status_receiving 0 None);
               onStatusChange status_success; onMessage [65];
               onStatusChange status_idle]).
Proof.
  assert (H1 : 1 <= Protocol.getByteLength [65] <= 200)
    by (vm_compute; split; discriminate).
  split; [repeat split; (reflexivity || apply H1)|].
  exact (manual_session_delivers [65] frame_A eq_refl eq_refl eq_refl H1
           eq_refl).
Defined.

End ManualMore.

(** ** [GridChannel] *)

Module GridChannelFacts.

Import Text TextFacts ProtocolFacts GridProtocol GridFacts ProtocolMore
  GridMore GridAnalyzer GridChannel.

(** *** The end marker *)

Lemma matchCount_row bits row : forall cols acc,
  fold_left
    (fun matchCount col =>
       let index := row * GRID_COLS + col in
       let expected := JS.rem (row + col) 2 in
       match nth_error bits (Z.to_nat index) with
       | Some v => if v =? expected then matchCount + 1 else matchCount
       | None => matchCount
       end) cols acc
  = acc + fold_right Z.add 0 (map (agree bits row) cols).
Proof.
  induction cols as [|col cols IH]; intros acc; cbn [fold_left map fold_right].
  - lia.
  - rewrite IH. cbv zeta. unfold agree at 2.
    destruct (nth_error bits _) as [v|]; [destruct (v =? _)|]; lia.
Qed.

Lemma matchCount_sum bits :
  matchCount bits
  = fold_right Z.add 0
      (map (fun row => fold_right Z.add 0
                         (map (agree bits row) (upTo GRID_COLS)))
         (upTo GRID_ROWS)).
Proof.
  unfold matchCount. generalize (upTo GRID_ROWS) as rows.
  assert (G : forall rows acc,
    fold_left
      (fun matchCount row =>
         fold_left
           (fun matchCount col =>
              let index := row * GRID_COLS + col in
              let expected := JS.rem (row + col) 2 in
              match nth_error bits (Z.to_nat index) with
              | Some v => if v =? expected then matchCount + 1 else matchCount
              | None => matchCount
              end) (upTo GRID_COLS) matchCount) rows acc
    = acc + fold_right Z.add 0
              (map (fun row => fold_right Z.add 0
                                 (map (agree bits row) (upTo GRID_COLS)))
                 rows)).
  { induction rows as [|row rows IH]; intros acc;
      cbn [fold_left map fold_right]; [lia|].
    rewrite IH, matchCount_row. lia. }
  intros rows. rewrite G. lia.
Qed.

Lemma isCheckerboard_count bits :
  isCheckerboard bits = (12 <=? matchCount bits).
Proof.
  unfold isCheckerboard. generalize (matchCount bits) as n. intros n.
  destruct (Z.leb_spec 12 n) as [H|H].
  - apply Qle_bool_iff. unfold Qle, Qdiv, Qmult, Qinv, inject_Z.
    cbn. lia.
  - destruct (Qle_bool _ _) eqn:E; [|reflexivity].
    apply Qle_bool_iff in E. unfold Qle, Qdiv, Qmult, Qinv, inject_Z in E.
    cbn in E. lia.
Qed.

Lemma checkerboard_cells :
  createCheckerboardPattern = frameToCells (0x5A, 0x5A).
Proof. reflexivity. Qed.

Ltac indicators :=
  repeat match goal with
         | |- context [if ?b then 1 else 0] =>
             let x := fresh "x" in
             let Hx := fresh "Hx" in
             let Hy := fresh "Hy" in
             assert (Hy : (if b then 0 else 1) = 1 - (if b then 1 else 0))
               by (destruct b; reflexivity);
             assert (Hx : 0 <= (if b then 1 else 0) <= 1)
               by (destruct b; lia);
             rewrite ?Hy; clear Hy;
             set (x := if b then 1 else 0) in *; clearbody x
         end.

Lemma matchCount_differences bits :
  List.length bits = 16%nat ->
  matchCount bits = 16 - differences bits createCheckerboardPattern.
Proof.
  intros H.
  do 16 (destruct bits as [|? bits]; [discriminate|]).
  destruct bits; [|discriminate]. clear H.
  rewrite matchCount_sum.
  change (upTo GRID_COLS) with [0; 1; 2; 3].
  change (upTo GRID_ROWS) with [0; 1; 2; 3].
  change createCheckerboardPattern
    with [0; 1; 0; 1; 1; 0; 1; 0; 0; 1; 0; 1; 1; 0; 1; 0].
  unfold differences. cbn [map fold_right combine fst snd].
  unfold agree.
  repeat match goal with
         | |- context [nth_error ?l (Z.to_nat ?i)] =>
             let v := eval vm_compute in (Z.to_nat i) in
             change (Z.to_nat i) with v
         end.
  cbn [nth_error].
  repeat match goal with
         | |- context [JS.rem ?a 2] =>
             let v := eval vm_compute in (JS.rem a 2) in
             change (JS.rem a 2) with v
         end.
  indicators. lia.
Qed.

(** Property X17: what counts as the end marker.  For 16 cells,
    [isCheckerboard] is true exactly when at most 4 cells differ from the
    pattern that [createCheckerboardPattern] draws. *)
Theorem end_marker_tolerance cells :
  List.length cells = 16%nat ->
  (isCheckerboard cells = true
   <-> differences cells createCheckerboardPattern <= 4).
Proof.
  intros H. rewrite isCheckerboard_count, (matchCount_differences cells H).
  rewrite Z.leb_le. lia.
Qed.

Lemma end_marker_tolerance_witness :
  List.length (frameToCells (89, 83)) = 16%nat /\
  (isCheckerboard (frameToCells (89, 83)) = true
   <-> differences (frameToCells (89, 83)) createCheckerboardPattern <= 4).
Proof.
  split; [reflexivity|].
  exact (end_marker_tolerance (frameToCells (89, 83)) eq_refl).
Defined.

(** *** The receiving loop *)

Lemma run_app a : forall b r,
  run (a ++ b) r = (run a ;; run b) r.
Proof.
  induction a as [|v a IH]; intros b r; [reflexivity|].
  cbn [app run]. unfold andThen.
  destruct (poll v r) as [r1|e]; [|reflexivity].
  rewrite IH. reflexivity.
Qed.

Lemma allDue_app a : forall last b,
  allDue last (a ++ b)
  = allDue last a && allDue (fold_left (fun _ v => view_now v) a last) b.
Proof.
  induction a as [|v a IH]; intros last b; [reflexivity|].
  cbn [app allDue fold_left]. rewrite IH, andb_assoc. reflexivity.
Qed.

Lemma grid_run_passes (passes : view -> bool) r :
  (forall v, passes v = true -> poll v r = Return r) ->
  forall w, forallb passes w = true -> run w r = Return r.
Proof.
  intros H. induction w as [|v w IH]; intros Hw; [reflexivity|].
  cbn [forallb] in Hw. apply andb_true_iff in Hw. destruct Hw as [Hv Hw].
  cbn [run]. unfold andThen. rewrite (H v Hv). apply IH. exact Hw.
Qed.

Lemma grid_idle_passes r v :
  state r = Idle -> negb (view_allWhite v) = true -> poll v r = Return r.
Proof.
  intros Hst Hv. unfold poll, processFrame. rewrite Hst.
  unfold handleIdleState. destruct (view_allWhite v); [discriminate|].
  destruct (isReceiving r); reflexivity.
Qed.

Lemma grid_pilot_passes r v :
  state r = Pilot -> view_allWhite v = true -> poll v r = Return r.
Proof.
  intros Hst Hv. unfold poll, processFrame. rewrite Hst.
  unfold handlePilotState. rewrite Hv. destruct (isReceiving r); reflexivity.
Qed.

Lemma notify_eq c r :
  notify c r
  = Return (mk (state r) (frames r) (gapStartTime r) (lastFrameTime r)
              (isReceiving r) (callbacks r)
              (calls r ++ if callbacks r then [c] else [])).
Proof.
  unfold notify. destruct r as [s f g l i cb cs]. cbn.
  destruct cb; [reflexivity|]. rewrite app_nil_r. reflexivity.
Qed.

Ltac fields :=
  cbn [state frames gapStartTime lastFrameTime isReceiving callbacks calls].

Ltac notifications :=
  unfold resetState, notifyStatus, notifyMessage, notifyError, andThen;
  rewrite ?notify_eq; fields; rewrite ?notify_eq; fields;
  rewrite ?notify_eq; fields; rewrite <- ?app_assoc.

Lemma tryDecode_eq r :
  tryDecode r
  = Return (mk Idle [] (gapStartTime r) (lastFrameTime r) (isReceiving r)
              (callbacks r)
              (calls r ++
               if callbacks r then
                 match GridProtocol.decode (frames r) with
                 | Return (Some message) =>
                     [onStatusChange status_success; onMessage message;
                      onStatusChange status_idle]
                 | _ =>
                     [onStatusChange (status_error "decode failed");
                      onError checksum "Checksum verification failed";
                      onStatusChange status_idle]
                 end
               else [])).
Proof.
  unfold tryDecode.
  destruct (grid_decode_returns (frames r)) as [res E]. rewrite E.
  destruct res as [message|]; notifications;
    destruct (callbacks r); cbn [app]; rewrite ?app_nil_r; reflexivity.
Qed.

Lemma grid_processFrame_bounded v r :
  bounded r ->
  exists r' more,
    processFrame v r = Return r' /\
    bounded r' /\ calls r' = calls r ++ more /\
    isReceiving r' = isReceiving r /\ callbacks r' = callbacks r.
Proof.
  intros [Hlen Hidle].
  assert (Same : exists r' more, Return r = Return r' /\ bounded r' /\
                   calls r' = calls r ++ more /\
                   isReceiving r' = isReceiving r /\
                   callbacks r' = callbacks r).
  { exists r, []. rewrite app_nil_r. repeat split; assumption. }
  assert (Empty : forall s g l cs,
            s <> Bits ->
            bounded (mk s [] g l (isReceiving r) (callbacks r) cs)).
  { intros s g l cs Hs. split; [cbn; lia | reflexivity]. }
  unfold processFrame. destruct (state r) eqn:Hst.
  - unfold handleIdleState. destruct (view_allWhite v); [|exact Same].
    notifications. rewrite Hidle by congruence.
    eexists _, _. split; [reflexivity|]. fields.
    split; [apply Empty; discriminate|]. repeat split.
  - unfold handlePilotState. destruct (view_allWhite v); [exact Same|].
    cbn [negb]. notifications. rewrite Hidle by congruence.
    eexists _, _. split; [reflexivity|]. fields.
    split; [apply Empty; discriminate|]. repeat split.
  - unfold handleGapState. cbv zeta. destruct (Qle_bool _ _); [|exact Same].
    notifications.
    eexists _, _. split; [reflexivity|]. fields.
    split; [split; [cbn; lia | reflexivity]|]. repeat split.
  - unfold handleBitsState. cbv zeta. destruct (Qle_bool _ _); [|exact Same].
    destruct (isCheckerboard (view_bits v)).
    + rewrite tryDecode_eq.
      eexists _, _. split; [reflexivity|]. fields.
      split; [apply Empty; discriminate|]. repeat split.
    + notifications.
      assert (L : JS.length (frames r ++ [cellsToFrame (view_bits v)])
                  = JS.length (frames r) + 1).
      { rewrite jslength_app. reflexivity. }
      destruct (JS.length (frames r ++ _) >? 200) eqn:Hmax.
      * rewrite ?notify_eq; fields. rewrite ?notify_eq; fields.
        rewrite ?notify_eq; fields. rewrite <- ?app_assoc.
        eexists _, _. split; [reflexivity|]. fields.
        split; [apply Empty; discriminate|]. repeat split.
      * eexists _, _. split; [reflexivity|]. fields.
        rewrite Z.gtb_ltb in Hmax. apply Z.ltb_ge in Hmax.
        split; [split; [fields; exact Hmax
                      | intros C; exfalso; apply C; exact Hst]|].
        repeat split.
Qed.

(** Property X18: the grid receiver's loop keeps the stored frames
    bounded.  Between two camera frames the channel holds at most 200
    frames, and none outside the bits state; every run of the loop
    returns, only adds calls to the callbacks, and leaves [_isReceiving]
    as it was.  [startReceive] on a channel that is not receiving
    establishes this. *)
Theorem grid_loop_keeps_the_frames_bounded :
  (forall views r,
     bounded r ->
     exists r' more,
       run views r = Return r' /\
       bounded r' /\ calls r' = calls r ++ more /\
       isReceiving r' = isReceiving r) /\
  (forall v views r,
     isReceiving r = false ->
     exists r' more,
       (startReceive v ;; run views) r = Return r' /\
       bounded r' /\ calls r' = calls r ++ more /\ isReceiving r' = true).
Proof.
  assert (G : forall views r,
     bounded r ->
     exists r' more,
       run views r = Return r' /\
       bounded r' /\ calls r' = calls r ++ more /\
       isReceiving r' = isReceiving r).
  { induction views as [|v views IH]; intros r B.
    - exists r, []. rewrite app_nil_r. repeat split; apply B.
    - cbn [run]. unfold andThen, poll.
      destruct (isReceiving r) eqn:Hrun.
      + destruct (grid_processFrame_bounded v r B)
          as (r1 & more1 & E1 & B1 & C1 & R1 & _).
        rewrite E1.
        destruct (IH r1 B1) as (r2 & more2 & E2 & B2 & C2 & R2).
        exists r2, (more1 ++ more2).
        split; [exact E2|]. split; [exact B2|].
        split; [rewrite C2, C1, app_assoc; reflexivity | congruence].
      + destruct (IH r B) as (r2 & more2 & E2 & B2 & C2 & R2).
        exists r2, more2. repeat split; (assumption || congruence || apply B2). }
  split; [exact G|].
  intros v views r Hoff. unfold andThen at 1. unfold startReceive.
  rewrite Hoff. unfold andThen at 1. unfold andThen at 1.
  unfold notifyStatus. rewrite notify_eq. fields.
  unfold poll. fields.
  set (r0 := mk Idle [] _ _ true _ _).
  assert (B0 : bounded r0) by (split; [cbn; lia | reflexivity]).
  destruct (grid_processFrame_bounded v r0 B0)
    as (r1 & more1 & E1 & B1 & C1 & R1 & _).
  rewrite E1.
  destruct (G views r1 B1) as (r2 & more2 & E2 & B2 & C2 & R2).
  exists r2, ((if callbacks r then [onStatusChange status_idle] else [])
              ++ more1 ++ more2).
  split; [exact E2|]. split; [exact B2|].
  split; [|rewrite R2, R1; reflexivity].
  rewrite C2, C1. unfold r0. fields. rewrite <- !app_assoc. reflexivity.
Qed.

Lemma grid_loop_keeps_the_frames_bounded_witness :
  bounded watching /\
  exists r' more,
    run [mkView 0 true []] watching = Return r' /\
    bounded r' /\ calls r' = calls watching ++ more /\
    isReceiving r' = isReceiving watching.
Proof.
  assert (B : bounded watching).
  { split; [vm_compute; discriminate | reflexivity]. }
  split; [exact B|].
  exact (proj1 grid_loop_keeps_the_frames_bounded [mkView 0 true []]
           watching B).
Defined.

(** *** A session *)

(** The progress that [handleBitsState] reports with [n] frames stored. *)
Lemma bits_view_store v r :
  state r = Bits ->
  Qle_bool GRID_FRAME_MS (view_now v - lastFrameTime r) = true ->
  isCheckerboard (view_bits v) = false ->
  JS.length (frames r) < 200 ->
  exists p,
    isProgress p = true /\
    processFrame v r
    = Return (mk Bits (frames r ++ [cellsToFrame (view_bits v)])
                (gapStartTime r) (view_now v) (isReceiving r) (callbacks r)
                (calls r ++ if callbacks r then [p] else [])).
Proof.
  intros Hst Hdue Hcb Hlen.
  unfold processFrame. rewrite Hst. unfold handleBitsState. cbv zeta.
  rewrite Hdue, Hcb.
  unfold andThen at 1. unfold andThen at 1.
  unfold notifyStatus at 1. rewrite notify_eq. fields.
  rewrite jslength_app.
  change (JS.length [cellsToFrame (view_bits v)]) with 1.
  rewrite Z.gtb_ltb, (proj2 (Z.ltb_ge _ _)) by lia.
  rewrite Hst. eexists. split; [|reflexivity]. reflexivity.
Qed.

Lemma bits_view_end v r :
  state r = Bits ->
  Qle_bool GRID_FRAME_MS (view_now v - lastFrameTime r) = true ->
  isCheckerboard (view_bits v) = true ->
  processFrame v r = tryDecode r.
Proof.
  intros Hst Hdue Hcb.
  unfold processFrame. rewrite Hst. unfold handleBitsState. cbv zeta.
  rewrite Hdue, Hcb. reflexivity.
Qed.

Lemma run_stores : forall views r,
  state r = Bits -> isReceiving r = true -> callbacks r = true ->
  allDue (lastFrameTime r) views = true ->
  existsb isCheckerboard (map view_bits views) = false ->
  JS.length (frames r) + JS.length views <= 200 ->
  exists progress,
    run views r
    = Return (mk Bits
                (frames r ++ map (fun v => cellsToFrame (view_bits v)) views)
                (gapStartTime r)
                (fold_left (fun _ v => view_now v) views (lastFrameTime r))
                true true (calls r ++ progress)) /\
    forallb isProgress progress = true /\
    List.length progress = List.length views.
Proof.
  induction views as [|v views IH]; intros r Hst Hrun Hcbs Hdue Hno Hlen.
  - exists []. cbn [run map fold_left]. rewrite !app_nil_r.
    destruct r as [s f g l i c cs]. cbn in *. subst. repeat split.
  - cbn [map allDue existsb] in Hdue, Hno.
    apply andb_true_iff in Hdue. destruct Hdue as [Hdue Hrest].
    apply orb_false_iff in Hno. destruct Hno as [Hv Hno].
    assert (L : JS.length (v :: views) = JS.length views + 1).
    { unfold JS.length. cbn [List.length]. lia. }
    pose proof (length_nonneg views) as H0.
    destruct (bits_view_store v r Hst Hdue Hv) as (p & Hp & E); [lia|].
    cbn [run]. unfold andThen at 1. unfold poll. rewrite Hrun, E, Hcbs.
    match goal with
    | |- context [run views ?r1] =>
        destruct (IH r1) as (progress & Er & Hpr & Hl)
    end; fields; try reflexivity; try assumption.
    { rewrite jslength_app.
      change (JS.length [cellsToFrame (view_bits v)]) with 1. lia. }
    exists (p :: progress). rewrite Er. fields.
    cbn [map fold_left forallb List.length]. rewrite Hp, Hpr, Hl.
    rewrite <- !app_assoc. repeat split.
Qed.

Lemma run_opening w0 v0 w1 v1 v2 r :
  state r = Idle -> isReceiving r = true -> callbacks r = true ->
  forallb (fun v => negb (view_allWhite v)) w0 = true ->
  view_allWhite v0 = true ->
  forallb view_allWhite w1 = true -> view_allWhite v1 = false ->
  Qle_bool (Qmult GRID_GAP_MS GAP_THRESHOLD_MULTIPLIER)
    (Qminus (view_now v2) (view_now v1)) = true ->
  run (w0 ++ v0 :: w1 ++ [v1; v2]) r
  = Return (mk Bits [] (view_now v1) (view_now v2) true true
              (calls r ++ [onStatusChange status_pilot;
                           onStatusChange status_gap;
                           onStatusChange (status_receiving 0 None)])).
Proof.
  intros Hst Hrun Hcbs Hw0 H0 Hw1 H1 H2.
  rewrite run_app. unfold andThen at 1.
  rewrite (grid_run_passes (fun v => negb (view_allWhite v)) r
             (fun v => grid_idle_passes r v Hst) w0 Hw0).
  cbn [run]. unfold andThen at 1. unfold poll at 1. rewrite Hrun.
  unfold processFrame at 1. rewrite Hst. unfold handleIdleState.
  rewrite H0. unfold andThen at 1. unfold notifyStatus at 1.
  rewrite notify_eq. fields. rewrite Hrun, Hcbs.
  set (r1 := mk Pilot _ _ _ _ _ _).
  rewrite run_app. unfold andThen at 1.
  rewrite (grid_run_passes view_allWhite r1
             (fun v => grid_pilot_passes r1 v eq_refl) w1 Hw1).
  cbn [run]. unfold andThen at 1. unfold poll at 1. unfold r1 at 1. fields.
  unfold processFrame at 1. unfold r1 at 1. fields. unfold handlePilotState.
  rewrite H1. cbn [negb]. unfold andThen at 1. unfold notifyStatus at 1.
  rewrite notify_eq. unfold r1. fields. clear r1.
  unfold andThen at 1. unfold poll at 1. fields.
  unfold processFrame at 1. fields.
  unfold handleGapState. cbv zeta. fields.
  rewrite H2. unfold andThen at 1. unfold notifyStatus at 1.
  rewrite notify_eq. fields. rewrite <- !app_assoc. reflexivity.
Qed.

Lemma stored_frames : forall fs,
  forallb isByte (flatten fs) = true ->
  map cellsToFrame (map frameToCells fs) = fs.
Proof.
  induction fs as [|[hi lo] fs IH]; intros H; [reflexivity|].
  cbn [flatten flat_map fst snd app forallb] in H. fold (flatten fs) in H.
  apply andb_true_iff in H. destruct H as [Hh H].
  apply andb_true_iff in H. destruct H as [Hl H].
  cbn [map]. rewrite cellsToFrame_frameToCells, IH by assumption.
  reflexivity.
Qed.

Lemma encode_length_le m fs1 fs2 :
  GridProtocol.encode m = Return (fs1 ++ fs2) ->
  (List.length fs1 + List.length fs2 <= 101)%nat.
Proof.
  intros He. rewrite grid_encode_frames in He.
  unfold Protocol.getByteLength in He.
  destruct (_ >? _) eqn:Hlen; [discriminate|].
  rewrite Z.gtb_ltb in Hlen. apply Z.ltb_ge in Hlen.
  unfold MAX_MESSAGE_BYTES in Hlen.
  injection He as He.
  pose proof (flatten_length
                (gridFrames (JS.length (Text.encode m)) (Text.encode m)
                   (GridProtocol.calculateChecksum (Text.encode m)))) as F.
  destruct (gridFrames_flatten (JS.length (Text.encode m)) (Text.encode m)
              (GridProtocol.calculateChecksum (Text.encode m)))
    as (_ & _ & _ & L).
  rewrite L, He in F. unfold roundUpToEven, JS.length in F, Hlen.
  rewrite List.length_app in F. dlia.
Qed.

Lemma send_shown m pilot gap shown :
  send m = Return (pilot :: gap :: shown) ->
  exists fs,
    GridProtocol.encode m = Return fs /\
    shown = map frameToCells fs ++ [createCheckerboardPattern].
Proof.
  unfold send. destruct (GridProtocol.encode m) as [fs|e]; [|discriminate].
  intros H. exists fs. split; [reflexivity|].
  cbn [app] in H. congruence.
Qed.

(** Property X19: a whole session of the grid channel.  Let [m] be well
    formed, without leading U+FEFF, of 1..200 UTF-8 bytes, and let [send]
    draw the all-white pilot, the all-black gap and then the patterns
    [shown], none of which but the last passes [isCheckerboard].  Take
    a receiving, idle channel with callbacks and a run of camera frames
    that are first not all white ([w0]), then all white ([v0], and on
    through [w1]), then not ([v1]); the next frame [v2] comes
    [GRID_GAP_MS * GAP_THRESHOLD_MULTIPLIER] or more after [v1]; and then
    one frame for each pattern of [shown], each [GRID_FRAME_MS] or more
    after the one before.  The channel ends idle with no frames stored,
    and has called: pilot, gap, receiving(0), one receiving status per
    data frame, success, [onMessage m], idle.  Only frames that are due
    are assumed, which they then are in double precision too. *)
Theorem grid_session_delivers m shown w0 v0 w1 v1 v2 views r :
  isString m = true -> isWellFormed m = true -> noLeadingBOM m = true ->
  1 <= Protocol.getByteLength m <= 200 ->
  send m
  = Return (createAllWhitePattern :: createAllBlackPattern :: shown) ->
  existsb isCheckerboard (removelast shown) = false ->
  state r = Idle -> isReceiving r = true -> callbacks r = true ->
  forallb (fun v => negb (view_allWhite v)) w0 = true ->
  view_allWhite v0 = true ->
  forallb view_allWhite w1 = true -> view_allWhite v1 = false ->
  Qle_bool (Qmult GRID_GAP_MS GAP_THRESHOLD_MULTIPLIER)
    (Qminus (view_now v2) (view_now v1)) = true ->
  map view_bits views = shown ->
  allDue (view_now v2) views = true ->
  exists r' progress,
    run (w0 ++ v0 :: w1 ++ v1 :: v2 :: views) r = Return r' /\
    state r' = Idle /\ frames r' = [] /\
    calls r' = calls r
                 ++ [onStatusChange status_pilot; onStatusChange status_gap;
                     onStatusChange (status_receiving 0 None)]
                 ++ progress
                 ++ [onStatusChange status_success; onMessage m;
                     onStatusChange status_idle] /\
    forallb isProgress progress = true /\
    S (List.length progress) = List.length shown.
Proof.
  intros Hs Hw Hb Hlen Hsend Hno Hst Hrun Hcbs Hw0 H0 Hw1 H1 H2
    Hviews Hdue.
  destruct (send_shown _ _ _ _ Hsend) as (fs & He & Hshown).
  destruct (grid_encode_shape_lemma m fs Hs He) as (HL & Hbytes & _).
  pose proof (grid_decode_encode m fs Hs Hw Hb Hlen He) as Hdec.
  rewrite Hshown, removelast_last in Hno.
  destruct (exists_last (l := views)) as (data & vend & ->).
  { intros ->. rewrite Hshown in Hviews. destruct (map frameToCells fs);
      discriminate. }
  rewrite Hshown, map_app in Hviews. cbn [map] in Hviews.
  apply app_inj_tail in Hviews. destruct Hviews as [Hdata Hend].
  rewrite allDue_app in Hdue.
  apply andb_true_iff in Hdue. destruct Hdue as [Hdue Hlast].
  cbn [allDue] in Hlast. rewrite andb_true_r in Hlast.
  replace (w0 ++ v0 :: w1 ++ v1 :: v2 :: data ++ [vend])
    with ((w0 ++ v0 :: w1 ++ [v1; v2]) ++ data ++ [vend])
    by (rewrite <- !app_assoc; cbn [app]; rewrite <- !app_assoc;
        reflexivity).
  rewrite run_app. unfold andThen at 1.
  rewrite run_opening by assumption.
  set (r1 := mk Bits [] _ _ true true _).
  assert (Hn : List.length data = List.length fs).
  { rewrite <- (length_map view_bits), Hdata, length_map. reflexivity. }
  destruct (run_stores data r1) as (progress & Er & Hp & Hl);
    try reflexivity.
  { exact Hdue. }
  { rewrite Hdata. exact Hno. }
  { unfold r1, JS.length in *. cbn [frames List.length]. rewrite Hn.
    unfold Protocol.getByteLength in *. dlia. }
  rewrite run_app. unfold andThen at 1. rewrite Er.
  cbn [run]. unfold andThen at 1. unfold poll. fields.
  rewrite bits_view_end;
    [|reflexivity | exact Hlast | rewrite Hend; reflexivity].
  rewrite tryDecode_eq. fields.
  change (frames r1) with (@nil frame). cbn [app].
  rewrite <- (map_map view_bits cellsToFrame), Hdata,
    (stored_frames fs Hbytes), Hdec.
  eexists _, progress. split; [reflexivity|]. fields.
  split; [reflexivity|]. split; [reflexivity|].
  split; [unfold r1; fields; rewrite <- !app_assoc; reflexivity|].
  split; [exact Hp|].
  rewrite Hshown, List.length_app, length_map, Hl, Hn. cbn [List.length]. lia.
Qed.

Lemma grid_session_delivers_witness :
  (isString [65] = true /\ isWellFormed [65] = true /\
   noLeadingBOM [65] = true /\ 1 <= Protocol.getByteLength [65] <= 200 /\
   send [65]
   = Return (createAllWhitePattern :: createAllBlackPattern
               :: [frameToCells (1, 65); frameToCells (65, 0);
                   createCheckerboardPattern]) /\
   existsb isCheckerboard
     (removelast [frameToCells (1, 65); frameToCells (65, 0);
                  createCheckerboardPattern]) = false /\
   allDue (1040 # 1)
     (viewsEvery 1440 400
        [frameToCells (1, 65); frameToCells (65, 0);
         createCheckerboardPattern]) = true) /\
  exists r' progress,
    run ([mkView 0 false createAllBlackPattern]
           ++ mkView (16 # 1) true createAllWhitePattern
           :: [mkView (400 # 1) true createAllWhitePattern]
           ++ mkView (800 # 1) false createAllBlackPattern
           :: mkView (1040 # 1) false createAllBlackPattern
           :: viewsEvery 1440 400
                [frameToCells (1, 65); frameToCells (65, 0);
                 createCheckerboardPattern]) watching = Return r' /\
    state r' = Idle /\ frames r' = [] /\
    calls r' = calls watching
                 ++ [onStatusChange status_pilot; onStatusChange status_gap;
                     onStatusChange (status_receiving 0 None)]
                 ++ progress
                 ++ [onStatusChange status_success; onMessage [65];
                     onStatusChange status_idle] /\
    forallb isProgress progress = true /\
    S (List.length progress) = 3%nat.
Proof.
  assert (H1 : 1 <= Protocol.getByteLength [65] <= 200)
    by (vm_compute; split; discriminate).
  split; [repeat split; (reflexivity || apply H1)|].
  exact (grid_session_delivers [65]
           [frameToCells (1, 65); frameToCells (65, 0);
            createCheckerboardPattern]
           [mkView 0 false createAllBlackPattern]
           (mkView (16 # 1) true createAllWhitePattern)
           [mkView (400 # 1) true createAllWhitePattern]
           (mkView (800 # 1) false createAllBlackPattern)
           (mkView (1040 # 1) false createAllBlackPattern)
           (viewsEvery 1440 400
              [frameToCells (1, 65); frameToCells (65, 0);
               createCheckerboardPattern])
           watching eq_refl eq_refl eq_refl H1 eq_refl eq_refl eq_refl
           eq_refl eq_refl eq_refl eq_refl eq_refl eq_refl eq_refl eq_refl
           eq_refl).
Defined.

(** Property X20: a data frame that looks like the end marker ends the
    session early.  Let [send] draw, after pilot and gap, the patterns
    [before], then [cells], then at least one more pattern, where no
    pattern of [before] passes [isCheckerboard] and [cells] does.  A
    receiving, idle channel with callbacks that sees the pilot and the gap
    as in X19 and then reads [before] and [cells], one
    camera frame for each pattern and each [GRID_FRAME_MS] or more after
    the one before, decodes at [cells]: it ends idle with no frames
    stored, and has called pilot, gap, receiving(0), one receiving status
    per pattern of [before], then the error status [decode failed],
    [onError] with type [checksum], and idle.  The message is not
    delivered. *)
Theorem grid_end_marker_collision m before cells after
    w0 v0 w1 v1 v2 views r :
  isString m = true ->
  send m
  = Return (createAllWhitePattern :: createAllBlackPattern
              :: before ++ cells :: after) ->
  after <> [] ->
  existsb isCheckerboard before = false ->
  isCheckerboard cells = true ->
  state r = Idle -> isReceiving r = true -> callbacks r = true ->
  forallb (fun v => negb (view_allWhite v)) w0 = true ->
  view_allWhite v0 = true ->
  forallb view_allWhite w1 = true -> view_allWhite v1 = false ->
  Qle_bool (Qmult GRID_GAP_MS GAP_THRESHOLD_MULTIPLIER)
    (Qminus (view_now v2) (view_now v1)) = true ->
  map view_bits views = before ++ [cells] ->
  allDue (view_now v2) views = true ->
  exists r' progress,
    run (w0 ++ v0 :: w1 ++ v1 :: v2 :: views) r = Return r' /\
    state r' = Idle /\ frames r' = [] /\
    calls r' = calls r
                 ++ [onStatusChange status_pilot; onStatusChange status_gap;
                     onStatusChange (status_receiving 0 None)]
                 ++ progress
                 ++ [onStatusChange (status_error "decode failed");
                     onError checksum "Checksum verification failed";
                     onStatusChange status_idle] /\
    forallb isProgress progress = true /\
    List.length progress = List.length before.
Proof.
  intros Hs Hsend Hafter Hno Hcells Hst Hrun Hcbs Hw0 H0 Hw1 H1 H2
    Hviews Hdue.
  destruct (send_shown _ _ _ _ Hsend) as (fs & He & Hshown).
  destruct (grid_encode_shape_lemma m fs Hs He) as (HL & Hbytes & _).
  destruct (exists_last Hafter) as (after' & marker & ->).
  change (before ++ cells :: after' ++ [marker])
    with (before ++ (cells :: after') ++ [marker]) in Hshown.
  rewrite app_assoc in Hshown. apply app_inj_tail in Hshown.
  destruct Hshown as [Hshown _]. symmetry in Hshown.
  apply map_eq_app in Hshown.
  destruct Hshown as (fs1 & fs2 & -> & Hfs1 & Hfs2).
  assert (Hfs2' : fs2 <> []) by (intros ->; discriminate).
  rewrite flatten_app, forallb_app in Hbytes.
  apply andb_true_iff in Hbytes. destruct Hbytes as [Hb1 _].
  assert (Hdec : GridProtocol.decode fs1 = Return None).
  { rewrite <- (firstn_all fs1), <- (app_nil_r (firstn _ _)).
    change (@nil frame) with (firstn 0 fs2).
    rewrite <- (Nat.sub_diag (List.length fs1)), <- firstn_app.
    apply (grid_missing_frames_lemma m _ _ Hs He).
    rewrite List.length_app. destruct fs2; [contradiction|].
    cbn [List.length]. lia. }
  destruct (exists_last (l := views)) as (data & vend & ->).
  { intros ->. destruct before; discriminate. }
  rewrite map_app in Hviews. cbn [map] in Hviews.
  apply app_inj_tail in Hviews. destruct Hviews as [Hdata Hend].
  rewrite allDue_app in Hdue.
  apply andb_true_iff in Hdue. destruct Hdue as [Hdue Hlast].
  cbn [allDue] in Hlast. rewrite andb_true_r in Hlast.
  replace (w0 ++ v0 :: w1 ++ v1 :: v2 :: data ++ [vend])
    with ((w0 ++ v0 :: w1 ++ [v1; v2]) ++ data ++ [vend])
    by (rewrite <- !app_assoc; cbn [app]; rewrite <- !app_assoc;
        reflexivity).
  rewrite run_app. unfold andThen at 1.
  rewrite run_opening by assumption.
  set (r1 := mk Bits [] _ _ true true _).
  assert (Hn : List.length data = List.length fs1).
  { rewrite <- (length_map view_bits), Hdata, <- Hfs1, length_map.
    reflexivity. }
  destruct (run_stores data r1) as (progress & Er & Hp & Hl);
    try reflexivity.
  { exact Hdue. }
  { rewrite Hdata. exact Hno. }
  { unfold r1, JS.length in *. cbn [frames List.length]. rewrite Hn.
    rewrite List.length_app in HL.
    unfold Protocol.getByteLength in *.
    pose proof (encode_length_le m fs1 fs2 He). lia. }
  rewrite run_app. unfold andThen at 1. rewrite Er.
  cbn [run]. unfold andThen at 1. unfold poll. fields.
  rewrite bits_view_end;
    [|reflexivity | exact Hlast | rewrite Hend; exact Hcells].
  rewrite tryDecode_eq. fields.
  change (frames r1) with (@nil frame). cbn [app].
  rewrite <- (map_map view_bits cellsToFrame), Hdata, <- Hfs1,
    (stored_frames fs1 Hb1), Hdec.
  eexists _, progress. split; [reflexivity|]. fields.
  split; [reflexivity|]. split; [reflexivity|].
  split; [unfold r1; fields; rewrite <- !app_assoc; reflexivity|].
  split; [exact Hp|].
  rewrite Hl, Hn, length_map. reflexivity.
Qed.

Lemma grid_end_marker_collision_witness :
  (isString msg_aYS = true /\
   send msg_aYS
   = Return (createAllWhitePattern :: createAllBlackPattern
               :: [frameToCells (3, 97)] ++ frameToCells (89, 83)
               :: [frameToCells (107, 0); createCheckerboardPattern]) /\
   [frameToCells (107, 0); createCheckerboardPattern] <> [] /\
   existsb isCheckerboard [frameToCells (3, 97)] = false /\
   isCheckerboard (frameToCells (89, 83)) = true) /\
  exists r' progress,
    run ([mkView 0 false createAllBlackPattern]
           ++ mkView (16 # 1) true createAllWhitePattern
           :: [mkView (400 # 1) true createAllWhitePattern]
           ++ mkView (800 # 1) false createAllBlackPattern
           :: mkView (1040 # 1) false createAllBlackPattern
           :: viewsEvery 1440 400
                [frameToCells (3, 97); frameToCells (89, 83)]) watching
    = Return r' /\
    state r' = Idle /\ frames r' = [] /\
    calls r' = calls watching
                 ++ [onStatusChange status_pilot; onStatusChange status_gap;
                     onStatusChange (status_receiving 0 None)]
                 ++ progress
                 ++ [onStatusChange (status_error "decode failed");
                     onError checksum "Checksum verification failed";
                     onStatusChange status_idle] /\
    forallb isProgress progress = true /\
    List.length progress = 1%nat.
Proof.
  assert (Hne : [frameToCells (107, 0); createCheckerboardPattern] <> [])
    by discriminate.
  split; [repeat split; (reflexivity || exact Hne)|].
  exact (grid_end_marker_collision msg_aYS
           [frameToCells (3, 97)] (frameToCells (89, 83))
           [frameToCells (107, 0); createCheckerboardPattern]
           [mkView 0 false createAllBlackPattern]
           (mkView (16 # 1) true createAllWhitePattern)
           [mkView (400 # 1) true createAllWhitePattern]
           (mkView (800 # 1) false createAllBlackPattern)
           (mkView (1040 # 1) false createAllBlackPattern)
           (viewsEvery 1440 400
              [frameToCells (3, 97); frameToCells (89, 83)])
           watching eq_refl eq_refl Hne eq_refl eq_refl eq_refl eq_refl
           eq_refl eq_refl eq_refl eq_refl eq_refl eq_refl eq_refl eq_refl).
Defined.

End GridChannelFacts.

(** ** [BitReceiver]: after a failed frame *)

Module ReceiverDeaf.

Import Text TextFacts Protocol ProtocolFacts ProtocolMore BitReceiver
  BitReceiverRun BitReceiverFacts ReceiverMore.

Lemma deaf_run_lemma cfg :
  forall bs groups r,
    state r = Bits -> running r = true ->
    forallb isBit (bits r) = true -> forallb isBit bs = true ->
    deadFrame (bits r) = true ->
    sampled (bitInterval cfg) (lastBitTime r) groups bs = true ->
    JS.length (bits r) + JS.length bs <= MAX_BITS_TIMEOUT ->
    exists r' progress,
      run cfg (polls groups) r = Return r' /\
      state r' = Bits /\ bits r' = bits r ++ bs /\
      calls r' = calls r ++ progress /\
      forallb isProgress progress = true /\
      List.length progress = List.length bs.
Proof.
  induction bs as [|b bs IH]; intros groups r Hst Hrun Hbits Hbs Hdead
    Hsam Hlen.
  - destruct groups as [|[? ?] ?]; [|discriminate].
    exists r, []. rewrite !app_nil_r. repeat split. exact Hst.
  - destruct groups as [|[early k] groups]; [discriminate|].
    cbn [sampled] in Hsam.
    apply andb_true_iff in Hsam. destruct Hsam as [Hsam Hrest].
    apply andb_true_iff in Hsam. destruct Hsam as [Hsam Hbit].
    apply andb_true_iff in Hsam. destruct Hsam as [Hearly Hdue].
    destruct (tick_bit k) as [b0|] eqn:Hk; [|discriminate].
    apply Z.eqb_eq in Hbit. subst b0.
    cbn [forallb] in Hbs. apply andb_true_iff in Hbs.
    destruct Hbs as [Hb Hbs].
    assert (L : JS.length (b :: bs) = JS.length bs + 1).
    { unfold JS.length. cbn [List.length]. lia. }
    pose proof (length_nonneg bs) as H0.
    destruct (dead_frame_lemma (bits r) [b] Hbits) as [Hnone Hdead'].
    { cbn [forallb]. rewrite Hb. reflexivity. }
    { exact Hdead. }
    unfold polls. cbn [flat_map fst snd]. fold (polls groups).
    rewrite <- app_assoc, receiver_run_app. unfold andThen at 1.
    rewrite (run_passes cfg silent r
               (fun k0 => bits_passes cfg r k0 Hst) early Hearly).
    cbn [app run]. unfold andThen at 1. unfold poll. rewrite Hrun, Hk.
    destruct (bits_step_collect cfg (tick_now k) (tick_pilot k) b r Hst Hdue
                Hnone) as (p & Hp & E).
    { rewrite jslength_app. change (JS.length [b]) with 1. lia. }
    rewrite E.
    destruct (IH groups
                (mk Bits (bits r ++ [b]) (gapStartTime r) (tick_now k)
                   (running r) (calls r ++ [p])))
      as (r' & progress & Er & Hs' & Hb' & Hc' & Hp' & Hl');
      try reflexivity; try assumption.
    { cbn [bits]. rewrite forallb_app, Hbits. cbn [forallb].
      rewrite Hb. reflexivity. }
    { cbn [bits]. rewrite jslength_app. change (JS.length [b]) with 1. lia. }
    exists r', (p :: progress).
    split; [exact Er|]. split; [exact Hs'|].
    split; [rewrite Hb'; cbn [bits]; rewrite <- app_assoc; reflexivity|].
    split; [rewrite Hc'; cbn [calls]; rewrite <- app_assoc; reflexivity|].
    split; [cbn [forallb]; rewrite Hp, Hp'; reflexivity|].
    cbn [List.length]. lia.
Qed.

(** Property X21: after a failed frame the [BitReceiver] delivers nothing.
    Let the receiver be in the bits state with a buffer that holds a
    failed frame ([deadFrame], for instance a frame received with one
    flipped bit).  Whatever bits [bs] it samples next, each from a frame
    that is due, with frames in between at which the detector has no bit,
    as long as the buffer stays within [MAX_BITS_TIMEOUT], it stays in the
    bits state, appends them, and calls nothing but receiving statuses:
    neither [onMessage] nor [onError]. *)
Theorem receiver_is_deaf_after_a_failed_frame cfg bs groups r :
  state r = Bits -> running r = true ->
  forallb isBit (bits r) = true -> forallb isBit bs = true ->
  deadFrame (bits r) = true ->
  sampled (bitInterval cfg) (lastBitTime r) groups bs = true ->
  JS.length (bits r) + JS.length bs <= MAX_BITS_TIMEOUT ->
  exists r' progress,
    run cfg (polls groups) r = Return r' /\
    state r' = Bits /\ bits r' = bits r ++ bs /\
    deadFrame (bits r') = true /\
    calls r' = calls r ++ progress /\
    forallb isProgress progress = true /\
    List.length progress = List.length bs.
Proof.
  intros Hst Hrun Hbits Hbs Hdead Hsam Hlen.
  destruct (deaf_run_lemma cfg bs groups r Hst Hrun Hbits Hbs Hdead Hsam Hlen)
    as (r' & progress & Er & Hs' & Hb' & Hc' & Hp' & Hl').
  exists r', progress.
  split; [exact Er|]. split; [exact Hs'|]. split; [exact Hb'|].
  split; [rewrite Hb'; apply (dead_frame_lemma (bits r) bs Hbits Hbs Hdead)|].
  repeat split; assumption.
Qed.

Lemma receiver_is_deaf_after_a_failed_frame_witness :
  (forallb isBit (bits afterDamage) = true /\
   forallb isBit frame_A = true /\
   deadFrame (bits afterDamage) = true /\
   sampled (bitInterval ultrasonic) (lastBitTime afterDamage)
     (silentThenSample 108 108 frame_A) frame_A = true /\
   JS.length (bits afterDamage) + JS.length frame_A <= MAX_BITS_TIMEOUT) /\
  exists r' progress,
    run ultrasonic (polls (silentThenSample 108 108 frame_A)) afterDamage
    = Return r' /\
    state r' = Bits /\ bits r' = bits afterDamage ++ frame_A /\
    deadFrame (bits r') = true /\
    calls r' = calls afterDamage ++ progress /\
    forallb isProgress progress = true /\
    List.length progress = List.length frame_A.
Proof.
  assert (H1 : sampled (bitInterval ultrasonic) (lastBitTime afterDamage)
                 (silentThenSample 108 108 frame_A) frame_A = true)
    by (vm_compute; reflexivity).
  assert (H2 : JS.length (bits afterDamage) + JS.length frame_A
               <= MAX_BITS_TIMEOUT) by (vm_compute; discriminate).
  split; [repeat split; (reflexivity || assumption)|].
  exact (receiver_is_deaf_after_a_failed_frame ultrasonic frame_A
           (silentThenSample 108 108 frame_A) afterDamage
           eq_refl eq_refl eq_refl eq_refl eq_refl H1 H2).
Defined.

End ReceiverDeaf.
